(** * Codalyzer: the LLM request pipeline

    A shallow embedding of the request pipeline of the complexity analyzer:
    the completion client ([providers/groq_provider.py]), the result cache and
    the analyzer facade ([core/analyzer.py]), the data models
    ([core/models.py]) and the prompt builder ([core/prompts.py]).

    Python objects that the code mutates (the provider's counters, the cache
    dictionary, the caller's options object) live in an explicit [world];
    every operation is a function from a world to an outcome (a value or a
    raised exception) and the world it leaves behind.  The network, the clock
    and the file system are oracles of an environment, indexed by the trace of
    events the program has produced so far. *)

From Stdlib Require Import ZArith String Ascii List Bool Floats Lia.
From stdpp Require Import base option list gmap strings pretty.

Import ListNotations.
Set Warnings "-register-all,-inexact-float".
Set Default Proof Using "Type".
Local Open Scope string_scope.
Local Open Scope Z_scope.

(** ** Python strings

    A [str] is modelled as a [string] whose characters are the code points
    below 256. *)

Module Str.

(** [str.isspace] on one character: the white space code points below 256. *)
Definition isspace (c : ascii) : bool :=
  let n := N_of_ascii c in
  ((9 <=? n) && (n <=? 13) || (28 <=? n) && (n <=? 32)
   || (n =? 133) || (n =? 160))%N.

Fixpoint lstrip (s : string) : string :=
  match s with
  | EmptyString => EmptyString
  | String c s' => if isspace c then lstrip s' else s
  end.

Fixpoint rstrip (s : string) : string :=
  match s with
  | EmptyString => EmptyString
  | String c s' =>
      match rstrip s' with
      | EmptyString => if isspace c then EmptyString else String c EmptyString
      | r => String c r
      end
  end.

(** [s.strip()] *)
Definition strip (s : string) : string := rstrip (lstrip s).

(** Truth value of a string: [bool(s)]. *)
Definition truthy (s : string) : bool :=
  match s with EmptyString => false | _ => true end.

Fixpoint find_from (i : Z) (c : ascii) (s : string) : Z :=
  match s with
  | EmptyString => -1
  | String d s' => if Ascii.eqb c d then i else find_from (i + 1) c s'
  end.

(** [s.find(c)] for a one-character needle: the least index, or -1. *)
Definition find (c : ascii) (s : string) : Z := find_from 0 c s.

Fixpoint rfind_from (i : Z) (c : ascii) (s : string) : Z :=
  match s with
  | EmptyString => -1
  | String d s' =>
      let r := rfind_from (i + 1) c s' in
      if r =? -1 then (if Ascii.eqb c d then i else -1) else r
  end.

(** [s.rfind(c)] for a one-character needle: the greatest index, or -1. *)
Definition rfind (c : ascii) (s : string) : Z := rfind_from 0 c s.

(** [s[lo:hi]] for indices that are not negative. *)
Definition slice (lo hi : Z) (s : string) : string :=
  substring (Z.to_nat lo) (Z.to_nat (hi - lo)) s.

(** [s[:n]] *)
Definition prefix (n : nat) (s : string) : string := substring 0 n s.

Definition to_lower (c : ascii) : ascii :=
  let n := N_of_ascii c in
  if ((65 <=? n) && (n <=? 90)
      || (192 <=? n) && (n <=? 222) && negb (n =? 215))%N
  then ascii_of_N (n + 32) else c.

(** [s.lower()] *)
Fixpoint lower (s : string) : string :=
  match s with
  | EmptyString => EmptyString
  | String c s' => String (to_lower c) (lower s')
  end.

(** [chr(n)], the double quote character, and a quoted word. *)
Definition chr (n : nat) : string := String (ascii_of_nat n) EmptyString.
Definition dq : string := chr 34.
Definition quoted (s : string) : string := dq ++ s ++ dq.

End Str.

(** ** Decoded JSON values

    What [json.loads] and [response.json()] return: [None], [bool], [int],
    [float], [str], [list] and [dict] (an association list in insertion
    order, looked up from the front). *)

Inductive json : Type :=
| JNone
| JBool (b : bool)
| JInt (n : Z)
| JFloat (f : float)
| JStr (s : string)
| JList (l : list json)
| JDict (d : list (string * json)).

Fixpoint assoc (k : string) (d : list (string * json)) : option json :=
  match d with
  | [] => None
  | (k', v) :: d' => if String.eqb k k' then Some v else assoc k d'
  end.

(** ** Exceptions *)

Inductive exn : Type :=
| ValueError (msg : string)
| FileNotFoundError (msg : string)
| GroqAPIError (message : string) (status_code : option Z)
| GroqRateLimitError (message : string) (status_code : option Z)
| TimeoutException
| NetworkError
| HTTPError
| RetryError
| JSONDecodeError
| UnicodeDecodeError
| AttributeError (obj : json) (attr : string)
| KeyError (key : json)
| IndexError
| TypeError (what : string) (obj : json)
| OverflowError
| ValidationError (model : string).

(** [type(e).__name__] *)
Definition exn_name (e : exn) : string :=
  match e with
  | ValueError _ => "ValueError"
  | FileNotFoundError _ => "FileNotFoundError"
  | GroqAPIError _ _ => "GroqAPIError"
  | GroqRateLimitError _ _ => "GroqRateLimitError"
  | TimeoutException => "TimeoutException"
  | NetworkError => "NetworkError"
  | HTTPError => "HTTPError"
  | RetryError => "RetryError"
  | JSONDecodeError => "JSONDecodeError"
  | UnicodeDecodeError => "UnicodeDecodeError"
  | AttributeError _ _ => "AttributeError"
  | KeyError _ => "KeyError"
  | IndexError => "IndexError"
  | TypeError _ _ => "TypeError"
  | OverflowError => "OverflowError"
  | ValidationError _ => "ValidationError"
  end.

(** [isinstance(e, GroqRateLimitError)] *)
Definition is_rate_limit (e : exn) : bool :=
  match e with GroqRateLimitError _ _ => true | _ => false end.

(** [isinstance(e, (httpx.TimeoutException, httpx.NetworkError))] *)
Definition is_transient (e : exn) : bool :=
  match e with TimeoutException | NetworkError => true | _ => false end.

(** The outcome of a Python expression: a value or a raised exception. *)
Inductive outcome (A : Type) : Type :=
| Ok (a : A)
| Raise (e : exn).
Arguments Ok {A} a.
Arguments Raise {A} e.

Definition obind {A B} (o : outcome A) (k : A -> outcome B) : outcome B :=
  match o with Ok a => k a | Raise e => Raise e end.

#[global] Instance outcome_ret : MRet outcome := fun A a => Ok a.
#[global] Instance outcome_bind : MBind outcome := fun A B k o => obind o k.

Definition is_ok {A} (o : outcome A) : bool :=
  match o with Ok _ => true | Raise _ => false end.

(** ** Library functions

    The Python libraries the pipeline calls are outside the repository.  The
    ones whose results the code only passes around are taken as the fields of
    a class: every definition and theorem below holds for any instance. *)

Class Runtime : Type := {
  (** [json.loads(text)]; [None] stands for [json.JSONDecodeError]. *)
  json_loads : string -> option json;
  (** [hashlib.sha256(s.encode()).hexdigest()] *)
  sha256_hexdigest : string -> string;
  (** [str(v)] of a decoded value that is not a [str]. *)
  py_repr : json -> string;
  (** [str(e)] of an exception raised by the interpreter or a library. *)
  lib_str : exn -> string;
  (** Pydantic's conversion of a value that is not already of the field's
      type; [None] when the field rejects it. *)
  coerce_str : json -> option string;
  coerce_int : json -> option Z;
  coerce_float : json -> option float;
}.

(** ** Data models ([core/models.py]) *)

Record FunctionComplexity : Type := {
  name : string;
  time_complexity : string;
  space_complexity : string;
  explanation : string;
  line_start : option Z;
  line_end : option Z;
  variables : option (list (string * string));
  best_case : option string;
  worst_case : option string;
  average_case : option string;
}.

Record CodeComplexityResult : Type := {
  language : string;
  overall_time_complexity : string;
  overall_space_complexity : string;
  summary : string;
  detailed_explanation : string;
  functions : list FunctionComplexity;
  optimization_suggestions : list string;
  confidence_score : float;
}.

Record AnalysisOptions : Type := {
  analyze_functions : bool;
  include_suggestions : bool;
  detailed_mode : bool;
  detect_language : bool;
  language_hint : option string;
  include_best_worst_case : bool;
}.

(** [AnalysisOptions()] *)
Definition default_options : AnalysisOptions :=
  {| analyze_functions := true; include_suggestions := true;
     detailed_mode := true; detect_language := true;
     language_hint := None; include_best_worst_case := false |}.

(** [options.language_hint = hint] *)
Definition set_language_hint (hint : option string) (o : AnalysisOptions)
  : AnalysisOptions :=
  {| analyze_functions := analyze_functions o;
     include_suggestions := include_suggestions o;
     detailed_mode := detailed_mode o;
     detect_language := detect_language o;
     language_hint := hint;
     include_best_worst_case := include_best_worst_case o |}.

Record AnalysisError : Type := {
  error_type : string;
  message : string;
  recoverable : bool;
}.

(** A Python number, [int] or [float]: the running token counter starts as
    the [int] 0 and becomes a [float] when a float is added to it; a sleep
    takes either. *)
Inductive pynum : Type :=
| PInt (n : Z)
| PFloat (f : float).

(** ** The environment and the trace *)

(** The JSON body of one chat-completion request. *)
Record request : Type := {
  rq_model : string;
  rq_messages : list (string * string);   (* role, content *)
  rq_max_tokens : Z;
  rq_temperature : float;
  rq_json_object : bool;                  (* response_format is set *)
}.

(** What the program does to the outside, in order: an HTTP POST, a sleep
    (in seconds) and a reading of the clock. *)
Inductive event : Type :=
| Post (r : request)
| Sleep (seconds : pynum)
| ReadClock.

Definition is_post (e : event) : bool :=
  match e with Post _ => true | _ => false end.

(** The result of [client.post]: a response, or one of httpx's failures. *)
Inductive http_result : Type :=
| Response (status : Z) (text : string)
| TimedOut            (* httpx.TimeoutException *)
| NetworkDown         (* httpx.NetworkError *)
| OtherFailure.       (* any other httpx.HTTPError *)

Inductive fs_node : Type :=
| Directory
| RegularFile (text : option string).   (* [None]: not valid UTF-8 *)

Record Env : Type := {
  (** The answer to a POST, given everything that happened before it. *)
  http_post : list event -> request -> http_result;
  (** [datetime.now()] in microseconds, given everything that happened. *)
  clock : list event -> Z;
  (** [os.getenv] of the API key variable. *)
  getenv_api_key : option string;
  (** The file system, by path. *)
  file_system : string -> option fs_node;
}.

(** ** Objects and worlds *)

Record GroqConfig : Type := {
  api_key : string;
  model : string;
  fallback_model : string;
  max_tokens : Z;
  temperature : float;
  timeout : float;
  max_retries : Z;
}.

(** [GroqConfig(api_key=key)] *)
Definition default_config (key : string) : GroqConfig :=
  {| api_key := key;
     model := "llama-3.3-70b-versatile";
     fallback_model := "llama-3.1-8b-instant";
     max_tokens := 4096;
     temperature := 0.1%float;
     timeout := 60%float;
     max_retries := 3 |}.

Record http_client : Type := { is_closed : bool }.

Record GroqProvider : Type := {
  config : GroqConfig;
  _client : option http_client;
  _total_tokens_used : pynum;
  _request_count : Z;
}.

Record AnalysisCache : Type := {
  _cache : gmap string (CodeComplexityResult * Z);
  _ttl : Z;   (* microseconds *)
}.

(** The facade.  Its cache attribute is named [_cache] in the source, like
    the dictionary of [AnalysisCache]. *)
Record CodeComplexityAnalyzer : Type := {
  _groq_config : option GroqConfig;
  _provider : option GroqProvider;
  _analysis_cache : option AnalysisCache;
}.

(** A world seen from an object of type [O]: the object, the options objects
    the caller has allocated (referred to by their index), and the trace. *)
Record world (O : Type) : Type := World {
  self : O;
  heap : list AnalysisOptions;
  trace : list event;
}.
Arguments World {O} self heap trace.
Arguments self {O} w.
Arguments heap {O} w.
Arguments trace {O} w.

Definition with_self {O O'} (o : O') (w : world O) : world O' :=
  World o (heap w) (trace w).

Definition emit {O} (e : event) (w : world O) : world O :=
  World (self w) (heap w) (trace w ++ [e]).

(** A method of an object of type [O] returning an [A]. *)
Definition M (O A : Type) : Type := world O -> outcome A * world O.

Definition ret {O A} (a : A) : M O A := fun w => (Ok a, w).
Definition raise {O A} (e : exn) : M O A := fun w => (Raise e, w).

Definition bind {O A B} (m : M O A) (k : A -> M O B) : M O B :=
  fun w => match m w with
           | (Ok a, w') => k a w'
           | (Raise e, w') => (Raise e, w')
           end.

(** [try: m  except Exception as e: h e] *)
Definition try_except {O A} (m : M O A) (h : exn -> M O A) : M O A :=
  fun w => match m w with
           | (Ok a, w') => (Ok a, w')
           | (Raise e, w') => h e w'
           end.

(** A pure expression that may raise. *)
Definition lift {O A} (o : outcome A) : M O A := fun w => (o, w).

Definition get_self {O} : M O O := fun w => (Ok (self w), w).
Definition put_self {O} (o : O) : M O unit := fun w => (Ok tt, with_self o w).

Declare Scope py_scope.
Delimit Scope py_scope with py.
Notation "x <- m ;; k" := (bind m (fun x => k))
  (at level 100, m at next level, right associativity) : py_scope.
Notation "m ;;; k" := (bind m (fun _ => k))
  (at level 100, right associativity) : py_scope.
Local Open Scope py_scope.

(** [await asyncio.sleep(seconds)] *)
Definition sleep {O} (seconds : pynum) : M O unit :=
  fun w => (Ok tt, emit (Sleep seconds) w).

(** [datetime.now()] *)
Definition datetime_now {O} (E : Env) : M O Z :=
  fun w => let w' := emit ReadClock w in (Ok (clock E (trace w')), w').

(** Run a method of the object [o'] that [self] holds, and store the object
    back with [store]. *)
Definition call {O O' A} (o' : O') (store : O' -> O -> O) (m : M O' A) : M O A :=
  fun w => match m (with_self o' w) with
           | (r, w') => (r, World (store (self w') (self w)) (heap w') (trace w'))
           end.

(** ** Operations of the interpreter on decoded values *)

(** [obj.get(key, default)] *)
Definition py_get (obj : json) (key : string) (default : json) : outcome json :=
  match obj with
  | JDict d => Ok (match assoc key d with Some v => v | None => default end)
  | _ => Raise (AttributeError obj "get")
  end.

(** [obj[key]] for a string key. *)
Definition getitem (obj : json) (key : string) : outcome json :=
  match obj with
  | JDict d =>
      match assoc key d with Some v => Ok v | None => Raise (KeyError (JStr key)) end
  | JList _ | JStr _ => Raise (TypeError "indices must be integers" obj)
  | _ => Raise (TypeError "not subscriptable" obj)
  end.

(** [obj[0]] *)
Definition getitem_0 (obj : json) : outcome json :=
  match obj with
  | JList (x :: _) => Ok x
  | JList [] => Raise IndexError
  | JStr (String c _) => Ok (JStr (String c EmptyString))
  | JStr EmptyString => Raise IndexError
  | JDict _ => Raise (KeyError (JInt 0))
  | _ => Raise (TypeError "not subscriptable" obj)
  end.

(** [obj.strip()] *)
Definition py_strip (obj : json) : outcome string :=
  match obj with
  | JStr s => Ok (Str.strip s)
  | _ => Raise (AttributeError obj "strip")
  end.

(** [float(n)] of an [int]: rounded to the nearest double, [OverflowError]
    beyond the range. *)
Definition float_of_int (n : Z) : outcome float :=
  let f := SF2Prim (binary_normalize prec emax n 0 false) in
  if PrimFloat.is_infinity f then Raise OverflowError else Ok f.

(** [a + v], as in [a += v], for a number [a]. *)
Definition py_add (a : pynum) (v : json) : outcome pynum :=
  match a, v with
  | PInt x, JInt y => Ok (PInt (x + y))
  | PInt x, JBool b => Ok (PInt (x + Z.b2z b))
  | PInt x, JFloat g => obind (float_of_int x) (fun f => Ok (PFloat (f + g)))
  | PFloat f, JInt y => obind (float_of_int y) (fun g => Ok (PFloat (f + g)))
  | PFloat f, JBool b => Ok (PFloat (f + (if b then 1 else 0)))
  | PFloat f, JFloat g => Ok (PFloat (f + g))
  | _, _ => Raise (TypeError "unsupported operand type(s) for +=" v)
  end.

Definition json_of_pynum (a : pynum) : json :=
  match a with PInt n => JInt n | PFloat f => JFloat f end.

Section WithRuntime.

Context `{RT : Runtime}.

(** [str(e)] *)
Definition exn_str (e : exn) : string :=
  match e with
  | ValueError msg | FileNotFoundError msg => msg
  | GroqAPIError msg _ | GroqRateLimitError msg _ => msg
  | _ => lib_str e
  end.

(** A value interpolated into an f-string. *)
Definition format_value (v : json) : string :=
  match v with JStr s => s | _ => py_repr v end.

End WithRuntime.

(** ** The completion client ([providers/groq_provider.py]) *)

Definition set_client (c : http_client) (p : GroqProvider) : GroqProvider :=
  {| config := config p; _client := Some c;
     _total_tokens_used := _total_tokens_used p;
     _request_count := _request_count p |}.

Definition set_total_tokens_used (n : pynum) (p : GroqProvider) : GroqProvider :=
  {| config := config p; _client := _client p;
     _total_tokens_used := n;
     _request_count := _request_count p |}.

Definition set_request_count (n : Z) (p : GroqProvider) : GroqProvider :=
  {| config := config p; _client := _client p;
     _total_tokens_used := _total_tokens_used p;
     _request_count := n |}.

Section Provider.

Context `{RT : Runtime} (E : Env).

(** [GroqProvider.__init__] *)
Definition GroqProvider_init (cfg : option GroqConfig) : outcome GroqProvider :=
  let fresh c :=
    {| config := c; _client := None;
       _total_tokens_used := PInt 0; _request_count := 0 |} in
  match cfg with
  | Some c => Ok (fresh c)
  | None =>
      match getenv_api_key E with
      | Some key =>
          if Str.truthy key then Ok (fresh (default_config key))
          else Raise (ValueError
            "GROQ_API_KEY environment variable not set. Get your key from https://console.groq.com")
      | None => Raise (ValueError
            "GROQ_API_KEY environment variable not set. Get your key from https://console.groq.com")
      end
  end.

Definition _get_client : M GroqProvider http_client :=
  p <- get_self;;
  let create :=
    (let c := {| is_closed := false |} in put_self (set_client c p);;; ret c) in
  match _client p with
  | None => create
  | Some c => if is_closed c then create else ret c
  end.

(** [await client.post(self.BASE_URL, json=payload)] *)
Definition post (payload : request) : M GroqProvider (Z * string) :=
  fun w =>
    let w' := emit (Post payload) w in
    match http_post E (trace w) payload with
    | Response status text => (Ok (status, text), w')
    | TimedOut => (Raise TimeoutException, w')
    | NetworkDown => (Raise NetworkError, w')
    | OtherFailure => (Raise HTTPError, w')
    end.

(** The best-effort detail of an error response. *)
Definition error_detail (text : string) : json :=
  match json_loads text with
  | None => JStr text
  | Some error_json =>
      match obind (py_get error_json "error" (JDict []))
                  (fun err => py_get err "message" (JStr text)) with
      | Ok v => v
      | Raise _ => JStr text
      end
  end.

(** The body of [_make_request]: one attempt. *)
Definition _make_request_once (messages : list (string * string))
    (model_name : string) (json_mode : bool) : M GroqProvider json :=
  _get_client;;;
  p <- get_self;;
  let payload :=
    {| rq_model := model_name; rq_messages := messages;
       rq_max_tokens := max_tokens (config p);
       rq_temperature := temperature (config p);
       rq_json_object := json_mode |} in
  response <- post payload;;
  let '(status_code, text) := response in
  if status_code =? 429 then
    raise (GroqRateLimitError "Rate limit exceeded. Please wait and retry." (Some 429))
  else if negb (status_code =? 200) then
    raise (GroqAPIError
             ("API error (" ++ pretty status_code ++ "): "
              ++ format_value (error_detail text))
             (Some status_code))
  else
    match json_loads text with
    | Some j => ret j
    | None => raise JSONDecodeError
    end.

(** tenacity's [wait_exponential(multiplier=1, min=1, max=10)] after the
    given attempt: [max(max(0, min), min(multiplier * 2 ** (n - 1), max))]. *)
Definition wait_exponential (attempt_number : nat) : pynum :=
  PInt (Z.max (Z.max 0 1) (Z.min (1 * 2 ^ (Z.of_nat attempt_number - 1)) 10)).

(** tenacity's [retry]: run [m]; when it raises one of the transient
    exceptions and attempts remain, wait and run it again; when none
    remain, raise [RetryError]. *)
Fixpoint retrying {A} (attempt_number remaining : nat) (m : M GroqProvider A)
  : M GroqProvider A :=
  try_except m (fun e =>
    if is_transient e then
      match remaining with
      | O => raise RetryError
      | S remaining' =>
          sleep (wait_exponential attempt_number);;;
          retrying (S attempt_number) remaining' m
      end
    else raise e).

(** [_make_request], under [@retry(stop=stop_after_attempt(3), ...)]. *)
Definition _make_request (messages : list (string * string))
    (model_name : string) (json_mode : bool) : M GroqProvider json :=
  retrying 1 2 (_make_request_once messages model_name json_mode).

(** The usage tracking of [complete]. *)
Definition track_usage (response : json) : M GroqProvider unit :=
  usage <- lift (py_get response "usage" (JDict []));;
  tokens <- lift (py_get usage "total_tokens" (JInt 0));;
  p <- get_self;;
  total <- lift (py_add (_total_tokens_used p) tokens);;
  put_self (set_total_tokens_used total p);;;
  p <- get_self;;
  put_self (set_request_count (_request_count p + 1) p).

(** [response["choices"][0]["message"]["content"].strip()] *)
Definition extract_content (response : json) : outcome string :=
  obind (getitem response "choices") (fun choices =>
  obind (getitem_0 choices) (fun choice =>
  obind (getitem choice "message") (fun msg =>
  obind (getitem msg "content") py_strip))).

(** [f"{last_error}"] *)
Definition format_last_error (last_error : option exn) : string :=
  match last_error with Some e => exn_str e | None => "None" end.

(** The body of the outer [try] of the loop of [complete]: the request,
    the usage tracking and the extraction of the content. *)
Definition first_attempt (messages : list (string * string))
    (model_name : string) (json_mode : bool) : M GroqProvider string :=
  response <- _make_request messages model_name json_mode;;
  track_usage response;;;
  lift (extract_content response).

(** The body of the inner [try], entered after a rate-limit error. *)
Definition retry_attempt (messages : list (string * string))
    (model_name : string) (json_mode : bool) : M GroqProvider string :=
  response <- _make_request messages model_name json_mode;;
  lift (extract_content response).

(** The loop of [complete] over [models_to_try]. *)
Fixpoint try_models (messages : list (string * string)) (json_mode : bool)
    (models_to_try : list string) (last_error : option exn)
  : M GroqProvider string :=
  match models_to_try with
  | [] =>
      raise (GroqAPIError
               ("All models failed. Last error: " ++ format_last_error last_error)
               None)
  | model_name :: rest =>
      try_except (first_attempt messages model_name json_mode)
        (fun e =>
           if is_rate_limit e then
             sleep (PInt 2);;;
             try_except (retry_attempt messages model_name json_mode)
               (fun e' => try_models messages json_mode rest (Some e'))
           else try_models messages json_mode rest (Some e))
  end.

Definition build_messages (prompt : string) (system_prompt : option string)
  : list (string * string) :=
  (match system_prompt with
   | Some s => if Str.truthy s then [("system", s)] else []
   | None => []
   end) ++ [("user", prompt)].

Definition models_to_try (cfg : GroqConfig) (use_fallback : bool) : list string :=
  model cfg ::
    (if use_fallback && negb (String.eqb (fallback_model cfg) (model cfg))
     then [fallback_model cfg] else []).

Definition complete (prompt : string) (system_prompt : option string)
    (json_mode use_fallback : bool) : M GroqProvider string :=
  p <- get_self;;
  try_models (build_messages prompt system_prompt) json_mode
             (models_to_try (config p) use_fallback) None.

Definition complete_json (prompt : string) (system_prompt : option string)
  : M GroqProvider json :=
  response <- complete prompt system_prompt true true;;
  match json_loads response with
  | Some j => ret j
  | None =>
      let start := Str.find "{" response in
      let end_ := Str.rfind "}" response + 1 in
      let failure :=
        raise (GroqAPIError
                 ("Failed to parse JSON response: "
                  ++ Str.prefix 200 response ++ "...") None) in
      if negb (start =? -1) && (end_ >? start) then
        match json_loads (Str.slice start end_ response) with
        | Some j => ret j
        | None => failure
        end
      else failure
  end.

(** [GroqProvider.get_stats] *)
Definition provider_get_stats (p : GroqProvider) : list (string * json) :=
  [("total_tokens", json_of_pynum (_total_tokens_used p));
   ("requests", JInt (_request_count p));
   ("model", JStr (model (config p)))].

End Provider.

(** ** The result cache ([core/analyzer.py]) *)

Definition set_cache (d : gmap string (CodeComplexityResult * Z))
    (c : AnalysisCache) : AnalysisCache :=
  {| _cache := d; _ttl := _ttl c |}.

(** [timedelta(minutes=n)] in microseconds. *)
Definition minutes (n : Z) : Z := n * 60000000.

(** [AnalysisCache.__init__] *)
Definition AnalysisCache_init (ttl_minutes : Z) : AnalysisCache :=
  {| _cache := ∅; _ttl := minutes ttl_minutes |}.

Section Cache.

Context `{RT : Runtime} (E : Env).

Definition _hash_code (code : string) : string :=
  Str.prefix 16 (sha256_hexdigest code).

(** [AnalysisCache.get] *)
Definition cache_get (code : string)
  : M AnalysisCache (option CodeComplexityResult) :=
  c <- get_self;;
  let key := _hash_code code in
  match _cache c !! key with
  | Some (result, timestamp) =>
      now <- datetime_now E;;
      if now - timestamp <? _ttl c then ret (Some result)
      else
        put_self (set_cache (delete key (_cache c)) c);;;
        ret None
  | None => ret None
  end.

(** [AnalysisCache.set] *)
Definition cache_set (code : string) (result : CodeComplexityResult)
  : M AnalysisCache unit :=
  let key := _hash_code code in
  now <- datetime_now E;;
  c <- get_self;;
  put_self (set_cache (<[key := (result, now)]> (_cache c)) c).

(** [AnalysisCache.clear] *)
Definition cache_clear : M AnalysisCache unit :=
  c <- get_self;;
  put_self (set_cache ∅ c).

End Cache.

(** ** Building the result from the model's answer *)

Section ParseResult.

Context `{RT : Runtime}.

(** Validation of a field of type [str], [int], [Optional[T]],
    [dict[str, str]] and [list[str]]. *)
Definition validate_str (v : json) : option string :=
  match v with JStr s => Some s | _ => coerce_str v end.

Definition validate_int (v : json) : option Z :=
  match v with JInt n => Some n | _ => coerce_int v end.

Definition validate_optional {A} (f : json -> option A) (v : json)
  : option (option A) :=
  match v with JNone => Some None | _ => Some <$> f v end.

Definition validate_str_dict (v : json) : option (list (string * string)) :=
  match v with
  | JDict d => mapM (fun kv => pair (fst kv) <$> validate_str (snd kv)) d
  | _ => None
  end.

Definition validate_str_list (v : json) : option (list string) :=
  match v with
  | JList l => mapM validate_str l
  | _ => None
  end.

(** A [float] field with [ge=0.0, le=1.0]. *)
Definition validate_unit_float (v : json) : option float :=
  f ← match v with JFloat f => Some f | _ => coerce_float v end;
  if ((0 <=? f) && (f <=? 1))%float then Some f else None.

(** [FunctionComplexity(name=..., ...)] *)
Definition FunctionComplexity_init
    (name_ time_ space_ explanation_ line_start_ line_end_ variables_
     best_ worst_ average_ : json) : outcome FunctionComplexity :=
  match
    n ← validate_str name_;
    t ← validate_str time_;
    s ← validate_str space_;
    x ← validate_str explanation_;
    ls ← validate_optional validate_int line_start_;
    le ← validate_optional validate_int line_end_;
    vs ← validate_optional validate_str_dict variables_;
    b ← validate_optional validate_str best_;
    w ← validate_optional validate_str worst_;
    a ← validate_optional validate_str average_;
    Some {| name := n; time_complexity := t; space_complexity := s;
            explanation := x; line_start := ls; line_end := le;
            variables := vs; best_case := b; worst_case := w;
            average_case := a |}
  with
  | Some f => Ok f
  | None => Raise (ValidationError "FunctionComplexity")
  end.

(** The body of the [try] in the loop of [_parse_result]. *)
Definition parse_function (func_data : json) : outcome FunctionComplexity :=
  name_ ← py_get func_data "name" (JStr "unknown");
  time_ ← py_get func_data "time_complexity" (JStr "Unknown");
  space_ ← py_get func_data "space_complexity" (JStr "Unknown");
  explanation_ ← py_get func_data "explanation" (JStr "");
  line_start_ ← py_get func_data "line_start" JNone;
  line_end_ ← py_get func_data "line_end" JNone;
  variables_ ← py_get func_data "variables" JNone;
  best_ ← py_get func_data "best_case" JNone;
  worst_ ← py_get func_data "worst_case" JNone;
  average_ ← py_get func_data "average_case" JNone;
  FunctionComplexity_init name_ time_ space_ explanation_ line_start_
    line_end_ variables_ best_ worst_ average_.

(** The items a [for] loop draws from a value. *)
Definition py_iter (v : json) : outcome (list json) :=
  match v with
  | JList l => Ok l
  | JStr s =>
      Ok (map (fun c => JStr (String c EmptyString)) (list_ascii_of_string s))
  | JDict d => Ok (map (fun kv => JStr (fst kv)) d)
  | _ => Raise (TypeError "object is not iterable" v)
  end.

(** One turn of the loop: [functions.append(func)], or [continue] when the
    construction raised. *)
Definition parse_step (functions_ : list FunctionComplexity) (func_data : json)
  : list FunctionComplexity :=
  match parse_function func_data with
  | Ok func => functions_ ++ [func]
  | Raise _ => functions_
  end.

(** [max(0.0, v)]: [v] when [v > 0.0], else [0.0]. *)
Definition py_max_0 (v : json) : outcome json :=
  match v with
  | JFloat f => Ok (if (0 <? f)%float then v else JFloat 0)
  | JInt n => Ok (if 0 <? n then v else JFloat 0)
  | JBool b => Ok (if b then v else JFloat 0)
  | _ => Raise (TypeError "'>' not supported" v)
  end.

(** [min(1.0, v)]: [v] when [v < 1.0], else [1.0]. *)
Definition py_min_1 (v : json) : outcome json :=
  match v with
  | JFloat f => Ok (if (f <? 1)%float then v else JFloat 1)
  | JInt n => Ok (if n <? 1 then v else JFloat 1)
  | JBool b => Ok (if negb b then v else JFloat 1)
  | _ => Raise (TypeError "'<' not supported" v)
  end.

(** [CodeComplexityResult(language=..., ...)] *)
Definition CodeComplexityResult_init
    (language_ time_ space_ summary_ detailed_ : json)
    (functions_ : list FunctionComplexity)
    (suggestions_ confidence_ : json) : outcome CodeComplexityResult :=
  match
    l ← validate_str language_;
    t ← validate_str time_;
    s ← validate_str space_;
    m ← validate_str summary_;
    d ← validate_str detailed_;
    o ← validate_str_list suggestions_;
    c ← validate_unit_float confidence_;
    Some {| language := l; overall_time_complexity := t;
            overall_space_complexity := s; summary := m;
            detailed_explanation := d; functions := functions_;
            optimization_suggestions := o; confidence_score := c |}
  with
  | Some r => Ok r
  | None => Raise (ValidationError "CodeComplexityResult")
  end.

Definition _parse_result (response : json) : outcome CodeComplexityResult :=
  listed ← py_get response "functions" (JList []);
  items ← py_iter listed;
  let functions_ := fold_left parse_step items [] in
  language_ ← py_get response "language" (JStr "Unknown");
  time_ ← py_get response "overall_time_complexity" (JStr "Unknown");
  space_ ← py_get response "overall_space_complexity" (JStr "Unknown");
  summary_ ← py_get response "summary" (JStr "Analysis completed");
  detailed_ ← py_get response "detailed_explanation" (JStr "");
  suggestions_ ← py_get response "optimization_suggestions" (JList []);
  score ← py_get response "confidence_score" (JFloat 0.8);
  raised ← py_max_0 score;
  confidence_ ← py_min_1 raised;
  CodeComplexityResult_init language_ time_ space_ summary_ detailed_
    functions_ suggestions_ confidence_.

End ParseResult.

(** ** The prompt builder ([core/prompts.py])

    The templates are the text of the source; a double quote is written
    [Str.dq], a quoted word [Str.quoted] and a character beyond ASCII
    [Str.chr] of its code point. *)

Module PromptBuilder.

Definition SYSTEM_PROMPT : string :=
  "You are an expert computer scientist and algorithm analyst specializing in computational complexity theory.

Your task is to analyze code and determine its time and space complexity using Big-O notation.

## Your Expertise Includes:
- Algorithm analysis and complexity theory
- Data structure operations and their complexities
- Loop analysis (nested, dependent, independent)
- Recursive algorithm analysis (Master theorem, recurrence relations)
- Amortized analysis
- Space complexity including auxiliary and input space

## Analysis Guidelines:
1. **Identify Variables**: Clearly define what n represents (array length, input size, etc.)
2. **Loop Analysis**: 
   - Single loop over n elements: O(n)
   - Nested loops: Multiply complexities
   - Loops with logarithmic increments (i*=2): O(log n)
3. **Recursive Analysis**:
   - Identify recurrence relation
   - Apply Master theorem when applicable
4. **Space Analysis**:
   - Count auxiliary data structures
   - Consider recursion stack depth
   - Note if space is input-dependent

## Big-O Classes (from best to worst):
- O(1): Constant - hash table lookup, array access
- O(log n): Logarithmic - binary search
- O(n): Linear - single loop, linear search  
- O(n log n): Linearithmic - merge sort, heap sort
- O(n" ++ Str.chr 178
  ++ "): Quadratic - nested loops, bubble sort
- O(n" ++ Str.chr 179
  ++ "): Cubic - triple nested loops
- O(2^n): Exponential - recursive fibonacci without memoization
- O(n!): Factorial - permutation generation

Always provide your analysis in the exact JSON format requested.".

Definition build_analysis_prompt (code : string)
    (options : option AnalysisOptions) : string :=
  let options := match options with Some o => o | None => default_options end in
  let language_context :=
    match language_hint options with
    | Some hint =>
        if Str.truthy hint then
          "
The code is written in " ++ hint ++ "."
        else ""
    | None => ""
    end in
  let functions_instruction :=
    if analyze_functions options then
      "
- For EACH function/method in the code, provide individual analysis in the "
      ++ Str.quoted "functions"
      ++ " array
- Include function name, its specific time/space complexity, and explanation"
    else "" in
  let suggestions_instruction :=
    if include_suggestions options then
      "
- Provide practical optimization suggestions if the complexity can be improved"
    else "" in
  let case_analysis :=
    if include_best_worst_case options then
      "
- For each function, include best_case, worst_case, and average_case complexity when they differ"
    else "" in
  "Analyze the following code and determine its time and space complexity.
" ++ language_context
  ++ "

## Code to Analyze:
```
" ++ code
  ++ "
```

## Required Analysis:
1. Detect the programming language
2. Determine the overall time complexity (Big-O notation)
3. Determine the overall space complexity (Big-O notation)  
4. Provide a clear summary of the analysis
5. Give a detailed explanation of how you arrived at the complexity
" ++ functions_instruction
  ++ "
" ++ suggestions_instruction
  ++ "
" ++ case_analysis
  ++ "

## Response Format (JSON):
Return your analysis as a JSON object with this exact structure:

{
    " ++ Str.quoted "language" ++ ": "
  ++ Str.quoted "detected programming language"
  ++ ",
    " ++ Str.quoted "overall_time_complexity" ++ ": " ++ Str.quoted "O(...)"
  ++ ",
    " ++ Str.quoted "overall_space_complexity" ++ ": "
  ++ Str.quoted "O(...)"
  ++ ",
    " ++ Str.quoted "summary" ++ ": "
  ++ Str.quoted "Brief 1-2 sentence summary"
  ++ ",
    " ++ Str.quoted "detailed_explanation" ++ ": "
  ++ Str.quoted "Detailed step-by-step analysis explaining how you determined the complexity. Include variable definitions, loop analysis, and any relevant observations."
  ++ ",
    " ++ Str.quoted "functions"
  ++ ": [
        {
            " ++ Str.quoted "name" ++ ": " ++ Str.quoted "function_name"
  ++ ",
            " ++ Str.quoted "time_complexity" ++ ": " ++ Str.quoted "O(...)"
  ++ ",
            " ++ Str.quoted "space_complexity" ++ ": "
  ++ Str.quoted "O(...)"
  ++ ", 
            " ++ Str.quoted "explanation" ++ ": "
  ++ Str.quoted "Why this function has this complexity"
  ++ ",
            " ++ Str.quoted "line_start"
  ++ ": 1,
            " ++ Str.quoted "line_end"
  ++ ": 10,
            " ++ Str.quoted "variables" ++ ": {" ++ Str.quoted "n" ++ ": "
  ++ Str.quoted "length of input array"
  ++ "},
            " ++ Str.quoted "best_case" ++ ": "
  ++ Str.quoted "O(...) if different"
  ++ ",
            " ++ Str.quoted "worst_case" ++ ": "
  ++ Str.quoted "O(...) if different"
  ++ ",
            " ++ Str.quoted "average_case" ++ ": "
  ++ Str.quoted "O(...) if different"
  ++ "
        }
    ],
    " ++ Str.quoted "optimization_suggestions"
  ++ ": [
        " ++ Str.quoted "Specific suggestion 1"
  ++ ",
        " ++ Str.quoted "Specific suggestion 2"
  ++ "
    ],
    " ++ Str.quoted "confidence_score"
  ++ ": 0.95
}

Important:
- Use standard Big-O notation (O(1), O(n), O(n" ++ Str.chr 178
  ++ "), O(log n), O(n log n), etc.)
- Be precise - if it's O(n+m), say so; if it's O(n*m), say that
- The confidence_score should reflect how certain you are (0.0 to 1.0)
- If multiple complexities exist (branching), give the worst case as overall
- Consider both auxiliary space and input space for space complexity

Respond ONLY with valid JSON, no additional text.".

Definition build_quick_analysis_prompt (code : string) : string :=
  "Quickly analyze this code's complexity:

```
" ++ code
  ++ "
```

Respond with JSON:
{
    " ++ Str.quoted "language" ++ ": " ++ Str.quoted "language name"
  ++ ",
    " ++ Str.quoted "overall_time_complexity" ++ ": " ++ Str.quoted "O(...)"
  ++ ",
    " ++ Str.quoted "overall_space_complexity" ++ ": "
  ++ Str.quoted "O(...)"
  ++ ",
    " ++ Str.quoted "summary" ++ ": " ++ Str.quoted "Brief explanation"
  ++ ",
    " ++ Str.quoted "detailed_explanation" ++ ": "
  ++ Str.quoted "How you determined this"
  ++ ",
    " ++ Str.quoted "functions"
  ++ ": [],
    " ++ Str.quoted "optimization_suggestions"
  ++ ": [],
    " ++ Str.quoted "confidence_score"
  ++ ": 0.8
}

Be concise but accurate. JSON only.".

End PromptBuilder.

(** ** The analyzer facade ([core/analyzer.py]) *)

Definition set_provider (p : option GroqProvider) (a : CodeComplexityAnalyzer)
  : CodeComplexityAnalyzer :=
  {| _groq_config := _groq_config a; _provider := p;
     _analysis_cache := _analysis_cache a |}.

Definition set_analysis_cache (c : option AnalysisCache)
    (a : CodeComplexityAnalyzer) : CodeComplexityAnalyzer :=
  {| _groq_config := _groq_config a; _provider := _provider a;
     _analysis_cache := c |}.

(** [CodeComplexityAnalyzer.__init__] *)
Definition CodeComplexityAnalyzer_init (groq_config : option GroqConfig)
    (cache_enabled : bool) (cache_ttl_minutes : Z) : CodeComplexityAnalyzer :=
  {| _groq_config := groq_config;
     _provider := None;
     _analysis_cache :=
       if cache_enabled then Some (AnalysisCache_init cache_ttl_minutes)
       else None |}.

(** The table of [analyze_file]. *)
Definition ext_to_lang : list (string * string) :=
  [(".py", "Python"); (".js", "JavaScript"); (".ts", "TypeScript");
   (".java", "Java"); (".cpp", "C++"); (".c", "C"); (".go", "Go");
   (".rs", "Rust"); (".rb", "Ruby"); (".php", "PHP"); (".swift", "Swift");
   (".kt", "Kotlin"); (".cs", "C#"); (".scala", "Scala"); (".r", "R");
   (".m", "MATLAB"); (".jl", "Julia"); (".lua", "Lua"); (".pl", "Perl");
   (".sh", "Shell"); (".sql", "SQL")].

(** [ext_to_lang.get(ext)] *)
Fixpoint table_get (ext : string) (table : list (string * string))
  : option string :=
  match table with
  | [] => None
  | (k, v) :: table' => if String.eqb ext k then Some v else table_get ext table'
  end.

(** [Path(p).name] and [Path(p).suffix] of a path written with [/], for a
    path whose last component is not empty. *)
Definition path_name (p : string) : string :=
  Str.slice (Str.rfind "/" p + 1) (Z.of_nat (String.length p)) p.

Definition path_suffix (p : string) : string :=
  let nm := path_name p in
  let i := Str.rfind "." nm in
  if (0 <? i) && (i <? Z.of_nat (String.length nm) - 1)
  then Str.slice i (Z.of_nat (String.length nm)) nm
  else "".

(** An item of the list [analyze_batch] returns. *)
Inductive batch_item : Type :=
| Analysed (result : CodeComplexityResult)
| Failed (error : AnalysisError).

Section Analyzer.

Context `{RT : Runtime} (E : Env).

Definition _get_provider : M CodeComplexityAnalyzer GroqProvider :=
  a <- get_self;;
  match _provider a with
  | Some p => ret p
  | None =>
      p <- lift (GroqProvider_init E (_groq_config a));;
      put_self (set_provider (Some p) a);;;
      ret p
  end.

(** A call of a method of the provider the facade holds. *)
Definition on_provider {A} (p : GroqProvider) (m : M GroqProvider A)
  : M CodeComplexityAnalyzer A :=
  call p (fun p' a => set_provider (Some p') a) m.

(** A call of a method of the cache the facade holds. *)
Definition on_cache {A} (c : AnalysisCache) (m : M AnalysisCache A)
  : M CodeComplexityAnalyzer A :=
  call c (fun c' a => set_analysis_cache (Some c') a) m.

(** [if self._cache: cached = self._cache.get(code)] *)
Definition check_cache (code : string)
  : M CodeComplexityAnalyzer (option CodeComplexityResult) :=
  a <- get_self;;
  match _analysis_cache a with
  | Some c => on_cache c (cache_get E code)
  | None => ret None
  end.

(** [if self._cache: self._cache.set(code, result)] *)
Definition store_cache (code : string) (result : CodeComplexityResult)
  : M CodeComplexityAnalyzer unit :=
  a <- get_self;;
  match _analysis_cache a with
  | Some c => on_cache c (cache_set E code result)
  | None => ret tt
  end.

(** [not code or not code.strip()] *)
Definition is_blank (code : string) : bool :=
  negb (Str.truthy code) || negb (Str.truthy (Str.strip code)).

Definition analyze (code : string) (options : option AnalysisOptions)
  : M CodeComplexityAnalyzer CodeComplexityResult :=
  if is_blank code then raise (ValueError "Code cannot be empty")
  else
    let code := Str.strip code in
    cached <- check_cache code;;
    match cached with
    | Some result => ret result
    | None =>
        let options :=
          match options with Some o => o | None => default_options end in
        let prompt :=
          PromptBuilder.build_analysis_prompt code (Some options) in
        provider <- _get_provider;;
        try_except
          (response <- on_provider provider
             (complete_json E prompt (Some PromptBuilder.SYSTEM_PROMPT));;
           result <- lift (_parse_result response);;
           store_cache code result;;;
           ret result)
          (fun e =>
             match e with
             | JSONDecodeError =>
                 raise (GroqAPIError
                          ("Failed to parse analysis response: " ++ exn_str e)
                          None)
             | _ => raise e
             end)
    end.

Definition analyze_quick (code : string)
  : M CodeComplexityAnalyzer CodeComplexityResult :=
  if is_blank code then raise (ValueError "Code cannot be empty")
  else
    let code := Str.strip code in
    cached <- check_cache code;;
    match cached with
    | Some result => ret result
    | None =>
        let prompt := PromptBuilder.build_quick_analysis_prompt code in
        provider <- _get_provider;;
        response <- on_provider provider
          (complete_json E prompt
             (Some "You are an algorithm complexity analyst. Respond with JSON only."));;
        result <- lift (_parse_result response);;
        store_cache code result;;;
        ret result
    end.

(** The caller's options object, by its index in the heap.  An index
    beyond the heap stands for no object; no caller can pass one. *)
Definition deref (r : nat) : M CodeComplexityAnalyzer AnalysisOptions :=
  fun w => match heap w !! r with
           | Some o => (Ok o, w)
           | None => (Raise (AttributeError JNone "language_hint"), w)
           end.

(** [AnalysisOptions()]: a new object. *)
Definition alloc (o : AnalysisOptions) : M CodeComplexityAnalyzer nat :=
  fun w => (Ok (length (heap w)), World (self w) (heap w ++ [o]) (trace w)).

(** An assignment to an attribute of the object at [r]. *)
Definition assign (r : nat) (o : AnalysisOptions) : M CodeComplexityAnalyzer unit :=
  fun w => (Ok tt, World (self w) (<[r := o]> (heap w)) (trace w)).

(** [not options.language_hint] *)
Definition hint_unset (o : AnalysisOptions) : bool :=
  match language_hint o with
  | Some hint => negb (Str.truthy hint)
  | None => true
  end.

Definition analyze_file (file_path : string) (options : option nat)
  : M CodeComplexityAnalyzer CodeComplexityResult :=
  match file_system E file_path with
  | None => raise (FileNotFoundError ("File not found: " ++ file_path))
  | Some Directory => raise (ValueError ("Not a file: " ++ file_path))
  | Some (RegularFile None) => raise UnicodeDecodeError
  | Some (RegularFile (Some code)) =>
      r <- match options with
           | Some r => ret r
           | None => alloc default_options
           end;;
      o <- deref r;;
      (if hint_unset o then
         assign r (set_language_hint
                     (table_get (Str.lower (path_suffix file_path)) ext_to_lang)
                     o)
       else ret tt);;;
      o' <- deref r;;
      analyze code (Some o')
  end.

(** One turn of the loop of [analyze_batch]. *)
Definition batch_step (options : option AnalysisOptions)
    (results : list batch_item) (code : string)
  : M CodeComplexityAnalyzer (list batch_item) :=
  results' <-
    try_except
      (result <- analyze code options;;
       ret (results ++ [Analysed result])%list)
      (fun e =>
         ret (results ++
              [Failed {| error_type := exn_name e;
                         message := exn_str e;
                         recoverable := true |}])%list);;
  sleep (PFloat 0.5);;;
  ret results'.

Fixpoint batch_loop (options : option AnalysisOptions)
    (code_snippets : list string) (results : list batch_item)
  : M CodeComplexityAnalyzer (list batch_item) :=
  match code_snippets with
  | [] => ret results
  | code :: rest =>
      results' <- batch_step options results code;;
      batch_loop options rest results'
  end.

Definition analyze_batch (code_snippets : list string)
    (options : option AnalysisOptions)
  : M CodeComplexityAnalyzer (list batch_item) :=
  batch_loop options code_snippets [].

(** [CodeComplexityAnalyzer.get_stats] *)
Definition get_stats (a : CodeComplexityAnalyzer) : list (string * json) :=
  ("cache_enabled", JBool (bool_decide (is_Some (_analysis_cache a))))
  :: match _provider a with
     | Some p => provider_get_stats p
     | None => []
     end.

End Analyzer.

(** ** The rest of the code

    The two other prompts of [core/prompts.py], [close] of the provider and
    of the facade and [compare]; then the wrapping of text of the
    formatters, the file utilities, the complexity classes of the models and
    the two entry points of the command line. *)

(** [PromptBuilder.build_function_extraction_prompt] *)
Definition build_function_extraction_prompt (code : string) : string :=
  "Extract all functions/methods from this code:

```
" ++ code
  ++ "
```

Respond with JSON:
{
    " ++ Str.quoted "language" ++ ": " ++ Str.quoted "detected language"
  ++ ",
    " ++ Str.quoted "functions"
  ++ ": [
        {
            " ++ Str.quoted "name" ++ ": " ++ Str.quoted "function_name"
  ++ ",
            " ++ Str.quoted "line_start"
  ++ ": 1,
            " ++ Str.quoted "line_end"
  ++ ": 10,
            " ++ Str.quoted "code" ++ ": " ++ Str.quoted "the function code"
  ++ "
        }
    ]
}

JSON only.".

(** [PromptBuilder.build_comparison_prompt] *)
Definition build_comparison_prompt (code1 code2 : string) : string :=
  "Compare the complexity of these two code implementations:

## Code A:
```
" ++ code1
  ++ "
```

## Code B:
```
" ++ code2
  ++ "
```

Respond with JSON:
{
    " ++ Str.quoted "code_a"
  ++ ": {
        " ++ Str.quoted "time_complexity" ++ ": " ++ Str.quoted "O(...)"
  ++ ",
        " ++ Str.quoted "space_complexity" ++ ": " ++ Str.quoted "O(...)"
  ++ "
    },
    " ++ Str.quoted "code_b"
  ++ ": {
        " ++ Str.quoted "time_complexity" ++ ": " ++ Str.quoted "O(...)"
  ++ ",
        " ++ Str.quoted "space_complexity" ++ ": " ++ Str.quoted "O(...)"
  ++ "
    },
    " ++ Str.quoted "comparison" ++ ": "
  ++ Str.quoted "Which is better and why"
  ++ ",
    " ++ Str.quoted "winner" ++ ": " ++ Str.quoted "A or B or tie"
  ++ ",
    " ++ Str.quoted "recommendation" ++ ": "
  ++ Str.quoted "Which to use in what scenarios"
  ++ "
}

JSON only.".

(** [GroqProvider.close] *)
Definition provider_close : M GroqProvider unit :=
  p <- get_self;;
  match _client p with
  | Some c =>
      if negb (is_closed c)
      then put_self (set_client {| is_closed := true |} p)
      else ret tt
  | None => ret tt
  end.

(** [CodeComplexityAnalyzer.close] *)
Definition close : M CodeComplexityAnalyzer unit :=
  a <- get_self;;
  match _provider a with
  | Some p =>
      on_provider p provider_close;;;
      a' <- get_self;;
      put_self (set_provider None a')
  | None => ret tt
  end.

(** [CodeComplexityAnalyzer.compare] *)
Definition compare `{RT : Runtime} (E : Env) (code1 code2 : string)
  : M CodeComplexityAnalyzer json :=
  let prompt := build_comparison_prompt code1 code2 in
  provider <- _get_provider E;;
  on_provider provider
    (complete_json E prompt
       (Some "You are an algorithm complexity analyst. Compare the two implementations. JSON only.")).

(** [try: m  finally: f], and [async with] for a context that runs [f] on
    exit and lets exceptions through. *)
Definition try_finally {O A} (m : M O A) (f : M O unit) : M O A :=
  fun w => match m w with
           | (r, w1) =>
               match f w1 with
               | (Ok _, w2) => (r, w2)
               | (Raise e, w2) => (Raise e, w2)
               end
           end.

(** ** Wrapping of text ([utils/formatters.py]) *)

(** [s.split()]: the maximal runs of characters that are not white space. *)
Definition starts_word (s : string) : bool :=
  match s with
  | EmptyString => false
  | String c _ => negb (Str.isspace c)
  end.

Fixpoint py_split (s : string) : list string :=
  match s with
  | EmptyString => []
  | String c s' =>
      if Str.isspace c then py_split s'
      else if starts_word s' then
        match py_split s' with
        | word :: words => String c word :: words
        | [] => [String c EmptyString]
        end
      else String c EmptyString :: py_split s'
  end.

(** [sep.join(items)] *)
Fixpoint py_join (sep : string) (items : list string) : string :=
  match items with
  | [] => EmptyString
  | [item] => item
  | item :: items' => item ++ sep ++ py_join sep items'
  end.

Definition py_len (s : string) : Z := Z.of_nat (String.length s).

(** [if current_line: lines.append(" ".join(current_line))] *)
Definition flush (lines current_line : list string) : list string :=
  match current_line with
  | [] => lines
  | _ => lines ++ [py_join " " current_line]
  end.

(** The loop of [_wrap_text] over the words. *)
Fixpoint wrap_loop (width : Z) (words lines current_line : list string)
    (current_length : Z) : list string * list string :=
  match words with
  | [] => (lines, current_line)
  | word :: words' =>
      if current_length + py_len word + 1 <=? width then
        wrap_loop width words' lines (current_line ++ [word])
          (current_length + py_len word + 1)
      else
        wrap_loop width words' (flush lines current_line) [word] (py_len word)
  end.

Definition _wrap_text (text : string) (width : Z) : list string :=
  let '(lines, current_line) := wrap_loop width (py_split text) [] [] 0 in
  match flush lines current_line with
  | [] => [EmptyString]
  | lines => lines
  end.

(** ** Languages by file name ([utils/file_utils.py]) *)

Module FileUtils.

Definition EXTENSION_MAP : list (string * string) :=
  [(".py", "Python"); (".js", "JavaScript"); (".jsx", "JavaScript (React)");
   (".ts", "TypeScript"); (".tsx", "TypeScript (React)"); (".java", "Java");
   (".cpp", "C++"); (".cc", "C++"); (".cxx", "C++"); (".c", "C");
   (".h", "C/C++ Header"); (".hpp", "C++ Header"); (".go", "Go");
   (".rs", "Rust"); (".rb", "Ruby"); (".php", "PHP"); (".swift", "Swift");
   (".kt", "Kotlin"); (".kts", "Kotlin Script"); (".cs", "C#");
   (".scala", "Scala"); (".r", "R"); (".R", "R");
   (".m", "MATLAB/Objective-C"); (".mm", "Objective-C++"); (".jl", "Julia");
   (".lua", "Lua"); (".pl", "Perl"); (".pm", "Perl Module");
   (".sh", "Shell/Bash"); (".bash", "Bash"); (".zsh", "Zsh");
   (".fish", "Fish"); (".sql", "SQL"); (".psql", "PostgreSQL");
   (".mysql", "MySQL"); (".json", "JSON"); (".yaml", "YAML");
   (".yml", "YAML"); (".toml", "TOML"); (".xml", "XML"); (".html", "HTML");
   (".htm", "HTML"); (".css", "CSS"); (".scss", "SCSS"); (".sass", "Sass");
   (".less", "Less"); (".hs", "Haskell"); (".ml", "OCaml");
   (".mli", "OCaml Interface"); (".fs", "F#"); (".fsx", "F# Script");
   (".clj", "Clojure"); (".cljs", "ClojureScript"); (".ex", "Elixir");
   (".exs", "Elixir Script"); (".erl", "Erlang"); (".elm", "Elm");
   (".asm", "Assembly"); (".s", "Assembly"); (".v", "Verilog");
   (".vhd", "VHDL"); (".vhdl", "VHDL"); (".dart", "Dart");
   (".groovy", "Groovy"); (".gradle", "Gradle"); (".cmake", "CMake");
   (".make", "Makefile"); (".dockerfile", "Dockerfile"); (".tf", "Terraform");
   (".proto", "Protocol Buffers"); (".graphql", "GraphQL");
   (".gql", "GraphQL"); (".vue", "Vue"); (".svelte", "Svelte");
   (".sol", "Solidity"); (".move", "Move"); (".zig", "Zig"); (".nim", "Nim");
   (".cr", "Crystal"); (".d", "D"); (".pas", "Pascal"); (".pp", "Pascal");
   (".f90", "Fortran"); (".f95", "Fortran"); (".f03", "Fortran");
   (".cob", "COBOL"); (".cbl", "COBOL")].

Definition special_files : list (string * string) :=
  [("makefile", "Makefile"); ("dockerfile", "Dockerfile");
   ("gemfile", "Ruby"); ("rakefile", "Ruby"); ("vagrantfile", "Ruby");
   ("podfile", "Ruby"); ("cmakelists.txt", "CMake");
   ("build.gradle", "Gradle"); ("pom.xml", "Maven/XML");
   ("package.json", "JSON (npm)"); ("cargo.toml", "TOML (Rust)");
   ("go.mod", "Go Module"); ("requirements.txt", "Requirements");
   ("setup.py", "Python"); ("pyproject.toml", "TOML (Python)")].

(** [detect_language] *)
Definition detect_language (file_path : string) : option string :=
  let suffix := Str.lower (path_suffix file_path) in
  match table_get suffix EXTENSION_MAP with
  | Some language => Some language
  | None => table_get (Str.lower (path_name file_path)) special_files
  end.

(** The encodings [read_code_file] tries. *)
Inductive encoding : Type := Utf8 | Utf8Sig | Latin1 | Cp1252 | Ascii7.

Definition encodings : list encoding := [Utf8; Utf8Sig; Latin1; Cp1252; Ascii7].

(** The loop of [read_code_file]; [decode enc p] is
    [path.read_text(encoding=enc)] on the regular file at [p], [None] for
    [UnicodeDecodeError]. *)
Fixpoint try_encodings (decode : encoding -> string -> option string)
    (encs : list encoding) (file_path : string) : outcome string :=
  match encs with
  | [] =>
      Raise (ValueError
               ("Could not decode file with common encodings: " ++ file_path))
  | enc :: encs' =>
      match decode enc file_path with
      | Some text => Ok text
      | None => try_encodings decode encs' file_path
      end
  end.

(** [read_code_file] *)
Definition read_code_file (E : Env)
    (decode : encoding -> string -> option string) (file_path : string)
  : outcome string :=
  match file_system E file_path with
  | None => Raise (FileNotFoundError ("File not found: " ++ file_path))
  | Some Directory => Raise (ValueError ("Not a file: " ++ file_path))
  | Some (RegularFile _) => try_encodings decode encodings file_path
  end.

End FileUtils.

(** ** Complexity classes ([core/models.py]) *)









(** ** The command line ([analyze.py]) *)

Module Cli.

(** [async with CodeComplexityAnalyzer() as analyzer: m]: an analyzer of
    its own, with the default cache, closed when the block is left. *)
Definition with_analyzer {O A} (m : M CodeComplexityAnalyzer A) : M O A :=
  call (CodeComplexityAnalyzer_init None true 60) (fun _ caller => caller)
    (try_finally m close).

(** [analyze_code] *)
Definition analyze_code `{RT : Runtime} (E : Env) {O} (code : string)
    (options : AnalysisOptions) (quick : bool) : M O CodeComplexityResult :=
  with_analyzer
    (if quick then analyze_quick E code else analyze E code (Some options)).

(** [analyze_file]; the options object is given by its index in the heap. *)
Definition analyze_file `{RT : Runtime} (E : Env)
    (decode : FileUtils.encoding -> string -> option string) {O}
    (file_path : string) (options : nat) (quick : bool)
  : M O CodeComplexityResult :=
  with_analyzer
    (if quick then
       code <- lift (FileUtils.read_code_file E decode file_path);;
       analyze_quick E code
     else analyze_file E file_path (Some options)).

End Cli.

(** ** A concrete runtime and environment for the examples

    The decoder of the examples knows the texts the examples use; the digest
    is the identity; nothing is coerced.  The network answers from a script,
    one entry per POST, and the clock advances one second per event. *)

Module Demo.

(** A string as a JSON string literal: quotes escaped. *)
Fixpoint escape (s : string) : string :=
  match s with
  | EmptyString => EmptyString
  | String c s' =>
      if Ascii.eqb c (ascii_of_nat 34)
      then String (ascii_of_nat 92) (String c (escape s'))
      else String c (escape s')
  end.

(** The model's answer: a complexity and a confidence out of range. *)
Definition answer_text : string :=
  "{" ++ Str.quoted "overall_time_complexity" ++ ": " ++ Str.quoted "O(1)"
  ++ ", " ++ Str.quoted "confidence_score" ++ ": 1.5}".

Definition answer_json : json :=
  JDict [("overall_time_complexity", JStr "O(1)");
         ("confidence_score", JFloat 1.5)].

(** The same answer wrapped in prose. *)
Definition prose_text : string :=
  "Here is the analysis: " ++ answer_text ++ " Hope this helps.".

(** The body of a 200 response carrying [content], with 42 tokens used. *)
Definition body_text (content : string) : string :=
  "{" ++ Str.quoted "choices" ++ ": [{" ++ Str.quoted "message" ++ ": {"
  ++ Str.quoted "content" ++ ": " ++ Str.quoted (escape content) ++ "}}], "
  ++ Str.quoted "usage" ++ ": {" ++ Str.quoted "total_tokens" ++ ": 42}}".

Definition body_json (content : string) : json :=
  JDict [("choices", JList [JDict [("message", JDict [("content", JStr content)])]]);
         ("usage", JDict [("total_tokens", JInt 42)])].

Definition loads (text : string) : option json :=
  if String.eqb text answer_text then Some answer_json
  else if String.eqb text (body_text answer_text) then Some (body_json answer_text)
  else if String.eqb text (body_text prose_text) then Some (body_json prose_text)
  else if String.eqb text (body_text "no json here") then Some (body_json "no json here")
  else None.

#[local] Instance runtime : Runtime := {
  json_loads := loads;
  sha256_hexdigest := fun s => s;
  py_repr := fun _ => "<value>";
  lib_str := exn_name;
  coerce_str := fun _ => None;
  coerce_int := fun _ => None;
  coerce_float := fun _ => None;
}.

Definition posts (tr : list event) : nat :=
  length (List.filter is_post tr).

Definition env (script : list http_result) : Env :=
  {| http_post := fun tr _ => nth (posts tr) script NetworkDown;
     clock := fun tr => 1000000 * Z.of_nat (length tr);
     getenv_api_key := Some "key";
     file_system := fun p =>
       if String.eqb p "src/main.py" then Some (RegularFile (Some "x = 1"))
       else if String.eqb p "src/lib.rs" then Some (RegularFile (Some "fn f() {}"))
       else if String.eqb p "src" then Some Directory
       else None |}.

Definition provider : GroqProvider :=
  {| config := default_config "key"; _client := None;
     _total_tokens_used := PInt 0; _request_count := 0 |}.

(** A facade with the cache enabled and the default TTL, not yet used. *)
Definition analyzer : CodeComplexityAnalyzer :=
  CodeComplexityAnalyzer_init None true 60.

Definition start {O} (o : O) : world O := World o [] [].

(** A 200 response carrying the answer, and options with a language hint. *)
Definition ok_response : http_result := Response 200 (body_text answer_text).

Definition python_options : AnalysisOptions :=
  set_language_hint (Some "Python") default_options.

End Demo.

(** * Specifications *)

(** ** Notions the statements use *)

(** A string that is empty or made of white space only. *)
Fixpoint only_whitespace (s : string) : bool :=
  match s with
  | EmptyString => true
  | String c s' => Str.isspace c && only_whitespace s'
  end.

(** What [analyze_batch] puts in its list for one outcome of [analyze]. *)
Definition item_of `{RT : Runtime} (o : outcome CodeComplexityResult) : batch_item :=
  match o with
  | Ok result => Analysed result
  | Raise e =>
      Failed {| error_type := exn_name e; message := exn_str e;
                recoverable := true |}
  end.

(** A sequential run over the snippets: each snippet is analysed in the
    world the previous one left, its outcome becomes the item at the same
    position, and a sleep of half a second follows it. *)
Inductive batch_run `{RT : Runtime} (E : Env) (options : option AnalysisOptions)
  : list string -> world CodeComplexityAnalyzer -> list batch_item
    -> world CodeComplexityAnalyzer -> Prop :=
| batch_run_nil w : batch_run E options [] w [] w
| batch_run_cons code rest w o w1 items w' :
    analyze E code options w = (o, w1) ->
    batch_run E options rest (emit (Sleep (PFloat 0.5)) w1) items w' ->
    batch_run E options (code :: rest) w (item_of o :: items) w'.

(** Every candidate model is exhausted without success: starting from the
    recorded error [last] in the world [w], each model of the list fails,
    either at once with an error that is not the rate-limit error, or with
    the rate-limit error and then again on the retry that follows the sleep
    of two seconds.  The run ends in [w'] with [last'] recorded. *)
Inductive exhausted `{RT : Runtime} (E : Env) (messages : list (string * string))
    (json_mode : bool)
  : list string -> option exn -> world GroqProvider
    -> option exn -> world GroqProvider -> Prop :=
| exhausted_nil last w :
    exhausted E messages json_mode [] last w last w
| exhausted_error m rest last w e w1 last' w' :
    first_attempt E messages m json_mode w = (Raise e, w1) ->
    is_rate_limit e = false ->
    exhausted E messages json_mode rest (Some e) w1 last' w' ->
    exhausted E messages json_mode (m :: rest) last w last' w'
| exhausted_rate_limit m rest last w e w1 e' w2 last' w' :
    first_attempt E messages m json_mode w = (Raise e, w1) ->
    is_rate_limit e = true ->
    retry_attempt E messages m json_mode (emit (Sleep (PInt 2)) w1)
      = (Raise e', w2) ->
    exhausted E messages json_mode rest (Some e') w2 last' w' ->
    exhausted E messages json_mode (m :: rest) last w last' w'.

(** The request [_make_request] posts for a model, in a given world. *)
Definition payload_of (w : world GroqProvider) (messages : list (string * string))
    (model_name : string) (json_mode : bool) : request :=
  {| rq_model := model_name; rq_messages := messages;
     rq_max_tokens := max_tokens (config (self w));
     rq_temperature := temperature (config (self w));
     rq_json_object := json_mode |}.

(** The world after [_get_client]: the client is open. *)
Definition client_opened (w : world GroqProvider) : world GroqProvider :=
  match _client (self w) with
  | Some c =>
      if is_closed c
      then with_self (set_client {| is_closed := false |} (self w)) w
      else w
  | None => with_self (set_client {| is_closed := false |} (self w)) w
  end.

(** [c] occurs in [s] at index [i] and nowhere before, or nowhere after. *)
Definition first_at (c : ascii) (s : string) (i : nat) : Prop :=
  String.get i s = Some c /\ forall k, (k < i)%nat -> String.get k s <> Some c.

Definition last_at (c : ascii) (s : string) (i : nat) : Prop :=
  String.get i s = Some c /\ forall k, (i < k)%nat -> String.get k s <> Some c.

(** The text from its first opening brace to its last closing brace decodes
    to [j]. *)
Definition recoverable_span `{RT : Runtime} (text : string) (j : json) : Prop :=
  exists i k,
    first_at "{" text i /\ last_at "}" text k /\ (i <= k)%nat
    /\ json_loads (substring i (k - i + 1) text) = Some j.

(** What the loop of [_parse_result] keeps of one entry. *)
Definition kept `{RT : Runtime} (func_data : json) : option FunctionComplexity :=
  match parse_function func_data with
  | Ok func => Some func
  | Raise _ => None
  end.

(** [min(1.0, max(0.0, v))] *)
Definition clamp (v : json) : outcome json :=
  obind (py_max_0 v) py_min_1.

(** A decoded number: an [int], a [bool] or a [float]. *)
Definition is_number (v : json) : bool :=
  match v with JInt _ | JBool _ | JFloat _ => true | _ => false end.

(** The value [response.get(key, default)] yields for a dictionary. *)
Definition field (d : list (string * json)) (key : string) (default : json)
  : json :=
  match assoc key d with Some v => v | None => default end.

(** The TTL of the entry stored for [code] has elapsed at the next reading
    of the clock in the world [w]. *)
Definition ttl_elapsed `{RT : Runtime} (E : Env) (code : string)
    (w : world CodeComplexityAnalyzer) : bool :=
  match _analysis_cache (self w) with
  | Some c =>
      match _cache c !! _hash_code (Str.strip code) with
      | Some (_, timestamp) =>
          negb (clock E (trace w ++ [ReadClock]) - timestamp <? _ttl c)
      | None => false
      end
  | None => false
  end.

(** The number of requests in a trace. *)
Definition count_posts (tr : list event) : nat := length (List.filter is_post tr).

(** A failure of the transport, which [_make_request] tries again. *)
Definition is_transient_result (r : http_result) : bool :=
  match r with TimedOut | NetworkDown => true | _ => false end.

(** What [_make_request] makes of the answer to the last request it
    sends. *)
Definition outcome_of_result `{RT : Runtime} (r : http_result) : outcome json :=
  match r with
  | TimedOut => Raise TimeoutException
  | NetworkDown => Raise NetworkError
  | OtherFailure => Raise HTTPError
  | Response status text =>
      if status =? 429 then
        Raise (GroqRateLimitError "Rate limit exceeded. Please wait and retry."
                 (Some 429))
      else if negb (status =? 200) then
        Raise (GroqAPIError
                 ("API error (" ++ pretty status ++ "): "
                  ++ format_value (error_detail text))
                 (Some status))
      else
        match json_loads text with
        | Some j => Ok j
        | None => Raise JSONDecodeError
        end
  end.

(** An event of a run of [complete] over the candidate models [ms]: a
    request for one of them, or a sleep. *)
Definition candidate_event (w : world GroqProvider)
    (messages : list (string * string)) (json_mode : bool) (ms : list string)
    (e : event) : Prop :=
  match e with
  | Post r => exists m, In m ms /\ r = payload_of w messages m json_mode
  | Sleep (PInt _) => True
  | Sleep (PFloat _) => False
  | ReadClock => False
  end.

(** The sleeps of a float number of seconds in a trace: the pacing sleeps
    of [analyze_batch] (the client sleeps whole seconds). *)
Definition count_pacing (tr : list event) : nat :=
  length (List.filter
            (fun e => match e with Sleep (PFloat _) => true | _ => false end)
            tr).

(** From [w] to [w'] a provider has produced the events [evs], counted at
    most [k] more requests, and kept its configuration and the heap. *)
Definition provider_run (w w' : world GroqProvider) (evs : list event) (k : Z)
  : Prop :=
  trace w' = (trace w ++ evs)%list
  /\ heap w' = heap w
  /\ config (self w') = config (self w)
  /\ _request_count (self w) <= _request_count (self w')
     <= _request_count (self w) + k.

(** A string that does not begin with white space. *)
Definition starts_clean (s : string) : bool :=
  match s with
  | EmptyString => true
  | String c _ => negb (Str.isspace c)
  end.

(** [raise e] as the handler of [analyze] re-raises it. *)
Definition rewrapped `{RT : Runtime} (e : exn) : exn :=
  match e with
  | JSONDecodeError =>
      GroqAPIError ("Failed to parse analysis response: " ++ exn_str e) None
  | _ => e
  end.

(** One analysis of the trimmed, non-blank [code] with the given prompts:
    a hit of the cache, or a miss followed by the creation of the provider,
    the request, the parsing and the storing, any of which may fail. *)
Inductive analysis `{RT : Runtime} (E : Env) (code prompt : string)
    (system_prompt : option string) (wrap : exn -> exn)
    (w : world CodeComplexityAnalyzer)
  : outcome CodeComplexityResult -> world CodeComplexityAnalyzer -> Prop :=
| analysis_hit r w' :
    check_cache E code w = (Ok (Some r), w') ->
    analysis E code prompt system_prompt wrap w (Ok r) w'
| analysis_no_provider w1 e w' :
    check_cache E code w = (Ok None, w1) ->
    _get_provider E w1 = (Raise e, w') ->
    analysis E code prompt system_prompt wrap w (Raise e) w'
| analysis_request_failed w1 p w2 e w' :
    check_cache E code w = (Ok None, w1) ->
    _get_provider E w1 = (Ok p, w2) ->
    on_provider p (complete_json E prompt system_prompt) w2 = (Raise e, w') ->
    analysis E code prompt system_prompt wrap w (Raise (wrap e)) w'
| analysis_parse_failed w1 p w2 response e w' :
    check_cache E code w = (Ok None, w1) ->
    _get_provider E w1 = (Ok p, w2) ->
    on_provider p (complete_json E prompt system_prompt) w2 = (Ok response, w') ->
    _parse_result response = Raise e ->
    analysis E code prompt system_prompt wrap w (Raise (wrap e)) w'
| analysis_stored w1 p w2 response r w3 w' :
    check_cache E code w = (Ok None, w1) ->
    _get_provider E w1 = (Ok p, w2) ->
    on_provider p (complete_json E prompt system_prompt) w2 = (Ok response, w3) ->
    _parse_result response = Ok r ->
    store_cache E code r w3 = (Ok tt, w') ->
    analysis E code prompt system_prompt wrap w (Ok r) w'.

(** From [w] to [w'] the facade has produced the events [evs] and kept the
    heap of options objects, its configuration and the TTL of its cache
    (and whether it has one). *)
Definition facade_run (w w' : world CodeComplexityAnalyzer) (evs : list event)
  : Prop :=
  trace w' = (trace w ++ evs)%list
  /\ heap w' = heap w
  /\ _groq_config (self w') = _groq_config (self w)
  /\ _ttl <$> _analysis_cache (self w') = _ttl <$> _analysis_cache (self w).

(** Every entry of the cache of [a'] is an entry of the cache of [a]. *)
Definition cache_within (a' a : CodeComplexityAnalyzer) : Prop :=
  forall c', _analysis_cache a' = Some c' ->
    exists c, _analysis_cache a = Some c
              /\ forall k v, _cache c' !! k = Some v -> _cache c !! k = Some v.

(** [c] does not occur in [s]. *)
Definition lacks (c : ascii) (s : string) : Prop :=
  forall k, String.get k s <> Some c.

(** The options the prompt of [analyze] reads. *)
Definition same_prompt_options (o o' : AnalysisOptions) : Prop :=
  analyze_functions o = analyze_functions o'
  /\ include_suggestions o = include_suggestions o'
  /\ include_best_worst_case o = include_best_worst_case o'
  /\ (language_hint o = language_hint o'
      \/ (hint_unset o = true /\ hint_unset o' = true)).

(** A word: not empty, without white space. *)
Fixpoint no_space (s : string) : bool :=
  match s with
  | EmptyString => true
  | String c s' => negb (Str.isspace c) && no_space s'
  end.

Definition is_word (s : string) : bool := Str.truthy s && no_space s.

(** [Path(p).suffix] from the name of the path. *)
Definition name_suffix (nm : string) : string :=
  let i := Str.rfind "." nm in
  if (0 <? i) && (i <? Z.of_nat (String.length nm) - 1)
  then Str.slice i (Z.of_nat (String.length nm)) nm
  else "".


(** Unfolding of the monadic combinators. *)
Ltac unfold_monad :=
  unfold bind, ret, raise, lift, try_except, get_self, put_self, call, sleep,
    datetime_now in *.

(** ** Strings *)

Lemma lstrip_only_whitespace s :
  only_whitespace (Str.lstrip s) = only_whitespace s.
Proof.
  induction s as [|c s IH]; simpl; [reflexivity|].
  destruct (Str.isspace c) eqn:Hc; simpl; [exact IH|].
  rewrite Hc. reflexivity.
Qed.

Lemma rstrip_empty s :
  Str.rstrip s = EmptyString <-> only_whitespace s = true.
Proof.
  induction s as [|c s IH]; simpl; [tauto|].
  destruct (Str.rstrip s) eqn:Hr.
  - destruct (Str.isspace c); simpl.
    + tauto.
    + split; discriminate.
  - split; [discriminate|].
    intros H. apply andb_true_iff in H as [_ H].
    apply IH in H. discriminate.
Qed.

Lemma strip_empty s :
  Str.strip s = EmptyString <-> only_whitespace s = true.
Proof.
  unfold Str.strip. rewrite rstrip_empty, lstrip_only_whitespace. tauto.
Qed.

Lemma truthy_false s : Str.truthy s = false <-> s = EmptyString.
Proof. destruct s; simpl; split; congruence. Qed.

(** ** Worlds *)

Lemma world_eta {O} (w : world O) : World (self w) (heap w) (trace w) = w.
Proof. destruct w; reflexivity. Qed.

Lemma set_analysis_cache_same a c :
  _analysis_cache a = Some c -> set_analysis_cache (Some c) a = a.
Proof. destruct a; simpl; intros ->; reflexivity. Qed.

Lemma set_cache_same c : set_cache (_cache c) c = c.
Proof. destruct c; reflexivity. Qed.

Section Facade.

Context `{RT : Runtime} (E : Env).

Lemma is_blank_only_whitespace code :
  is_blank code = only_whitespace code.
Proof.
  unfold is_blank.
  destruct (only_whitespace code) eqn:Hw.
  - apply strip_empty in Hw. rewrite Hw. simpl. apply orb_true_r.
  - apply orb_false_iff; split; apply negb_false_iff.
    + destruct code; [discriminate Hw | reflexivity].
    + destruct (Str.truthy (Str.strip code)) eqn:Ht; [reflexivity|].
      apply truthy_false, strip_empty in Ht. congruence.
Qed.

(** C7. For a code string that is empty or only white space, [analyze]
    and [analyze_quick] raise the input error and leave the world as it
    was: no event (no request, no reading of the clock by the cache) is
    added to the trace and neither the cache nor the provider changes. *)
Theorem blank_code_rejected code options (w : world CodeComplexityAnalyzer) :
  only_whitespace code = true ->
  analyze E code options w = (Raise (ValueError "Code cannot be empty"), w)
  /\ analyze_quick E code w = (Raise (ValueError "Code cannot be empty"), w).
Proof.
  intros Hw. unfold analyze, analyze_quick.
  rewrite is_blank_only_whitespace, Hw. split; reflexivity.
Qed.

Lemma batch_loop_run options snippets :
  forall acc w,
  exists items w',
    batch_loop E options snippets acc w = (Ok (acc ++ items)%list, w')
    /\ batch_run E options snippets w items w'
    /\ length items = length snippets.
Proof.
  induction snippets as [|code rest IH]; intros acc w.
  - exists [], w. simpl. rewrite app_nil_r.
    repeat split. constructor.
  - destruct (analyze E code options w) as [o w1] eqn:Ha.
    destruct (IH (acc ++ [item_of o])%list (emit (Sleep (PFloat 0.5)) w1))
      as (items & w' & Hloop & Hrun & Hlen).
    exists (item_of o :: items), w'. split; [|split].
    + cbn [batch_loop]. unfold batch_step. unfold_monad.
      rewrite Ha. destruct o as [result|e]; cbn [item_of] in Hloop |- *;
        rewrite Hloop, <- app_assoc; reflexivity.
    + econstructor; eassumption.
    + simpl. congruence.
Qed.

(** C8. [analyze_batch] never raises; it returns one item per snippet, in
    the order of the snippets: the items are those of a sequential run, in
    which every snippet is analysed in the world its predecessor left
    behind, an exception becomes an [AnalysisError] with [recoverable]
    set, and a sleep of 0.5 follows every item (so one lies between any two
    successive items, whatever the earlier one did; the code also sleeps
    after the last item). *)
Theorem analyze_batch_sequential snippets options
    (w : world CodeComplexityAnalyzer) :
  exists items w',
    analyze_batch E snippets options w = (Ok items, w')
    /\ length items = length snippets
    /\ batch_run E options snippets w items w'
    /\ (forall i code, snippets !! i = Some code ->
          exists wi,
            items !! i = Some (item_of (analyze E code options wi).1)).
Proof.
  destruct (batch_loop_run options snippets [] w)
    as (items & w' & Hloop & Hrun & Hlen).
  exists items, w'. repeat split; try assumption.
  clear Hloop Hlen. induction Hrun as [|code rest w0 o w1 items w' Ha Hrun IH].
  - intros i code Hi. rewrite lookup_nil in Hi. discriminate.
  - intros [|i] code' Hi; simpl in Hi.
    + injection Hi as <-. exists w0. rewrite Ha. reflexivity.
    + apply IH in Hi. exact Hi.
Qed.

End Facade.

Section Client.

Context `{RT : Runtime} (E : Env).

(** The first step of the loop of [complete], by the outcome of the first
    attempt. *)
Lemma try_models_cons messages json_mode m rest last (w : world GroqProvider) :
  try_models E messages json_mode (m :: rest) last w =
  match first_attempt E messages m json_mode w with
  | (Ok content, w1) => (Ok content, w1)
  | (Raise e, w1) =>
      if is_rate_limit e then
        match retry_attempt E messages m json_mode (emit (Sleep (PInt 2)) w1) with
        | (Ok content, w3) => (Ok content, w3)
        | (Raise e', w3) => try_models E messages json_mode rest (Some e') w3
        end
      else try_models E messages json_mode rest (Some e) w1
  end.
Proof.
  cbn [try_models]. unfold try_except at 1.
  destruct (first_attempt E messages m json_mode w) as [[content|e] w1];
    [reflexivity|].
  destruct (is_rate_limit e); [|reflexivity].
  unfold bind, sleep, try_except.
  destruct (retry_attempt E messages m json_mode (emit (Sleep (PInt 2)) w1))
    as [[content|e'] w3]; reflexivity.
Qed.

Lemma complete_unfold prompt system_prompt json_mode use_fallback
    (w : world GroqProvider) :
  complete E prompt system_prompt json_mode use_fallback w =
  try_models E (build_messages prompt system_prompt) json_mode
    (models_to_try (config (self w)) use_fallback) None w.
Proof. reflexivity. Qed.

Lemma models_to_try_distinct cfg :
  fallback_model cfg <> model cfg ->
  models_to_try cfg true = [model cfg; fallback_model cfg].
Proof.
  intros Hne. unfold models_to_try.
  apply String.eqb_neq in Hne. rewrite Hne. reflexivity.
Qed.

Lemma try_models_exhausted messages json_mode models last w last' w' :
  exhausted E messages json_mode models last w last' w' ->
  try_models E messages json_mode models last w =
  (Raise (GroqAPIError
            ("All models failed. Last error: " ++ format_last_error last')
            None), w').
Proof.
  induction 1 as [last w
                 | m rest last w e w1 last' w' Hfirst Hrl _ IH
                 | m rest last w e w1 e' w2 last' w' Hfirst Hrl Hretry _ IH].
  - reflexivity.
  - rewrite try_models_cons, Hfirst, Hrl. exact IH.
  - rewrite try_models_cons, Hfirst, Hrl, Hretry. exact IH.
Qed.

Lemma exhausted_records messages json_mode models last w last' w' :
  exhausted E messages json_mode models last w last' w' ->
  models <> [] -> exists e, last' = Some e.
Proof.
  induction 1 as [last w
                 | m rest last w e w1 last' w' Hfirst Hrl Hrest IH
                 | m rest last w e w1 e' w2 last' w' Hfirst Hrl Hretry Hrest IH];
    intros Hne; [congruence| |].
  - destruct rest as [|m' rest'].
    + inversion Hrest; subst. eauto.
    + apply IH. discriminate.
  - destruct rest as [|m' rest'].
    + inversion Hrest; subst. eauto.
    + apply IH. discriminate.
Qed.

(** C2. With [use_fallback] set and a fallback model distinct from the
    primary one: when the first attempt on the primary model fails with an
    error that is not the rate-limit error, the next thing [complete] does
    is one attempt on the fallback model, and when that attempt succeeds
    [complete] returns its content in the world that attempt left; and
    when every candidate model is exhausted without success, [complete]
    raises [GroqAPIError] whose message wraps the last recorded error.
    The candidates are the primary model and then the fallback model, each
    once. *)
Theorem complete_fallback prompt system_prompt json_mode
    (w : world GroqProvider) :
  let cfg := config (self w) in
  let messages := build_messages prompt system_prompt in
  fallback_model cfg <> model cfg ->
  models_to_try cfg true = [model cfg; fallback_model cfg]
  /\ (forall e w1 content w2,
      first_attempt E messages (model cfg) json_mode w = (Raise e, w1) ->
      is_rate_limit e = false ->
      first_attempt E messages (fallback_model cfg) json_mode w1
        = (Ok content, w2) ->
      complete E prompt system_prompt json_mode true w = (Ok content, w2))
  /\ (forall last w',
        exhausted E messages json_mode [model cfg; fallback_model cfg]
          None w last w' ->
        exists e,
          last = Some e
          /\ complete E prompt system_prompt json_mode true w
             = (Raise (GroqAPIError
                         ("All models failed. Last error: " ++ exn_str e)
                         None), w')).
Proof.
  intros cfg messages Hne. split; [|split].
  - apply models_to_try_distinct, Hne.
  - intros e w1 content w2 Hfirst Hrl Hfallback.
    rewrite complete_unfold. fold cfg messages.
    rewrite (models_to_try_distinct cfg Hne).
    rewrite try_models_cons, Hfirst, Hrl.
    rewrite try_models_cons, Hfallback. reflexivity.
  - intros last w' Hex.
    destruct (exhausted_records _ _ _ _ _ _ _ Hex) as [e ->]; [discriminate|].
    exists e. split; [reflexivity|].
    rewrite complete_unfold. fold cfg messages.
    rewrite (models_to_try_distinct cfg Hne).
    apply (try_models_exhausted _ _ _ _ _ _ _ Hex).
Qed.

Lemma client_opened_trace (w : world GroqProvider) :
  trace (client_opened w) = trace w.
Proof.
  unfold client_opened.
  destruct (_client (self w)) as [[[]]|]; reflexivity.
Qed.

Lemma get_client_opens (w : world GroqProvider) :
  exists c, _get_client w = (Ok c, client_opened w).
Proof.
  unfold _get_client, client_opened. unfold_monad.
  destruct (_client (self w)) as [[[]]|]; simpl; eauto.
Qed.

Lemma make_request_429 messages m json_mode (w : world GroqProvider) text :
  http_post E (trace w) (payload_of w messages m json_mode) = Response 429 text ->
  _make_request E messages m json_mode w =
  (Raise (GroqRateLimitError "Rate limit exceeded. Please wait and retry."
            (Some 429)),
   emit (Post (payload_of w messages m json_mode)) (client_opened w)).
Proof.
  intros Hpost.
  unfold _make_request. cbn [retrying]. unfold try_except.
  unfold _make_request_once. unfold bind at 1.
  destruct (get_client_opens w) as [c ->].
  unfold bind, get_self, post.
  assert (Hp : payload_of (client_opened w) messages m json_mode
               = payload_of w messages m json_mode).
  { unfold payload_of, client_opened.
    destruct (_client (self w)) as [[[]]|]; reflexivity. }
  unfold payload_of in Hp. rewrite Hp. fold (payload_of w messages m json_mode).
  rewrite client_opened_trace, Hpost. reflexivity.
Qed.

(** C3. In the loop of [complete], for any candidate model: an HTTP 429
    answer to the request makes the attempt fail with the rate-limit error
    after that single request; and when an attempt fails with the
    rate-limit error, the loop sleeps 2 and makes one more attempt on the
    same model: when it succeeds, its content is returned, and otherwise
    the loop goes on with the candidates that remain, having recorded the
    error of the retry. *)
Theorem rate_limit_retry messages json_mode model_name rest last
    (w : world GroqProvider) :
  (forall text,
      http_post E (trace w) (payload_of w messages model_name json_mode)
        = Response 429 text ->
      first_attempt E messages model_name json_mode w =
      (Raise (GroqRateLimitError "Rate limit exceeded. Please wait and retry."
                (Some 429)),
       emit (Post (payload_of w messages model_name json_mode))
            (client_opened w)))
  /\ (forall e w1,
        first_attempt E messages model_name json_mode w = (Raise e, w1) ->
        is_rate_limit e = true ->
        (forall content w3,
            retry_attempt E messages model_name json_mode
              (emit (Sleep (PInt 2)) w1) = (Ok content, w3) ->
            try_models E messages json_mode (model_name :: rest) last w
            = (Ok content, w3))
        /\ (forall e' w3,
              retry_attempt E messages model_name json_mode
                (emit (Sleep (PInt 2)) w1) = (Raise e', w3) ->
              try_models E messages json_mode (model_name :: rest) last w
              = try_models E messages json_mode rest (Some e') w3)).
Proof.
  split.
  - intros text Hpost. unfold first_attempt, bind.
    rewrite (make_request_429 _ _ _ _ _ Hpost). reflexivity.
  - intros e w1 Hfirst Hrl.
    rewrite try_models_cons, Hfirst, Hrl.
    split; intros ? w3 ->; reflexivity.
Qed.

End Client.

(** ** Searching a string *)

Lemma find_from_spec c s :
  forall off, 0 <= off ->
    (Str.find_from off c s = -1
     /\ forall k, String.get k s <> Some c)
    \/ (exists i, Str.find_from off c s = off + Z.of_nat i /\ first_at c s i).
Proof.
  induction s as [|d s IH]; intros off Hoff; simpl.
  - left. split; [reflexivity|]. intros k. simpl. discriminate.
  - destruct (Ascii.eqb c d) eqn:Hcd.
    + apply Ascii.eqb_eq in Hcd. subst d. right. exists 0%nat.
      split; [lia|]. split; [reflexivity|]. intros k Hk. lia.
    + apply Ascii.eqb_neq in Hcd.
      destruct (IH (off + 1) ltac:(lia)) as [[Hf Hnone]|(i & Hf & Hget & Hbefore)].
      * left. split; [exact Hf|].
        intros [|k]; simpl; [congruence | apply Hnone].
      * right. exists (S i). split; [lia|]. split; [exact Hget|].
        intros [|k] Hk; simpl; [congruence | apply Hbefore; lia].
Qed.

Lemma rfind_from_spec c s :
  forall off, 0 <= off ->
    (Str.rfind_from off c s = -1
     /\ forall k, String.get k s <> Some c)
    \/ (exists i, Str.rfind_from off c s = off + Z.of_nat i /\ last_at c s i).
Proof.
  induction s as [|d s IH]; intros off Hoff; simpl.
  - left. split; [reflexivity|]. intros k. simpl. discriminate.
  - destruct (IH (off + 1) ltac:(lia)) as [[Hf Hnone]|(i & Hf & Hget & Hafter)].
    + rewrite Hf. simpl.
      destruct (Ascii.eqb c d) eqn:Hcd.
      * apply Ascii.eqb_eq in Hcd. subst d. right. exists 0%nat.
        split; [lia|]. split; [reflexivity|].
        intros [|k] Hk; simpl; [lia | apply Hnone].
      * apply Ascii.eqb_neq in Hcd. left. split; [reflexivity|].
        intros [|k]; simpl; [congruence | apply Hnone].
    + rewrite Hf.
      destruct (off + 1 + Z.of_nat i =? -1) eqn:Hneg; [lia|].
      right. exists (S i). split; [lia|]. split; [exact Hget|].
      intros [|k] Hk; simpl; [lia | apply Hafter; lia].
Qed.

Lemma first_at_unique c s i i' : first_at c s i -> first_at c s i' -> i = i'.
Proof.
  intros [Hi Hbi] [Hi' Hbi'].
  destruct (Nat.lt_trichotomy i i') as [Hlt|[Heq|Hgt]]; [|exact Heq|].
  - exfalso. exact (Hbi' i Hlt Hi).
  - exfalso. exact (Hbi i' Hgt Hi').
Qed.

Lemma last_at_unique c s i i' : last_at c s i -> last_at c s i' -> i = i'.
Proof.
  intros [Hi Hai] [Hi' Hai'].
  destruct (Nat.lt_trichotomy i i') as [Hlt|[Heq|Hgt]]; [|exact Heq|].
  - exfalso. exact (Hai i' Hlt Hi').
  - exfalso. exact (Hai' i Hgt Hi).
Qed.

(** [s.find(c)] is the index of the first occurrence, and -1 when there is
    none; [s.rfind(c)] is the index of the last one. *)
Lemma find_first c s i : first_at c s i -> Str.find c s = Z.of_nat i.
Proof.
  intros Hi. unfold Str.find.
  destruct (find_from_spec c s 0 ltac:(lia)) as [[_ Hnone]|(i' & -> & Hi')].
  - destruct Hi as [Hi _]. exfalso. exact (Hnone i Hi).
  - rewrite (first_at_unique _ _ _ _ Hi Hi'). lia.
Qed.

Lemma rfind_last c s i : last_at c s i -> Str.rfind c s = Z.of_nat i.
Proof.
  intros Hi. unfold Str.rfind.
  destruct (rfind_from_spec c s 0 ltac:(lia)) as [[_ Hnone]|(i' & -> & Hi')].
  - destruct Hi as [Hi _]. exfalso. exact (Hnone i Hi).
  - rewrite (last_at_unique _ _ _ _ Hi Hi'). lia.
Qed.

Lemma find_found c s : Str.find c s <> -1 ->
  exists i, Str.find c s = Z.of_nat i /\ first_at c s i.
Proof.
  intros Hne. unfold Str.find in *.
  destruct (find_from_spec c s 0 ltac:(lia)) as [[Hf _]|(i & Hf & Hi)];
    [congruence|].
  exists i. split; [lia | exact Hi].
Qed.

Lemma rfind_found c s : Str.rfind c s <> -1 ->
  exists i, Str.rfind c s = Z.of_nat i /\ last_at c s i.
Proof.
  intros Hne. unfold Str.rfind in *.
  destruct (rfind_from_spec c s 0 ltac:(lia)) as [[Hf _]|(i & Hf & Hi)];
    [congruence|].
  exists i. split; [lia | exact Hi].
Qed.

Lemma prefix_length n s : (String.length (Str.prefix n s) <= n)%nat.
Proof.
  unfold Str.prefix. revert s.
  induction n as [|n IH]; intros [|c s]; simpl; try lia.
  specialize (IH s). lia.
Qed.

Lemma prefix_is_prefix n s : String.prefix (Str.prefix n s) s = true.
Proof.
  unfold Str.prefix. revert s.
  induction n as [|n IH]; intros [|c s]; simpl; try reflexivity.
  rewrite IH. destruct (ascii_dec c c); [reflexivity | congruence].
Qed.

Section JsonRecovery.

Context `{RT : Runtime} (E : Env).

Lemma slice_span i k text :
  (i <= k)%nat ->
  Str.slice (Z.of_nat i) (Z.of_nat k + 1) text = substring i (k - i + 1) text.
Proof. intros Hik. unfold Str.slice. f_equal; lia. Qed.

(** What [complete_json] does with the text [complete] returned. *)
Lemma complete_json_unfold prompt system_prompt (w : world GroqProvider) text w1 :
  complete E prompt system_prompt true true w = (Ok text, w1) ->
  complete_json E prompt system_prompt w =
  match json_loads text with
  | Some j => (Ok j, w1)
  | None =>
      let start := Str.find "{" text in
      let end_ := Str.rfind "}" text + 1 in
      let failure :=
        (Raise (GroqAPIError
                  ("Failed to parse JSON response: "
                   ++ Str.prefix 200 text ++ "...") None), w1) in
      if negb (start =? -1) && (end_ >? start) then
        match json_loads (Str.slice start end_ text) with
        | Some j => (Ok j, w1)
        | None => failure
        end
      else failure
  end.
Proof.
  intros Hc. unfold complete_json, bind. rewrite Hc.
  destruct (json_loads text); [reflexivity|].
  cbv zeta.
  destruct (negb (Str.find "{" text =? -1)
            && (Str.rfind "}" text + 1 >? Str.find "{" text));
    [|reflexivity].
  destruct (json_loads _); reflexivity.
Qed.

(** C4. For the text a completion returned: when it decodes as JSON,
    [complete_json] returns the decoded value; when it does not, but the
    text from its first opening brace to its last closing brace does,
    [complete_json] returns what that span decodes to; and when there is no
    such span, [complete_json] raises [GroqAPIError] whose message carries
    the first 200 characters of the text at most. *)
Theorem complete_json_recovery prompt system_prompt
    (w : world GroqProvider) text w1 :
  complete E prompt system_prompt true true w = (Ok text, w1) ->
  (forall j, json_loads text = Some j ->
     complete_json E prompt system_prompt w = (Ok j, w1))
  /\ (forall j, json_loads text = None -> recoverable_span text j ->
        complete_json E prompt system_prompt w = (Ok j, w1))
  /\ (json_loads text = None -> (forall j, ~ recoverable_span text j) ->
        complete_json E prompt system_prompt w =
        (Raise (GroqAPIError
                  ("Failed to parse JSON response: "
                   ++ Str.prefix 200 text ++ "...") None), w1)
        /\ (String.length (Str.prefix 200 text) <= 200)%nat
        /\ String.prefix (Str.prefix 200 text) text = true).
Proof.
  intros Hc. rewrite (complete_json_unfold _ _ _ _ _ Hc).
  split; [|split].
  - intros j ->. reflexivity.
  - intros j -> (i & k & Hi & Hk & Hik & Hj). cbv zeta.
    rewrite (find_first _ _ _ Hi), (rfind_last _ _ _ Hk).
    replace (negb (Z.of_nat i =? -1) && (Z.of_nat k + 1 >? Z.of_nat i))
      with true
      by (symmetry; apply andb_true_iff; split;
          [apply negb_true_iff, Z.eqb_neq | apply Z.gtb_lt]; lia).
    rewrite (slice_span _ _ _ Hik), Hj. reflexivity.
  - intros -> Hnone. split; [|split].
    + cbv zeta.
      destruct (negb (Str.find "{" text =? -1)
                && (Str.rfind "}" text + 1 >? Str.find "{" text)) eqn:Hcond;
        [|reflexivity].
      apply andb_true_iff in Hcond as [Hstart Hend].
      apply negb_true_iff, Z.eqb_neq in Hstart.
      apply Z.gtb_lt in Hend.
      destruct (find_found _ _ Hstart) as (i & Hfi & Hi).
      assert (Hr : Str.rfind "}" text <> -1) by lia.
      destruct (rfind_found _ _ Hr) as (k & Hfk & Hk).
      rewrite Hfi, Hfk in *.
      assert (Hik : (i <= k)%nat) by lia.
      rewrite (slice_span _ _ _ Hik).
      destruct (json_loads (substring i (k - i + 1) text)) as [j|] eqn:Hj;
        [|reflexivity].
      exfalso. apply (Hnone j). exists i, k. auto.
    + apply prefix_length.
    + apply prefix_is_prefix.
Qed.

End JsonRecovery.

Section CacheSpec.

Context `{RT : Runtime} (E : Env).

(** C6. The cache expires lazily.  For a stored entry: when its age exceeds
    the TTL, [get] deletes it and reports absence; when its age is below
    the TTL, [get] returns the stored result and leaves the dictionary as
    it was.  Nothing else removes an entry: [get] leaves every other key
    alone, and [set] removes none ([clear] empties the dictionary). *)
Theorem cache_lazy_expiry code (w : world AnalysisCache) result timestamp :
  let c := self w in
  let key := _hash_code code in
  let now := clock E (trace w ++ [ReadClock]) in
  _cache c !! key = Some (result, timestamp) ->
  (_ttl c < now - timestamp ->
     cache_get E code w =
     (Ok None,
      World (set_cache (delete key (_cache c)) c) (heap w)
            (trace w ++ [ReadClock])))
  /\ (now - timestamp < _ttl c ->
        cache_get E code w = (Ok (Some result), emit ReadClock w))
  /\ (forall k, k <> key ->
        _cache (self (cache_get E code w).2) !! k = _cache c !! k)
  /\ (forall code' result' k,
        is_Some (_cache c !! k) ->
        is_Some (_cache (self (cache_set E code' result' w).2) !! k))
  /\ _cache (self (cache_clear w).2) = ∅.
Proof.
  intros c key now Hlook.
  assert (Hget : cache_get E code w =
                 if now - timestamp <? _ttl c
                 then (Ok (Some result), emit ReadClock w)
                 else (Ok None,
                       World (set_cache (delete key (_cache c)) c) (heap w)
                             (trace w ++ [ReadClock]))).
  { unfold cache_get. unfold_monad. fold c key. rewrite Hlook.
    cbn [trace emit]. fold now.
    destruct (now - timestamp <? _ttl c); reflexivity. }
  split; [|split; [|split; [|split]]].
  - intros Hold. rewrite Hget.
    destruct (Z.ltb_spec (now - timestamp) (_ttl c)); [lia | reflexivity].
  - intros Hyoung. rewrite Hget.
    destruct (Z.ltb_spec (now - timestamp) (_ttl c)); [reflexivity | lia].
  - intros k Hk. rewrite Hget.
    destruct (now - timestamp <? _ttl c); cbn; [reflexivity|].
    apply lookup_delete_ne. congruence.
  - intros code' result' k Hk. unfold cache_set. unfold_monad. cbn.
    fold c. destruct (decide (_hash_code code' = k)) as [->|Hne].
    + rewrite lookup_insert_eq. eauto.
    + rewrite lookup_insert_ne by exact Hne. exact Hk.
  - reflexivity.
Qed.

End CacheSpec.

(** ** Floats *)

Lemma float_ltb_leb (x y : float) :
  (x <? y)%float = true -> (x <=? y)%float = true.
Proof.
  rewrite ltb_spec, leb_spec. unfold SFltb, SFleb.
  destruct (SFcompare (Prim2SF x) (Prim2SF y)) as [[]|]; congruence.
Qed.

Lemma cont_antisym p q :
  Pos.compare_cont Eq q p = CompOpp (Pos.compare_cont Eq p q).
Proof. symmetry. exact (Pos.compare_cont_antisym p q Eq). Qed.

Lemma SFltb_asym x y : SFltb x y = true -> SFltb y x = false.
Proof.
  unfold SFltb.
  destruct x as [sx|sx| |sx mx ex], y as [sy|sy| |sy my ey]; simpl;
    try destruct sx; try destruct sy; simpl; try congruence.
  - rewrite (Z.compare_antisym ey ex).
    destruct (ey ?= ex) eqn:He; simpl; try congruence.
    rewrite (cont_antisym my mx).
    destruct (Pos.compare_cont Eq my mx); simpl; congruence.
  - rewrite (Z.compare_antisym ey ex).
    destruct (ey ?= ex) eqn:He; simpl; try congruence.
    rewrite (cont_antisym my mx).
    destruct (Pos.compare_cont Eq my mx); simpl; congruence.
Qed.

Lemma float_ltb_asym (x y : float) :
  (x <? y)%float = true -> (y <? x)%float = false.
Proof. rewrite !ltb_spec. apply SFltb_asym. Qed.

Lemma float_above_one (f : float) :
  (1 <? f)%float = true -> (0 <? f)%float = true.
Proof.
  rewrite !ltb_spec.
  change (Prim2SF 1) with (S754_finite false 4503599627370496 (-52)).
  change (Prim2SF 0) with (S754_zero false).
  unfold SFltb.
  destruct (Prim2SF f) as [s|s| |s m e]; simpl; try destruct s; simpl;
    congruence.
Qed.

Section ParseSpec.

Context `{RT : Runtime}.

Lemma fold_parse_step entries :
  forall acc,
    fold_left parse_step entries acc = (acc ++ omap kept entries)%list.
Proof.
  induction entries as [|fd entries IH]; intros acc; simpl.
  - rewrite app_nil_r. reflexivity.
  - rewrite IH. unfold parse_step, kept.
    destruct (parse_function fd) as [func|e].
    + rewrite <- app_assoc. reflexivity.
    + reflexivity.
Qed.

(** The clamp of a number is a float between 0 and 1. *)
Lemma clamp_number v :
  is_number v = true ->
  exists f, clamp v = Ok (JFloat f)
            /\ (0 <=? f)%float = true /\ (f <=? 1)%float = true.
Proof.
  unfold clamp. destruct v as [|b|n|f|s|l|d]; try discriminate; intros _; simpl.
  - destruct b; simpl; eexists; (split; [reflexivity|]); split; reflexivity.
  - destruct (0 <? n) eqn:Hn; simpl.
    + destruct (n <? 1) eqn:Hn1; [lia|].
      eexists; (split; [reflexivity|]); split; reflexivity.
    + eexists; (split; [reflexivity|]); split; reflexivity.
  - destruct (0 <? f)%float eqn:H0; simpl.
    + destruct (f <? 1)%float eqn:H1.
      * exists f. split; [reflexivity|].
        split; apply float_ltb_leb; assumption.
      * eexists; (split; [reflexivity|]); split; reflexivity.
    + eexists; (split; [reflexivity|]); split; reflexivity.
Qed.

Lemma clamp_ok v c :
  clamp v = Ok c ->
  exists f, c = JFloat f /\ (0 <=? f)%float = true /\ (f <=? 1)%float = true.
Proof.
  intros Hc.
  destruct (is_number v) eqn:Hv.
  - destruct (clamp_number v Hv) as (f & Hf & Hrange).
    rewrite Hf in Hc. injection Hc as <-. eauto.
  - destruct v; try discriminate Hv; discriminate Hc.
Qed.

Lemma validate_unit_float_clamped f :
  (0 <=? f)%float = true -> (f <=? 1)%float = true ->
  validate_unit_float (JFloat f) = Some f.
Proof.
  intros H0 H1. unfold validate_unit_float. simpl. rewrite H0, H1. reflexivity.
Qed.

Lemma init_ok language_ time_ space_ summary_ detailed_ functions_
    suggestions_ confidence_ r :
  CodeComplexityResult_init language_ time_ space_ summary_ detailed_
    functions_ suggestions_ confidence_ = Ok r ->
  validate_str language_ = Some (language r)
  /\ validate_str time_ = Some (overall_time_complexity r)
  /\ validate_str space_ = Some (overall_space_complexity r)
  /\ validate_str summary_ = Some (summary r)
  /\ functions r = functions_
  /\ validate_str_list suggestions_ = Some (optimization_suggestions r)
  /\ validate_unit_float confidence_ = Some (confidence_score r).
Proof.
  unfold CodeComplexityResult_init.
  destruct (validate_str language_); [|discriminate].
  destruct (validate_str time_); [|discriminate].
  destruct (validate_str space_); [|discriminate].
  destruct (validate_str summary_); [|discriminate].
  destruct (validate_str detailed_); [|discriminate].
  destruct (validate_str_list suggestions_); [|discriminate].
  destruct (validate_unit_float confidence_); [|discriminate].
  simpl. intros [= <-]. simpl. repeat split; reflexivity.
Qed.

Lemma parse_result_dict d :
  _parse_result (JDict d) =
  obind (py_iter (field d "functions" (JList []))) (fun items =>
  obind (clamp (field d "confidence_score" (JFloat 0.8))) (fun confidence_ =>
    CodeComplexityResult_init
      (field d "language" (JStr "Unknown"))
      (field d "overall_time_complexity" (JStr "Unknown"))
      (field d "overall_space_complexity" (JStr "Unknown"))
      (field d "summary" (JStr "Analysis completed"))
      (field d "detailed_explanation" (JStr ""))
      (fold_left parse_step items [])
      (field d "optimization_suggestions" (JList []))
      confidence_)).
Proof.
  unfold _parse_result, clamp, field, py_get.
  unfold mbind, outcome_bind, obind.
  destruct (py_iter _); [|reflexivity].
  destruct (py_max_0 _); reflexivity.
Qed.

Lemma clamp_above f :
  (1 <? f)%float = true -> clamp (JFloat f) = Ok (JFloat 1).
Proof.
  intros H1. unfold clamp. simpl.
  rewrite (float_above_one f H1). simpl.
  rewrite (float_ltb_asym _ _ H1). reflexivity.
Qed.

Lemma clamp_below f :
  (f <? 0)%float = true -> clamp (JFloat f) = Ok (JFloat 0).
Proof.
  intros H0. unfold clamp. simpl.
  rewrite (float_ltb_asym _ _ H0). reflexivity.
Qed.

Lemma clamp_inside f :
  (0 <? f)%float = true -> (f <? 1)%float = true ->
  clamp (JFloat f) = Ok (JFloat f).
Proof.
  intros H0 H1. unfold clamp. simpl. rewrite H0. simpl. rewrite H1.
  reflexivity.
Qed.

Lemma parse_result_drop d before bad after e :
  parse_function bad = Raise e ->
  _parse_result (JDict (("functions", JList (before ++ bad :: after)) :: d))
  = _parse_result (JDict (("functions", JList (before ++ after)) :: d)).
Proof.
  intros Hbad. rewrite !parse_result_dict.
  unfold field. cbn [assoc String.eqb Ascii.eqb Bool.eqb]. cbn [py_iter obind].
  assert (Hkept : omap kept (bad :: after) = omap kept after).
  { simpl. unfold kept at 1. rewrite Hbad. reflexivity. }
  rewrite !fold_parse_step, !omap_app, Hkept. reflexivity.
Qed.

(** C5. For a response that is a dictionary.  When [_parse_result] returns
    a result: its functions are the entries of the list under [functions]
    whose construction did not raise, in the order of the list; a missing
    field takes its default ([Unknown] for the language and the two
    complexities, [Analysis completed] for the summary, no functions, no
    suggestions, 0.8 for the confidence); the confidence lies between 0
    and 1, being 1 for a float above 1, 0 for a float below 0 and the
    float itself strictly between.  An entry whose construction raises
    changes nothing else: the outcome is that of the response without the
    entry.  And a numeric confidence is never rejected: its clamp is a
    float that passes the validation of the field. *)
Theorem parse_result_defensive (d : list (string * json)) :
  (forall r, _parse_result (JDict d) = Ok r ->
     (forall entries, assoc "functions" d = Some (JList entries) ->
        functions r = omap kept entries)
     /\ (assoc "functions" d = None -> functions r = [])
     /\ (assoc "language" d = None -> language r = "Unknown")
     /\ (assoc "overall_time_complexity" d = None ->
           overall_time_complexity r = "Unknown")
     /\ (assoc "overall_space_complexity" d = None ->
           overall_space_complexity r = "Unknown")
     /\ (assoc "summary" d = None -> summary r = "Analysis completed")
     /\ (assoc "optimization_suggestions" d = None ->
           optimization_suggestions r = [])
     /\ (assoc "confidence_score" d = None ->
           confidence_score r = 0.8%float)
     /\ ((0 <=? confidence_score r)%float = true
         /\ (confidence_score r <=? 1)%float = true)
     /\ (forall f, assoc "confidence_score" d = Some (JFloat f) ->
           ((1 <? f)%float = true -> confidence_score r = 1%float)
           /\ ((f <? 0)%float = true -> confidence_score r = 0%float)
           /\ ((0 <? f)%float = true -> (f <? 1)%float = true ->
                 confidence_score r = f)))
  /\ (forall before bad after e,
        parse_function bad = Raise e ->
        _parse_result
          (JDict (("functions", JList (before ++ bad :: after)) :: d))
        = _parse_result
            (JDict (("functions", JList (before ++ after)) :: d)))
  /\ (forall v, assoc "confidence_score" d = Some v -> is_number v = true ->
        exists f, clamp v = Ok (JFloat f)
                  /\ validate_unit_float (JFloat f) = Some f).
Proof.
  split; [|split].
  - intros r Hr. rewrite parse_result_dict in Hr.
    destruct (py_iter (field d "functions" (JList []))) as [items|] eqn:Hitems;
      [|discriminate].
    cbn [obind] in Hr.
    destruct (clamp (field d "confidence_score" (JFloat 0.8)))
      as [confidence_|] eqn:Hclamp; [|discriminate].
    cbn [obind] in Hr.
    apply init_ok in Hr
      as (Hlang & Htime & Hspace & Hsum & Hfun & Hsug & Hconf).
    destruct (clamp_ok _ _ Hclamp) as (c & -> & Hc0 & Hc1).
    rewrite (validate_unit_float_clamped c Hc0 Hc1) in Hconf.
    injection Hconf as Hconf.
    rewrite fold_parse_step in Hfun. cbn [app] in Hfun.
    unfold field in *.
    repeat split.
    + intros entries He. rewrite He in Hitems. cbn in Hitems.
      injection Hitems as <-. exact Hfun.
    + intros He. rewrite He in Hitems. cbn in Hitems.
      injection Hitems as <-. exact Hfun.
    + intros He. rewrite He in Hlang. cbn in Hlang. congruence.
    + intros He. rewrite He in Htime. cbn in Htime. congruence.
    + intros He. rewrite He in Hspace. cbn in Hspace. congruence.
    + intros He. rewrite He in Hsum. cbn in Hsum. congruence.
    + intros He. rewrite He in Hsug.
      change (validate_str_list (JList [])) with (Some (@nil string)) in Hsug.
      congruence.
    + intros He. rewrite He in Hclamp. cbv in Hclamp. congruence.
    + rewrite <- Hconf. exact Hc0.
    + rewrite <- Hconf. exact Hc1.
    + intros H1. rewrite H in Hclamp. rewrite (clamp_above f H1) in Hclamp.
      congruence.
    + intros H0. rewrite H in Hclamp. rewrite (clamp_below f H0) in Hclamp.
      congruence.
    + intros H0 H1. rewrite H in Hclamp.
      rewrite (clamp_inside f H0 H1) in Hclamp. congruence.
  - intros before bad after e Hbad. apply (parse_result_drop _ _ _ _ _ Hbad).
  - intros v _ Hv. destruct (clamp_number v Hv) as (f & Hf & H0 & H1).
    exists f. split; [exact Hf|]. apply validate_unit_float_clamped; assumption.
Qed.

End ParseSpec.

Section CacheHit.

Context `{RT : Runtime} (E : Env).

Lemma check_cache_enabled code (w : world CodeComplexityAnalyzer) c :
  _analysis_cache (self w) = Some c ->
  check_cache E code w =
  match _cache c !! _hash_code code with
  | Some (result, timestamp) =>
      if clock E (trace w ++ [ReadClock]) - timestamp <? _ttl c
      then (Ok (Some result), emit ReadClock w)
      else (Ok None,
            World (set_analysis_cache
                     (Some (set_cache (delete (_hash_code code) (_cache c)) c))
                     (self w))
                  (heap w) (trace w ++ [ReadClock]))
  | None => (Ok None, w)
  end.
Proof.
  destruct w as [[gc pv ac] h t]. cbn [self _analysis_cache]. intros ->.
  unfold check_cache, on_cache, cache_get. unfold_monad.
  unfold emit, with_self. cbn.
  destruct (_cache c !! _hash_code code) as [[result timestamp]|];
    [|reflexivity].
  cbn. destruct (clock E (t ++ [ReadClock]) - timestamp <? _ttl c);
    reflexivity.
Qed.

Lemma get_provider_cache (w : world CodeComplexityAnalyzer) o w' :
  _get_provider E w = (o, w') ->
  _analysis_cache (self w') = _analysis_cache (self w)
  /\ heap w' = heap w.
Proof.
  unfold _get_provider. unfold_monad.
  destruct (_provider (self w)).
  - intros [= <- <-]. split; reflexivity.
  - destruct (GroqProvider_init E (_groq_config (self w)));
      intros [= <- <-]; split; reflexivity.
Qed.

Lemma on_provider_cache {A} p (m : M GroqProvider A)
    (w : world CodeComplexityAnalyzer) o w' :
  on_provider p m w = (o, w') ->
  _analysis_cache (self w') = _analysis_cache (self w).
Proof.
  unfold on_provider, call.
  destruct (m (with_self p w)) as [r w1]. intros [= <- <-]. reflexivity.
Qed.

Lemma store_cache_stores code result (w : world CodeComplexityAnalyzer) c :
  _analysis_cache (self w) = Some c ->
  exists w' c' timestamp,
    store_cache E code result w = (Ok tt, w')
    /\ _analysis_cache (self w') = Some c'
    /\ _cache c' !! _hash_code code = Some (result, timestamp).
Proof.
  intros Hc. unfold store_cache, on_cache, cache_set. unfold_monad.
  rewrite Hc. cbn.
  eexists _, _, _. split; [reflexivity|]. split; [reflexivity|].
  cbn. apply lookup_insert_eq.
Qed.

(** After a call of [analyze] that returned a result, with the cache
    enabled, the result is stored under the key of the trimmed code. *)
Lemma analyze_ok_cached code options (w : world CodeComplexityAnalyzer) r w' :
  analyze E code options w = (Ok r, w') ->
  is_Some (_analysis_cache (self w)) ->
  exists c timestamp,
    _analysis_cache (self w') = Some c
    /\ _cache c !! _hash_code (Str.strip code) = Some (r, timestamp).
Proof.
  intros Ha [c Hc]. unfold analyze in Ha.
  destruct (is_blank code); [discriminate|].
  unfold bind at 1 in Ha.
  rewrite (check_cache_enabled _ _ _ Hc) in Ha.
  set (key := _hash_code (Str.strip code)) in *.
  assert (Hmiss : forall w1 c1,
    _analysis_cache (self w1) = Some c1 ->
    (provider <- _get_provider E;;
     try_except
       (response <- on_provider provider
          (complete_json E
             (PromptBuilder.build_analysis_prompt (Str.strip code)
                (Some match options with Some o => o | None => default_options end))
             (Some PromptBuilder.SYSTEM_PROMPT));;
        result <- lift (_parse_result response);;
        store_cache E (Str.strip code) result;;;
        ret result)
       (fun e =>
          match e with
          | JSONDecodeError =>
              raise (GroqAPIError
                       ("Failed to parse analysis response: " ++ exn_str e)
                       None)
          | _ => raise e
          end)) w1 = (Ok r, w') ->
    exists c' timestamp,
      _analysis_cache (self w') = Some c'
      /\ _cache c' !! key = Some (r, timestamp)).
  { intros w1 c1 Hc1. unfold bind at 1.
    destruct (_get_provider E w1) as [[p|e] w2] eqn:Hp; [|discriminate].
    apply get_provider_cache in Hp as [Hp _].
    unfold try_except. unfold bind at 1.
    destruct (on_provider p _ w2) as [[response|e] w3] eqn:Hr.
    - apply on_provider_cache in Hr.
      unfold bind at 1. unfold lift.
      destruct (_parse_result response) as [result|e].
      + unfold bind, ret.
        destruct (store_cache_stores (Str.strip code) result w3 c1)
          as (w4 & c4 & ts & -> & Hc4 & Hl); [congruence|].
        intros [= <- <-]. eauto.
      + destruct e; discriminate.
    - destruct e; discriminate. }
  destruct (_cache c !! key) as [[result timestamp]|] eqn:Hl.
  - destruct (clock E (trace w ++ [ReadClock]) - timestamp <? _ttl c).
    + injection Ha as <- <-. exists c, timestamp. split; assumption.
    + eapply Hmiss; [|exact Ha]. reflexivity.
  - eapply Hmiss; [exact Hc | exact Ha].
Qed.

(** C1. After a call of [analyze] that returned a result with the cache
    enabled: a later call whose trimmed code is the same, made while the
    cache object is as the first call left it and before the TTL of the
    entry has elapsed, returns the result of the first call, whatever the
    options of the two calls; the only event it adds to the trace is the
    reading of the clock by the cache (no request is posted), and the
    facade is left as it was. *)
Theorem analyze_cache_hit code1 options1 (w1 : world CodeComplexityAnalyzer)
    r w1' code2 options2 (w2 : world CodeComplexityAnalyzer) :
  analyze E code1 options1 w1 = (Ok r, w1') ->
  is_Some (_analysis_cache (self w1)) ->
  Str.strip code2 = Str.strip code1 ->
  _analysis_cache (self w2) = _analysis_cache (self w1') ->
  ttl_elapsed E code2 w2 = false ->
  analyze E code2 options2 w2 = (Ok r, emit ReadClock w2).
Proof.
  intros Ha Hen Hcode Hsame Hfresh.
  destruct (analyze_ok_cached _ _ _ _ _ Ha Hen) as (c & timestamp & Hc & Hl).
  rewrite <- Hsame in Hc.
  unfold ttl_elapsed in Hfresh. rewrite Hc, Hcode, Hl in Hfresh.
  apply negb_false_iff in Hfresh.
  assert (Hblank : is_blank code2 = false).
  { rewrite is_blank_only_whitespace.
    destruct (only_whitespace code2) eqn:Hw; [|reflexivity].
    apply strip_empty in Hw.
    unfold analyze in Ha.
    destruct (is_blank code1) eqn:Hb1; [discriminate|].
    rewrite is_blank_only_whitespace in Hb1.
    rewrite Hcode in Hw. apply strip_empty in Hw. congruence. }
  unfold analyze. rewrite Hblank. unfold bind at 1.
  rewrite (check_cache_enabled _ _ _ Hc), Hcode, Hl, Hfresh. reflexivity.
Qed.

End CacheHit.

Lemma first_at_find c s i : Str.find c s = Z.of_nat i -> first_at c s i.
Proof.
  intros Hf. destruct (find_found c s ltac:(lia)) as (i' & Hf' & Hi').
  replace i with i' by lia. exact Hi'.
Qed.

Lemma last_at_rfind c s i : Str.rfind c s = Z.of_nat i -> last_at c s i.
Proof.
  intros Hf. destruct (rfind_found c s ltac:(lia)) as (i' & Hf' & Hi').
  replace i with i' by lia. exact Hi'.
Qed.

(** * Examples *)

Section Examples.

#[local] Existing Instance Demo.runtime.

(** C9. A completion obtained on the retry that follows a rate-limit
    error is not counted: the first request is answered 429, the retry is
    answered 200 with 42 tokens of usage, [complete] returns the content,
    and the counters the statistics report are still 0 and 0; the same
    answer given to the first request counts 42 tokens and one request. *)
Theorem retry_success_not_counted :
  let retried :=
    complete (Demo.env [Response 429 ""; Demo.ok_response]) "prompt" None true true
      (Demo.start Demo.provider) in
  let direct :=
    complete (Demo.env [Demo.ok_response]) "prompt" None true true
      (Demo.start Demo.provider) in
  retried.1 = Ok Demo.answer_text
  /\ provider_get_stats (self retried.2)
     = [("total_tokens", JInt 0); ("requests", JInt 0);
        ("model", JStr "llama-3.3-70b-versatile")]
  /\ direct.1 = Ok Demo.answer_text
  /\ provider_get_stats (self direct.2)
     = [("total_tokens", JInt 42); ("requests", JInt 1);
        ("model", JStr "llama-3.3-70b-versatile")].
Proof. vm_compute. repeat split; reflexivity. Qed.

(** C10. [analyze_file] writes the language it derives from the extension
    into the options object of its caller: after the analysis of a Python
    file with options whose hint was unset, the caller's object carries
    the hint Python, and a later analysis of a Rust file with the same
    object keeps that hint. *)
Theorem analyze_file_mutates_options :
  let E := Demo.env [Demo.ok_response; Demo.ok_response] in
  let w := World Demo.analyzer [default_options] [] in
  let first := analyze_file E "src/main.py" (Some 0%nat) w in
  let second := analyze_file E "src/lib.rs" (Some 0%nat) first.2 in
  heap w !! 0%nat = Some default_options
  /\ is_ok first.1 = true
  /\ heap first.2 !! 0%nat
     = Some (set_language_hint (Some "Python") default_options)
  /\ is_ok second.1 = true
  /\ heap second.2 !! 0%nat
     = Some (set_language_hint (Some "Python") default_options).
Proof. vm_compute. repeat split; reflexivity. Qed.

End Examples.

(** * The theorems at concrete inputs *)

Section Instances.

#[local] Existing Instance Demo.runtime.

(** A second call with other options and surrounding blanks is served
    from the cache. *)
Lemma analyze_cache_hit_witness :
  let E := Demo.env [Demo.ok_response] in
  let first := analyze E "def f(n): return n" None (Demo.start Demo.analyzer) in
  exists r,
    first.1 = Ok r
    /\ analyze E "  def f(n): return n  " (Some Demo.python_options) first.2
       = (Ok r, emit ReadClock first.2).
Proof.
  intros E first.
  destruct first as [[r|e] w1'] eqn:Hfirst; [|discriminate Hfirst].
  exists r. split; [reflexivity|].
  apply (analyze_cache_hit E "def f(n): return n" None
           (Demo.start Demo.analyzer) r w1').
  - exact Hfirst.
  - vm_compute. eauto.
  - reflexivity.
  - reflexivity.
  - revert Hfirst. vm_compute. intros [= <- <-]. reflexivity.
Defined.

(** The primary model answers 500, the fallback model answers. *)
Lemma complete_fallback_witness :
  (complete (Demo.env [Response 500 "boom"; Demo.ok_response]) "prompt" None true
     true (Demo.start Demo.provider)).1
  = Ok Demo.answer_text.
Proof.
  pose (E := Demo.env [Response 500 "boom"; Demo.ok_response]).
  pose (w := Demo.start Demo.provider).
  pose (messages := build_messages "prompt" None).
  destruct (first_attempt E messages (model (config (self w))) true w)
    as [o1 w1] eqn:H1.
  destruct (first_attempt E messages (fallback_model (config (self w))) true w1)
    as [o2 w2] eqn:H2.
  assert (Ho1 : o1 = Raise (GroqAPIError "API error (500): boom" (Some 500)))
    by (revert H1; vm_compute; intros [= <- _]; reflexivity).
  assert (Ho2 : o2 = Ok Demo.answer_text)
    by (revert H2; revert H1; vm_compute; intros [= _ <-] [= <- _];
        reflexivity).
  subst o1 o2.
  change ((complete E "prompt" None true true w).1 = Ok Demo.answer_text).
  rewrite (proj1 (proj2 (complete_fallback E "prompt" None true w
                           ltac:(discriminate)))
             _ w1 Demo.answer_text w2 H1 eq_refl H2).
  reflexivity.
Defined.

(** The primary model answers 429 and then, after the sleep, 200. *)
Lemma rate_limit_retry_witness :
  let E := Demo.env [Response 429 ""; Demo.ok_response] in
  let run :=
    try_models E (build_messages "prompt" None) true
      (models_to_try (default_config "key") true) None
      (Demo.start Demo.provider) in
  run.1 = Ok Demo.answer_text
  /\ List.filter (fun e => negb (is_post e)) (trace run.2) = [Sleep (PInt 2)].
Proof.
  intros E run.
  pose (w := Demo.start Demo.provider).
  pose (messages := build_messages "prompt" None).
  pose (m := "llama-3.3-70b-versatile").
  destruct (first_attempt E messages m true w) as [o1 w1] eqn:H1.
  destruct (retry_attempt E messages m true (emit (Sleep (PInt 2)) w1))
    as [o2 w3] eqn:H2.
  assert (Ho1 : o1 = Raise (GroqRateLimitError
                              "Rate limit exceeded. Please wait and retry."
                              (Some 429)))
    by (revert H1; vm_compute; intros [= <- _]; reflexivity).
  assert (Ho2 : o2 = Ok Demo.answer_text)
    by (revert H2; revert H1; vm_compute; intros [= _ <-] [= <- _];
        reflexivity).
  subst o1 o2.
  pose proof (proj1 (proj2 (rate_limit_retry E messages true m
                              ["llama-3.1-8b-instant"] None w)
                       _ w1 H1 eq_refl)
                Demo.answer_text w3 H2) as Hrun.
  change (models_to_try (default_config "key") true)
    with [m; "llama-3.1-8b-instant"] in run.
  subst run. fold w messages. rewrite Hrun. split; [reflexivity|].
  revert H2. revert H1. vm_compute. intros [= <-] [= <-]. reflexivity.
Defined.

(** The answer is wrapped in prose: the span between the braces decodes. *)
Lemma complete_json_recovery_witness :
  (complete_json (Demo.env [Response 200 (Demo.body_text Demo.prose_text)])
     "prompt" None (Demo.start Demo.provider)).1
  = Ok Demo.answer_json.
Proof.
  pose (E := Demo.env [Response 200 (Demo.body_text Demo.prose_text)]).
  pose (w := Demo.start Demo.provider).
  destruct (complete E "prompt" None true true w) as [o w1] eqn:Hc.
  assert (Ho : o = Ok Demo.prose_text)
    by (revert Hc; vm_compute; intros [= <- _]; reflexivity).
  subst o.
  change ((complete_json E "prompt" None w).1 = Ok Demo.answer_json).
  rewrite (proj1 (proj2 (complete_json_recovery E "prompt" None w
                           Demo.prose_text w1 Hc))
             Demo.answer_json eq_refl).
  - reflexivity.
  - exists 22%nat, 81%nat. split; [|split; [|split]].
    + apply first_at_find. reflexivity.
    + apply last_at_rfind. reflexivity.
    + lia.
    + reflexivity.
Defined.

(** An answer with a confidence of 1.5 and a functions list whose second
    entry is not a dictionary. *)
Lemma parse_result_defensive_witness :
  let entries :=
    [JDict [("name", JStr "f")]; JStr "oops"; JDict [("name", JStr "g")]] in
  let d :=
    [("overall_time_complexity", JStr "O(1)");
     ("confidence_score", JFloat 1.5);
     ("functions", JList entries)] in
  exists r,
    _parse_result (JDict d) = Ok r
    /\ functions r = omap kept entries
    /\ length (functions r) = 2%nat
    /\ summary r = "Analysis completed"
    /\ confidence_score r = 1%float.
Proof.
  intros entries d.
  destruct (_parse_result (JDict d)) as [r|e] eqn:Hr;
    [|exfalso; revert Hr; vm_compute; discriminate].
  exists r.
  destruct (proj1 (parse_result_defensive d) r Hr)
    as (Hfun & _ & _ & _ & _ & Hsum & _ & _ & _ & Hconf).
  split; [reflexivity|]. split; [apply Hfun; reflexivity|].
  split; [rewrite (Hfun entries eq_refl); reflexivity|].
  split; [apply Hsum; reflexivity|].
  apply (proj1 (Hconf 1.5%float eq_refl)). reflexivity.
Defined.

(** An entry stored at time 0 and read one second later: returned under a
    TTL of an hour. *)
Lemma cache_lazy_expiry_witness :
  let r :=
    {| language := "Python"; overall_time_complexity := "O(1)";
       overall_space_complexity := "O(1)"; summary := "constant";
       detailed_explanation := ""; functions := [];
       optimization_suggestions := []; confidence_score := 1 |} in
  let w :=
    Demo.start {| _cache := {[ _hash_code "x = 1" := (r, 0) ]};
                  _ttl := minutes 60 |} in
  cache_get (Demo.env []) "x = 1" w = (Ok (Some r), emit ReadClock w).
Proof.
  intros r w.
  assert (Hstored : _cache (self w) !! _hash_code "x = 1" = Some (r, 0))
    by (vm_compute; reflexivity).
  apply (proj1 (proj2 (cache_lazy_expiry (Demo.env []) "x = 1" w r 0
                         Hstored))).
  vm_compute. reflexivity.
Defined.

(** Blanks and a line break. *)
Lemma blank_code_rejected_witness :
  let w := Demo.start Demo.analyzer in
  analyze (Demo.env []) "  
  " None w
  = (Raise (ValueError "Code cannot be empty"), w)
  /\ analyze_quick (Demo.env []) "  
  " w
     = (Raise (ValueError "Code cannot be empty"), w).
Proof.
  intros w. apply (blank_code_rejected (Demo.env []) _ None w). reflexivity.
Defined.

End Instances.

(** * Further properties

    ** Runs of the client *)

Section ClientRuns.
Context `{RT : Runtime} (E : Env).

Lemma client_opened_idem (w : world GroqProvider) e :
  client_opened (emit e (client_opened w)) = emit e (client_opened w).
Proof.
  unfold client_opened, emit, with_self. destruct w as [[cfg [[[]]|] t r] h tr]; reflexivity.
Qed.

Lemma payload_client_opened (w : world GroqProvider) msgs m jm :
  payload_of (client_opened w) msgs m jm = payload_of w msgs m jm.
Proof.
  unfold payload_of, client_opened.
  destruct (_client (self w)) as [[[]]|]; reflexivity.
Qed.

Lemma payload_emit (w : world GroqProvider) e msgs m jm :
  payload_of (emit e w) msgs m jm = payload_of w msgs m jm.
Proof. reflexivity. Qed.

Lemma make_request_once_run msgs m jm (w : world GroqProvider) :
  _make_request_once E msgs m jm w =
  (outcome_of_result (http_post E (trace w) (payload_of w msgs m jm)),
   emit (Post (payload_of w msgs m jm)) (client_opened w)).
Proof.
  unfold _make_request_once. unfold bind at 1.
  destruct (get_client_opens w) as [c ->].
  unfold bind, get_self, post.
  pose proof (payload_client_opened w msgs m jm) as Hp.
  unfold payload_of in Hp. rewrite Hp. fold (payload_of w msgs m jm).
  rewrite client_opened_trace.
  destruct (http_post E (trace w) (payload_of w msgs m jm)) as [status text| | |];
    try reflexivity.
  unfold outcome_of_result.
  destruct (status =? 429); [reflexivity|].
  destruct (negb (status =? 200)); [reflexivity|].
  unfold ret, raise. destruct (json_loads text); reflexivity.
Qed.

Lemma outcome_transient r e :
  outcome_of_result r = Raise e -> is_transient e = is_transient_result r.
Proof.
  destruct r as [status text| | |]; simpl; try (intros [= <-]; reflexivity).
  destruct (status =? 429); [intros [= <-]; reflexivity|].
  destruct (negb (status =? 200)); [intros [= <-]; reflexivity|].
  destruct (json_loads text); [discriminate | intros [= <-]; reflexivity].
Qed.

(* one step of the retry wrapper *)
Lemma retrying_step {A} n k (m : M GroqProvider A) (w : world GroqProvider) :
  retrying n k m w =
  match m w with
  | (Ok a, w1) => (Ok a, w1)
  | (Raise e, w1) =>
      if is_transient e then
        match k with
        | O => (Raise RetryError, w1)
        | S k' => retrying (S n) k' m (emit (Sleep (wait_exponential n)) w1)
        end
      else (Raise e, w1)
  end.
Proof.
  destruct k; cbn [retrying]; unfold try_except;
    destruct (m w) as [[a|e] w1]; try reflexivity;
    destruct (is_transient e); reflexivity.
Qed.

Lemma client_opened_emit (w : world GroqProvider) e :
  client_opened (emit e w) = emit e (client_opened w).
Proof.
  unfold client_opened, emit, with_self.
  destruct w as [[cfg [[[]]|] t r] h tr]; reflexivity.
Qed.

Lemma client_opened_twice (w : world GroqProvider) :
  client_opened (client_opened w) = client_opened w.
Proof.
  unfold client_opened, with_self.
  destruct w as [[cfg [[[]]|] t r] h tr]; reflexivity.
Qed.

Lemma transient_result_outcome r :
  is_transient_result r = true ->
  exists e, outcome_of_result r = Raise e /\ is_transient e = true.
Proof. destruct r; try discriminate; intros _; simpl; eauto. Qed.

Lemma answer_outcome r :
  is_transient_result r = false ->
  match outcome_of_result r with
  | Ok _ => True
  | Raise e => is_transient e = false
  end.
Proof.
  intros Hr. destruct (outcome_of_result r) as [j|e] eqn:Ho; [exact I|].
  rewrite (outcome_transient _ _ Ho). exact Hr.
Qed.

(** [_make_request] in closed form: at most three requests, a sleep of 1
    and then of 2 between them. *)
Lemma make_request_closed_form msgs m jm (w : world GroqProvider) :
  _make_request E msgs m jm w =
  let p := payload_of w msgs m jm in
  let r1 := http_post E (trace w) p in
  let w1 := emit (Post p) (client_opened w) in
  if is_transient_result r1 then
    let w1s := emit (Sleep (PInt 1)) w1 in
    let r2 := http_post E (trace w1s) p in
    let w2 := emit (Post p) w1s in
    if is_transient_result r2 then
      let w2s := emit (Sleep (PInt 2)) w2 in
      let r3 := http_post E (trace w2s) p in
      let w3 := emit (Post p) w2s in
      if is_transient_result r3 then (Raise RetryError, w3)
      else (outcome_of_result r3, w3)
    else (outcome_of_result r2, w2)
  else (outcome_of_result r1, w1).
Proof.
  cbv zeta. unfold _make_request.
  set (p := payload_of w msgs m jm).
  assert (Hstep : forall n k w',
            payload_of w' msgs m jm = p -> client_opened w' = w' ->
            retrying n k (_make_request_once E msgs m jm) w' =
            let r := http_post E (trace w') p in
            let w1 := emit (Post p) w' in
            if is_transient_result r then
              match k with
              | O => (Raise RetryError, w1)
              | S k' => retrying (S n) k' (_make_request_once E msgs m jm)
                          (emit (Sleep (wait_exponential n)) w1)
              end
            else (outcome_of_result r, w1)).
  { intros n k w' Hp Ho. rewrite retrying_step, make_request_once_run, Hp, Ho.
    cbv zeta. destruct (is_transient_result (http_post E (trace w') p)) eqn:Ht.
    - destruct (transient_result_outcome _ Ht) as (e & -> & ->). reflexivity.
    - pose proof (answer_outcome _ Ht) as Ha.
      destruct (outcome_of_result (http_post E (trace w') p)) as [j|e];
        [reflexivity|]. rewrite Ha. reflexivity. }
  set (w1s := emit (Sleep (PInt 1)) (emit (Post p) (client_opened w))).
  set (w2s := emit (Sleep (PInt 2)) (emit (Post p) w1s)).
  assert (Hp1 : payload_of w1s msgs m jm = p)
    by exact (payload_client_opened w msgs m jm).
  assert (Hp2 : payload_of w2s msgs m jm = p)
    by exact (payload_client_opened w msgs m jm).
  assert (Ho1 : client_opened w1s = w1s)
    by (unfold w1s; rewrite !client_opened_emit, client_opened_twice;
        reflexivity).
  assert (Ho2 : client_opened w2s = w2s)
    by (unfold w2s; rewrite !client_opened_emit, Ho1; reflexivity).
  rewrite retrying_step, make_request_once_run. fold p.
  destruct (is_transient_result (http_post E (trace w) p)) eqn:Ht1.
  2:{ pose proof (answer_outcome _ Ht1) as Ha.
      destruct (outcome_of_result (http_post E (trace w) p)) as [j|e];
        [reflexivity|]. rewrite Ha. reflexivity. }
  destruct (transient_result_outcome _ Ht1) as (e1 & -> & ->).
  change (wait_exponential 1) with (PInt 1). fold w1s.
  rewrite (Hstep 2%nat 1%nat w1s Hp1 Ho1). cbv zeta.
  destruct (is_transient_result (http_post E (trace w1s) p)); [|reflexivity].
  change (wait_exponential 2) with (PInt 2). fold w2s.
  rewrite (Hstep 3%nat 0%nat w2s Hp2 Ho2). cbv zeta.
  destruct (is_transient_result (http_post E (trace w2s) p)); reflexivity.
Qed.

Lemma count_posts_app tr1 tr2 :
  count_posts (tr1 ++ tr2) = (count_posts tr1 + count_posts tr2)%nat.
Proof. unfold count_posts. rewrite List.filter_app, length_app. reflexivity. Qed.

Lemma count_pacing_app tr1 tr2 :
  count_pacing (tr1 ++ tr2) = (count_pacing tr1 + count_pacing tr2)%nat.
Proof. unfold count_pacing. rewrite List.filter_app, length_app. reflexivity. Qed.

Lemma candidate_events_no_pacing (w : world GroqProvider) msgs jm ms evs :
  Forall (candidate_event w msgs jm ms) evs -> count_pacing evs = 0%nat.
Proof.
  induction 1 as [|e evs He _ IH]; [reflexivity|].
  change (e :: evs) with ([e] ++ evs)%list. rewrite count_pacing_app, IH.
  destruct e as [r|[]|]; try reflexivity; destruct He.
Qed.

Lemma make_request_run msgs m jm (w : world GroqProvider) o w' :
  _make_request E msgs m jm w = (o, w') ->
  exists evs,
    provider_run w w' evs 0
    /\ (1 <= count_posts evs <= 3)%nat
    /\ Forall (candidate_event w msgs jm [m]) evs
    /\ _total_tokens_used (self w') = _total_tokens_used (self w)
    /\ _client (self w') = Some {| is_closed := false |}.
Proof.
  rewrite make_request_closed_form. cbv zeta.
  set (p := payload_of w msgs m jm).
  assert (Hpost : candidate_event w msgs jm [m] (Post p))
    by (exists m; split; [left; reflexivity | reflexivity]).
  assert (Hself : forall evs (w0 : world GroqProvider),
            self w0 = self (client_opened w) -> heap w0 = heap w ->
            trace w0 = (trace w ++ evs)%list ->
            provider_run w w0 evs 0
            /\ _total_tokens_used (self w0) = _total_tokens_used (self w)
            /\ _client (self w0) = Some {| is_closed := false |}).
  { intros evs w0 Hs Hh Ht. unfold provider_run. rewrite Hs, Hh, Ht.
    unfold client_opened.
    destruct (_client (self w)) as [[[]]|] eqn:Hc; cbn;
      repeat split; try lia; try reflexivity; exact Hc. }
  assert (Hh0 : heap (client_opened w) = heap w).
  { unfold client_opened. destruct (_client (self w)) as [[[]]|]; reflexivity. }
  destruct (is_transient_result (http_post E (trace w) p)).
  - destruct (is_transient_result _).
    + destruct (is_transient_result _); intros [= <- <-];
        exists [Post p; Sleep (PInt 1); Post p; Sleep (PInt 2); Post p];
        (destruct (Hself [Post p; Sleep (PInt 1); Post p; Sleep (PInt 2); Post p]
                    (emit (Post p) (emit (Sleep (PInt 2)) (emit (Post p)
                       (emit (Sleep (PInt 1)) (emit (Post p) (client_opened w)))))))
           as (H1 & H2 & H3);
         [reflexivity | exact Hh0
         | cbn; rewrite client_opened_trace, <- !app_assoc; reflexivity |]);
        (split; [exact H1|]); (split; [cbn; lia|]);
        (split; [repeat constructor; exact Hpost|]); split; assumption.
    + intros [= <- <-]. exists [Post p; Sleep (PInt 1); Post p].
      destruct (Hself [Post p; Sleep (PInt 1); Post p]
                  (emit (Post p) (emit (Sleep (PInt 1))
                     (emit (Post p) (client_opened w)))))
        as (H1 & H2 & H3);
        [reflexivity | exact Hh0
        | cbn; rewrite client_opened_trace, <- !app_assoc; reflexivity |].
      split; [exact H1|]. split; [cbn; lia|].
      split; [repeat constructor; exact Hpost|]. split; assumption.
  - intros [= <- <-]. exists [Post p].
    destruct (Hself [Post p] (emit (Post p) (client_opened w)))
      as (H1 & H2 & H3);
      [reflexivity | exact Hh0 | cbn; rewrite client_opened_trace; reflexivity |].
    split; [exact H1|]. split; [cbn; lia|].
    split; [repeat constructor; exact Hpost|]. split; assumption.
Qed.

Lemma provider_run_refl (w : world GroqProvider) : provider_run w w [] 0.
Proof. unfold provider_run. rewrite app_nil_r. repeat split; lia. Qed.

Lemma provider_run_trans (w w1 w2 : world GroqProvider) evs1 evs2 k1 k2 :
  provider_run w w1 evs1 k1 -> provider_run w1 w2 evs2 k2 ->
  provider_run w w2 (evs1 ++ evs2) (k1 + k2).
Proof.
  intros (Ht1 & Hh1 & Hc1 & Hr1) (Ht2 & Hh2 & Hc2 & Hr2).
  unfold provider_run. rewrite Ht2, Ht1, Hh2, Hh1, Hc2, Hc1, app_assoc.
  repeat split; lia.
Qed.

Lemma provider_run_weaken (w w' : world GroqProvider) evs k k' :
  k <= k' -> provider_run w w' evs k -> provider_run w w' evs k'.
Proof.
  intros Hk (Ht & Hh & Hc & Hr). unfold provider_run. repeat split; auto; lia.
Qed.

Lemma candidate_event_config (w w1 : world GroqProvider) msgs jm ms e :
  config (self w1) = config (self w) ->
  candidate_event w1 msgs jm ms e -> candidate_event w msgs jm ms e.
Proof.
  intros Hc. destruct e as [r|[]|]; simpl; auto.
  intros (m & Hm & ->). exists m. split; [exact Hm|].
  unfold payload_of. rewrite Hc. reflexivity.
Qed.

Lemma candidate_event_incl (w : world GroqProvider) msgs jm ms ms' e :
  (forall m, In m ms -> In m ms') ->
  candidate_event w msgs jm ms e -> candidate_event w msgs jm ms' e.
Proof.
  intros Hi. destruct e as [r|[]|]; simpl; auto.
  intros (m & Hm & ->). exists m. auto.
Qed.

(** The usage tracking counts one request when it succeeds and changes
    nothing when it raises; it produces no event. *)
Lemma track_usage_run response (w : world GroqProvider) o w' :
  track_usage response w = (o, w') ->
  trace w' = trace w /\ heap w' = heap w
  /\ config (self w') = config (self w)
  /\ _client (self w') = _client (self w)
  /\ match o with
     | Ok _ => _request_count (self w') = _request_count (self w) + 1
     | Raise _ => w' = w
     end.
Proof.
  unfold track_usage. unfold_monad.
  destruct (py_get response "usage" (JDict [])) as [usage|e];
    [|intros [= <- <-]; auto 10].
  destruct (py_get usage "total_tokens" (JInt 0)) as [tokens|e];
    [|intros [= <- <-]; auto 10].
  destruct (py_add (_total_tokens_used (self w)) tokens) as [total|e];
    [|intros [= <- <-]; auto 10].
  intros [= <- <-]. cbn. auto 10.
Qed.

Lemma first_attempt_run msgs m jm (w : world GroqProvider) o w' :
  first_attempt E msgs m jm w = (o, w') ->
  exists evs,
    provider_run w w' evs 1
    /\ (1 <= count_posts evs <= 3)%nat
    /\ Forall (candidate_event w msgs jm [m]) evs
    /\ (is_ok o = true ->
         _request_count (self w') = _request_count (self w) + 1).
Proof.
  unfold first_attempt. unfold bind at 1.
  destruct (_make_request E msgs m jm w) as [[response|e] w1] eqn:Hreq.
  - destruct (make_request_run _ _ _ _ _ _ Hreq)
      as (evs & (Ht & Hh & Hc & Hr) & Hn & Hev & _).
    unfold bind.
    destruct (track_usage response w1) as [[[]|e] w2] eqn:Htrack.
    + destruct (track_usage_run _ _ _ _ Htrack) as (Ht2 & Hh2 & Hc2 & _ & Hrc).
      unfold lift. intros [= <- <-]. exists evs.
      split; [|split; [exact Hn|split; [exact Hev|]]].
      * unfold provider_run. rewrite Ht2, Hh2, Hc2, Hrc.
        repeat split; auto; lia.
      * intros _. lia.
    + destruct (track_usage_run _ _ _ _ Htrack) as (_ & _ & _ & _ & ->).
      intros [= <- <-]. exists evs.
      split; [|split; [exact Hn|split; [exact Hev|discriminate]]].
      apply (provider_run_weaken _ _ _ 0); [lia|].
      unfold provider_run. auto.
  - intros [= <- <-].
    destruct (make_request_run _ _ _ _ _ _ Hreq) as (evs & Hrun & Hn & Hev & _).
    exists evs. split; [|split; [exact Hn|split; [exact Hev|discriminate]]].
    apply (provider_run_weaken _ _ _ 0); [lia | exact Hrun].
Qed.

Lemma retry_attempt_run msgs m jm (w : world GroqProvider) o w' :
  retry_attempt E msgs m jm w = (o, w') ->
  exists evs,
    provider_run w w' evs 0
    /\ (1 <= count_posts evs <= 3)%nat
    /\ Forall (candidate_event w msgs jm [m]) evs
    /\ _request_count (self w') = _request_count (self w)
    /\ _total_tokens_used (self w') = _total_tokens_used (self w).
Proof.
  unfold retry_attempt, bind.
  destruct (_make_request E msgs m jm w) as [[response|e] w1] eqn:Hreq;
    unfold lift; intros [= <- <-];
    destruct (make_request_run _ _ _ _ _ _ Hreq)
      as (evs & Hrun & Hn & Hev & Htok & _);
    exists evs; (split; [exact Hrun|]); (split; [exact Hn|]);
    (split; [exact Hev|]); (split; [|exact Htok]);
    destruct Hrun as (_ & _ & _ & Hr); lia.
Qed.

Lemma try_models_run msgs jm ms :
  forall last (w : world GroqProvider) o w',
    try_models E msgs jm ms last w = (o, w') ->
    exists evs,
      provider_run w w' evs (Z.of_nat (length ms))
      /\ (count_posts evs <= 6 * length ms)%nat
      /\ (ms <> [] -> (1 <= count_posts evs)%nat)
      /\ Forall (candidate_event w msgs jm ms) evs.
Proof.
  induction ms as [|m rest IH]; intros last w o w' Hrun.
  - cbn in Hrun. unfold raise in Hrun. injection Hrun as <- <-.
    exists []. split; [apply provider_run_refl|].
    split; [cbn; lia|]. split; [congruence | constructor].
  - rewrite try_models_cons in Hrun.
    destruct (first_attempt E msgs m jm w) as [[content|e] w1] eqn:Hfirst.
    + injection Hrun as <- <-.
      destruct (first_attempt_run _ _ _ _ _ _ Hfirst) as (evs & Hr & Hn & Hev & _).
      exists evs. split; [|split; [|split]].
      * apply (provider_run_weaken _ _ _ 1); [cbn [length]; lia | exact Hr].
      * cbn [length]. lia.
      * intros _. lia.
      * eapply Forall_impl; [exact Hev|]. intros e0.
        apply candidate_event_incl. intros m0 [->|[]]. left. reflexivity.
    + destruct (first_attempt_run _ _ _ _ _ _ Hfirst) as (evs1 & Hr1 & Hn1 & Hev1 & _).
      assert (Hc1 : config (self w1) = config (self w)) by apply Hr1.
      assert (Hev1' : Forall (candidate_event w msgs jm (m :: rest)) evs1).
      { eapply Forall_impl; [exact Hev1|]. intros e0.
        apply candidate_event_incl. intros m0 [->|[]]. left. reflexivity. }
      assert (Hrest : forall e0 (w2 : world GroqProvider) evs2 k2,
                provider_run w w2 evs2 k2 -> k2 <= 1 ->
                (1 <= count_posts evs2 <= 6)%nat ->
                Forall (candidate_event w msgs jm (m :: rest)) evs2 ->
                try_models E msgs jm rest (Some e0) w2 = (o, w') ->
                exists evs,
                  provider_run w w' evs (Z.of_nat (length (m :: rest)))
                  /\ (count_posts evs <= 6 * length (m :: rest))%nat
                  /\ (m :: rest <> [] -> (1 <= count_posts evs)%nat)
                  /\ Forall (candidate_event w msgs jm (m :: rest)) evs).
      { intros e0 w2 evs2 k2 Hr2 Hk2 Hn2 Hev2 Htail.
        destruct (IH _ _ _ _ Htail) as (evs3 & Hr3 & Hn3 & _ & Hev3).
        exists (evs2 ++ evs3)%list. split; [|split; [|split]].
        - apply (provider_run_weaken _ _ _ (k2 + Z.of_nat (length rest)));
            [cbn [length]; lia|].
          eapply provider_run_trans; eassumption.
        - rewrite count_posts_app. cbn [length]. lia.
        - intros _. rewrite count_posts_app. lia.
        - apply Forall_app. split; [exact Hev2|].
          eapply Forall_impl; [exact Hev3|]. intros e1 He1.
          apply (candidate_event_config w w2); [apply Hr2|].
          revert He1. apply candidate_event_incl. intros m0 Hm0. right. exact Hm0. }
      destruct (is_rate_limit e).
      * destruct (retry_attempt E msgs m jm (emit (Sleep (PInt 2)) w1))
          as [[content|e'] w3] eqn:Hretry;
          destruct (retry_attempt_run _ _ _ _ _ _ Hretry)
            as (evs2 & Hr2 & Hn2 & Hev2 & _);
          assert (Hr12 : provider_run w w3 (evs1 ++ Sleep (PInt 2) :: evs2) 1)
            by (destruct Hr1 as (Ht1 & Hh1 & Hc1' & Hq1);
                destruct Hr2 as (Ht2 & Hh2 & Hc2 & Hq2);
                cbn in Ht2, Hh2, Hc2, Hq2; unfold provider_run;
                rewrite Ht2, Ht1, Hh2, Hh1, Hc2, Hc1', <- !app_assoc;
                repeat split; try lia);
          assert (Hn12 : (1 <= count_posts (evs1 ++ Sleep (PInt 2) :: evs2) <= 6)%nat)
            by (rewrite count_posts_app; cbn; unfold count_posts in *; lia);
          assert (Hev12 : Forall (candidate_event w msgs jm (m :: rest))
                            (evs1 ++ Sleep (PInt 2) :: evs2))
            by (apply Forall_app; split; [exact Hev1'|];
                constructor; [exact I|];
                eapply Forall_impl; [exact Hev2|]; intros e1 He1;
                apply (candidate_event_config w (emit (Sleep (PInt 2)) w1));
                [exact Hc1|]; revert He1; apply candidate_event_incl;
                intros m0 [->|[]]; left; reflexivity).
        -- injection Hrun as <- <-.
           exists (evs1 ++ Sleep (PInt 2) :: evs2)%list.
           split; [|split; [|split]].
           ++ apply (provider_run_weaken _ _ _ 1); [cbn [length]; lia|exact Hr12].
           ++ cbn [length]. lia.
           ++ intros _. lia.
           ++ exact Hev12.
        -- eapply (Hrest e' w3); [exact Hr12 | lia | exact Hn12 | exact Hev12
                                 | exact Hrun].
      * eapply (Hrest e w1); [exact Hr1 | lia | lia | exact Hev1' | exact Hrun].
Qed.

Lemma try_models_raises msgs jm ms :
  forall last (w : world GroqProvider) x w',
    try_models E msgs jm ms last w = (Raise x, w') ->
    exists last',
      x = GroqAPIError
            ("All models failed. Last error: " ++ format_last_error last') None
      /\ ((ms = [] /\ last' = last) \/ exists e, last' = Some e).
Proof.
  induction ms as [|m rest IH]; intros last w x w' Hrun.
  - cbn in Hrun. unfold raise in Hrun. injection Hrun as <- <-.
    exists last. split; [reflexivity | left; split; reflexivity].
  - rewrite try_models_cons in Hrun.
    assert (Htail : forall e0 w2,
              try_models E msgs jm rest (Some e0) w2 = (Raise x, w') ->
              exists last',
                x = GroqAPIError
                      ("All models failed. Last error: "
                       ++ format_last_error last') None
                /\ ((m :: rest = [] /\ last' = last)
                    \/ exists e, last' = Some e)).
    { intros e0 w2 Ht. destruct (IH _ _ _ _ Ht) as (last' & -> & Hl).
      exists last'. split; [reflexivity|]. right.
      destruct Hl as [[_ ->]|He]; eauto. }
    destruct (first_attempt E msgs m jm w) as [[content|e] w1];
      [discriminate|].
    destruct (is_rate_limit e); [|eapply Htail; exact Hrun].
    destruct (retry_attempt E msgs m jm (emit (Sleep (PInt 2)) w1))
      as [[content|e'] w3]; [discriminate|].
    eapply Htail; exact Hrun.
Qed.

Lemma models_to_try_cases cfg use_fallback :
  models_to_try cfg use_fallback = [model cfg]
  \/ models_to_try cfg use_fallback = [model cfg; fallback_model cfg].
Proof.
  unfold models_to_try.
  destruct (use_fallback && negb (fallback_model cfg =? model cfg)%string);
    auto.
Qed.

Lemma complete_run prompt system_prompt json_mode use_fallback
    (w : world GroqProvider) o w' :
  complete E prompt system_prompt json_mode use_fallback w = (o, w') ->
  exists evs,
    trace w' = (trace w ++ evs)%list
    /\ (1 <= count_posts evs <= 12)%nat
    /\ Forall (candidate_event w (build_messages prompt system_prompt)
                 json_mode [model (config (self w));
                            fallback_model (config (self w))]) evs
    /\ heap w' = heap w
    /\ config (self w') = config (self w)
    /\ _request_count (self w) <= _request_count (self w')
       <= _request_count (self w) + 2.
Proof.
  rewrite complete_unfold. intros Hrun.
  destruct (try_models_run _ _ _ _ _ _ _ Hrun)
    as (evs & (Ht & Hh & Hc & Hr) & Hn & Hn1 & Hev).
  exists evs.
  destruct (models_to_try_cases (config (self w)) use_fallback) as [Hm|Hm];
    rewrite Hm in *; cbn [length] in *.
  - specialize (Hn1 ltac:(discriminate)).
    split; [exact Ht|]. split; [lia|]. split.
    + eapply Forall_impl; [exact Hev|]. intros e.
      apply candidate_event_incl. intros m [->|[]]. left. reflexivity.
    + repeat split; auto; lia.
  - specialize (Hn1 ltac:(discriminate)).
    split; [exact Ht|]. split; [lia|]. split; [exact Hev|].
    repeat split; auto; lia.
Qed.


(** X2.  The only exception [complete] lets out is the terminal
    [GroqAPIError] whose message is [All models failed. Last error: ]
    followed by the text of the last error recorded, with no status code. *)
Theorem complete_raises_terminal prompt system_prompt json_mode use_fallback
    (w : world GroqProvider) x w' :
  complete E prompt system_prompt json_mode use_fallback w = (Raise x, w') ->
  exists e,
    x = GroqAPIError ("All models failed. Last error: " ++ exn_str e) None.
Proof.
  rewrite complete_unfold. intros Hrun.
  destruct (try_models_raises _ _ _ _ _ _ _ Hrun) as (last' & -> & Hl).
  destruct Hl as [[Hnil _]|[e ->]].
  - unfold models_to_try in Hnil. discriminate.
  - exists e. reflexivity.
Qed.

End ClientRuns.

(** ** What the client returns *)

Lemma rstrip_idem s : Str.rstrip (Str.rstrip s) = Str.rstrip s.
Proof.
  induction s as [|c s IH]; [reflexivity|].
  cbn [Str.rstrip]. destruct (Str.rstrip s) as [|d r] eqn:Hr.
  - destruct (Str.isspace c) eqn:Hc; [reflexivity|].
    cbn [Str.rstrip]. rewrite Hc. reflexivity.
  - cbn [Str.rstrip]. cbn [Str.rstrip] in IH. rewrite IH. reflexivity.
Qed.

Lemma lstrip_starts_clean s : starts_clean (Str.lstrip s) = true.
Proof.
  induction s as [|c s IH]; [reflexivity|].
  cbn [Str.lstrip]. destruct (Str.isspace c) eqn:Hc; [exact IH|].
  cbn. rewrite Hc. reflexivity.
Qed.

Lemma lstrip_clean s : starts_clean s = true -> Str.lstrip s = s.
Proof.
  destruct s as [|c s]; [reflexivity|]. cbn. intros Hc.
  apply negb_true_iff in Hc. rewrite Hc. reflexivity.
Qed.

Lemma rstrip_starts_clean s :
  starts_clean s = true -> starts_clean (Str.rstrip s) = true.
Proof.
  destruct s as [|c s]; [reflexivity|]. cbn [starts_clean Str.rstrip].
  intros Hc. destruct (Str.rstrip s).
  - apply negb_true_iff in Hc. rewrite Hc. cbn. rewrite Hc. reflexivity.
  - exact Hc.
Qed.

Lemma strip_idem s : Str.strip (Str.strip s) = Str.strip s.
Proof.
  unfold Str.strip.
  rewrite (lstrip_clean (Str.rstrip (Str.lstrip s))).
  - apply rstrip_idem.
  - apply rstrip_starts_clean, lstrip_starts_clean.
Qed.

Section ClientAnswers.
Context `{RT : Runtime} (E : Env).

Lemma extract_content_trimmed response content :
  extract_content response = Ok content -> Str.strip content = content.
Proof.
  unfold extract_content, obind.
  destruct (getitem response "choices") as [choices|]; [|discriminate].
  destruct (getitem_0 choices) as [choice|]; [|discriminate].
  destruct (getitem choice "message") as [msg|]; [|discriminate].
  destruct (getitem msg "content") as [c|]; [|discriminate].
  destruct c; try discriminate. cbn. intros [= <-]. apply strip_idem.
Qed.

Lemma first_attempt_trimmed msgs m jm (w : world GroqProvider) content w' :
  first_attempt E msgs m jm w = (Ok content, w') -> Str.strip content = content.
Proof.
  unfold first_attempt, bind, lift.
  destruct (_make_request E msgs m jm w) as [[response|e] w1]; [|discriminate].
  destruct (track_usage response w1) as [[[]|e] w2]; [|discriminate].
  intros [= H _]. revert H. apply extract_content_trimmed.
Qed.

Lemma retry_attempt_trimmed msgs m jm (w : world GroqProvider) content w' :
  retry_attempt E msgs m jm w = (Ok content, w') -> Str.strip content = content.
Proof.
  unfold retry_attempt, bind, lift.
  destruct (_make_request E msgs m jm w) as [[response|e] w1]; [|discriminate].
  intros [= H _]. revert H. apply extract_content_trimmed.
Qed.

Lemma try_models_trimmed msgs jm ms :
  forall last (w : world GroqProvider) content w',
    try_models E msgs jm ms last w = (Ok content, w') ->
    Str.strip content = content.
Proof.
  induction ms as [|m rest IH]; intros last w content w' Hrun.
  - discriminate Hrun.
  - rewrite try_models_cons in Hrun.
    destruct (first_attempt E msgs m jm w) as [[c|e] w1] eqn:Hfirst.
    + injection Hrun as <- <-. eapply first_attempt_trimmed; eassumption.
    + destruct (is_rate_limit e); [|eapply IH; exact Hrun].
      destruct (retry_attempt E msgs m jm (emit (Sleep (PInt 2)) w1))
        as [[c|e'] w3] eqn:Hretry.
      * injection Hrun as <- <-. eapply retry_attempt_trimmed; eassumption.
      * eapply IH; exact Hrun.
Qed.

(** X3.  A text [complete] returns is trimmed: stripping it again changes
    nothing, and it does not begin with white space. *)
Theorem complete_returns_trimmed prompt system_prompt json_mode use_fallback
    (w : world GroqProvider) text w' :
  complete E prompt system_prompt json_mode use_fallback w = (Ok text, w') ->
  Str.strip text = text
  /\ starts_clean text = true.
Proof.
  rewrite complete_unfold. intros Hrun.
  pose proof (try_models_trimmed _ _ _ _ _ _ _ Hrun) as Hs.
  split; [exact Hs|]. rewrite <- Hs. unfold Str.strip.
  apply rstrip_starts_clean, lstrip_starts_clean.
Qed.

(** X4.  A response whose status is neither 200 nor 429 is not retried:
    [_make_request] posts once and raises [GroqAPIError] carrying the status.
    The detail in the message is the raw body when the body is not JSON, is
    a list, or is a dictionary without [error]; it is the message when the
    body is a dictionary whose [error] is a dictionary with a text
    [message]. *)
Theorem api_error_not_retried msgs m jm (w : world GroqProvider) status text :
  http_post E (trace w) (payload_of w msgs m jm) = Response status text ->
  status <> 200 -> status <> 429 ->
  _make_request E msgs m jm w =
  (Raise (GroqAPIError
            ("API error (" ++ pretty status ++ "): "
             ++ format_value (error_detail text))
            (Some status)),
   emit (Post (payload_of w msgs m jm)) (client_opened w))
  /\ (json_loads text = None -> format_value (error_detail text) = text)
  /\ (forall d err msg,
        json_loads text = Some (JDict d) ->
        assoc "error" d = Some (JDict err) ->
        assoc "message" err = Some (JStr msg) ->
        format_value (error_detail text) = msg)
  /\ (forall d, json_loads text = Some (JDict d) ->
        assoc "error" d = None ->
        format_value (error_detail text) = text)
  /\ (forall l, json_loads text = Some (JList l) ->
        format_value (error_detail text) = text).
Proof.
  intros Hpost H200 H429.
  split; [|split; [|split; [|split]]].
  - rewrite make_request_closed_form. cbv zeta. rewrite Hpost. cbn.
    apply Z.eqb_neq in H200, H429. rewrite H200, H429. reflexivity.
  - intros Hj. unfold error_detail. rewrite Hj. reflexivity.
  - intros d err msg Hj He Hm. unfold error_detail. rewrite Hj. cbn.
    rewrite He. cbn. rewrite Hm. reflexivity.
  - intros d Hj He. unfold error_detail. rewrite Hj. cbn. rewrite He.
    reflexivity.
  - intros l Hj. unfold error_detail. rewrite Hj. reflexivity.
Qed.


(** X6.  With [use_fallback] off, or with a fallback model equal to the
    primary one, [complete] talks to the primary model only, with at most
    six requests; a first attempt failing with anything but the rate-limit
    error ends the call at once with the terminal error wrapping it. *)
Theorem complete_single_candidate prompt system_prompt json_mode use_fallback
    (w : world GroqProvider) :
  let cfg := config (self w) in
  let messages := build_messages prompt system_prompt in
  use_fallback = false \/ fallback_model cfg = model cfg ->
  (forall o w',
      complete E prompt system_prompt json_mode use_fallback w = (o, w') ->
      exists evs,
        trace w' = (trace w ++ evs)%list
        /\ (1 <= count_posts evs <= 6)%nat
        /\ Forall (fun e => forall r, e = Post r -> rq_model r = model cfg) evs)
  /\ (forall e w1,
        first_attempt E messages (model cfg) json_mode w = (Raise e, w1) ->
        is_rate_limit e = false ->
        complete E prompt system_prompt json_mode use_fallback w =
        (Raise (GroqAPIError ("All models failed. Last error: " ++ exn_str e)
                  None), w1)).
Proof.
  intros cfg messages Hsingle.
  assert (Hm : models_to_try cfg use_fallback = [model cfg]).
  { unfold models_to_try. destruct Hsingle as [->| ->]; [reflexivity|].
    rewrite String.eqb_refl, andb_false_r. reflexivity. }
  split.
  - intros o w' Hrun. rewrite complete_unfold in Hrun. fold cfg in Hrun.
    rewrite Hm in Hrun.
    destruct (try_models_run _ _ _ _ _ _ _ _ Hrun)
      as (evs & (Ht & _) & Hn & Hn1 & Hev).
    exists evs. split; [exact Ht|]. cbn [length] in Hn.
    specialize (Hn1 ltac:(discriminate)). split; [lia|].
    eapply Forall_impl; [exact Hev|].
    intros e He r ->. destruct He as (m0 & [<-|[]] & ->). reflexivity.
  - intros e w1 Hfirst Hrl. rewrite complete_unfold. fold cfg messages.
    rewrite Hm, try_models_cons, Hfirst, Hrl. reflexivity.
Qed.

End ClientAnswers.

(** ** The cache alone *)

Section CacheRoundTrip.
Context `{RT : Runtime} (E : Env).

(** X7.  What [set] stores, [get] returns for any code with the same hash,
    as long as the TTL has not elapsed between the two readings of the
    clock; once it has, [get] returns [None], removes the entry, and a second
    [get] returns [None] without reading the clock.  [set] keeps the TTL. *)
Theorem cache_set_get code result (w : world AnalysisCache) code'
    (w2 : world AnalysisCache) :
  let stored := (cache_set E code result w).2 in
  let timestamp := clock E (trace w ++ [ReadClock]) in
  let now := clock E (trace w2 ++ [ReadClock]) in
  self w2 = self stored ->
  _hash_code code' = _hash_code code ->
  _ttl (self stored) = _ttl (self w)
  /\ (now - timestamp < _ttl (self w) ->
        cache_get E code' w2 = (Ok (Some result), emit ReadClock w2))
  /\ (_ttl (self w) <= now - timestamp ->
        (cache_get E code' w2).1 = Ok None
        /\ _cache (self (cache_get E code' w2).2) !! _hash_code code = None
        /\ (cache_get E code' (cache_get E code' w2).2
            = (Ok None, (cache_get E code' w2).2))).
Proof.
  intros stored timestamp now Hself Hhash.
  assert (Hstored : self stored
                    = set_cache (<[_hash_code code := (result, timestamp)]>
                                   (_cache (self w))) (self w))
    by reflexivity.
  assert (Hlook : _cache (self w2) !! _hash_code code' = Some (result, timestamp)).
  { rewrite Hself, Hstored, Hhash. cbn. apply lookup_insert_eq. }
  assert (Hget : cache_get E code' w2 =
                 if now - timestamp <? _ttl (self w2)
                 then (Ok (Some result), emit ReadClock w2)
                 else (Ok None,
                       World (set_cache (delete (_hash_code code')
                                           (_cache (self w2))) (self w2))
                             (heap w2) (trace w2 ++ [ReadClock]))).
  { unfold cache_get. unfold_monad. rewrite Hlook. cbn [trace emit].
    fold now. destruct (now - timestamp <? _ttl (self w2)); reflexivity. }
  assert (Httl : _ttl (self w2) = _ttl (self w)) by (rewrite Hself; reflexivity).
  split; [reflexivity|]. split.
  - intros Hfresh. rewrite Hget, Httl.
    destruct (Z.ltb_spec (now - timestamp) (_ttl (self w))); [reflexivity|lia].
  - intros Hold. rewrite Hget, Httl.
    destruct (Z.ltb_spec (now - timestamp) (_ttl (self w))); [lia|].
    cbn [fst snd self]. split; [reflexivity|]. split.
    + cbn. rewrite Hhash. apply lookup_delete_eq.
    + unfold cache_get. unfold_monad. cbn [self _cache set_cache].
      rewrite lookup_delete_eq. reflexivity.
Qed.

(** X8.  After [clear] every [get] returns [None] without reading the
    clock and leaves the cache as it is; [clear] keeps the TTL and produces
    no event. *)
Theorem cache_clear_forgets (w : world AnalysisCache) code :
  let cleared := (cache_clear w).2 in
  cache_get E code cleared = (Ok None, cleared)
  /\ _ttl (self cleared) = _ttl (self w)
  /\ trace cleared = trace w.
Proof.
  cbv zeta. unfold cache_clear, cache_get. unfold_monad. cbn.
  rewrite lookup_empty. repeat split; reflexivity.
Qed.

End CacheRoundTrip.

(** ** One analysis, step by step *)

Section AnalysisRuns.
Context `{RT : Runtime} (E : Env).

Lemma check_cache_ok code (w : world CodeComplexityAnalyzer) :
  exists cached w', check_cache E code w = (Ok cached, w').
Proof.
  destruct (_analysis_cache (self w)) as [c|] eqn:Hc.
  - rewrite (check_cache_enabled E _ _ _ Hc).
    destruct (_cache c !! _hash_code code) as [[r t]|]; [|eauto].
    destruct (_ <? _); eauto.
  - unfold check_cache. unfold_monad. rewrite Hc. eauto.
Qed.

Lemma store_cache_ok code r (w : world CodeComplexityAnalyzer) :
  exists w', store_cache E code r w = (Ok tt, w').
Proof.
  destruct (_analysis_cache (self w)) as [c|] eqn:Hc.
  - destruct (store_cache_stores E code r w c Hc) as (w' & _ & _ & H & _). eauto.
  - unfold store_cache. unfold_monad. rewrite Hc. eauto.
Qed.

Lemma analyze_analysis code options (w : world CodeComplexityAnalyzer) o w' :
  analyze E code options w = (o, w') ->
  is_blank code = false ->
  analysis E (Str.strip code)
    (PromptBuilder.build_analysis_prompt (Str.strip code)
       (Some match options with Some x => x | None => default_options end))
    (Some PromptBuilder.SYSTEM_PROMPT) rewrapped w o w'.
Proof.
  intros Ha Hb. unfold analyze in Ha. rewrite Hb in Ha.
  unfold bind at 1 in Ha.
  destruct (check_cache_ok (Str.strip code) w) as (cached & w1 & Hcheck).
  rewrite Hcheck in Ha. destruct cached as [r|].
  - injection Ha as <- <-. apply analysis_hit. exact Hcheck.
  - unfold bind at 1 in Ha.
    destruct (_get_provider E w1) as [[p|e] w2] eqn:Hp.
    2:{ injection Ha as <- <-. eapply analysis_no_provider; eassumption. }
    unfold try_except in Ha. unfold bind at 1 in Ha.
    destruct (on_provider p _ w2) as [[response|e] w3] eqn:Hreq.
    2:{ replace o with (@Raise CodeComplexityResult (rewrapped e))
          by (destruct e; injection Ha as <- _; reflexivity).
        replace w' with w3 by (destruct e; injection Ha as _ <-; reflexivity).
        eapply analysis_request_failed; eassumption. }
    unfold bind at 1 in Ha. unfold lift in Ha.
    destruct (_parse_result response) as [r|e] eqn:Hparse.
    2:{ replace o with (@Raise CodeComplexityResult (rewrapped e))
          by (destruct e; injection Ha as <- _; reflexivity).
        replace w' with w3 by (destruct e; injection Ha as _ <-; reflexivity).
        eapply analysis_parse_failed; eassumption. }
    unfold bind, ret in Ha.
    destruct (store_cache_ok (Str.strip code) r w3) as (w4 & Hstore).
    rewrite Hstore in Ha. injection Ha as <- <-.
    eapply analysis_stored; eassumption.
Qed.

Lemma analyze_quick_analysis code (w : world CodeComplexityAnalyzer) o w' :
  analyze_quick E code w = (o, w') ->
  is_blank code = false ->
  analysis E (Str.strip code)
    (PromptBuilder.build_quick_analysis_prompt (Str.strip code))
    (Some "You are an algorithm complexity analyst. Respond with JSON only.")
    (fun e => e) w o w'.
Proof.
  intros Ha Hb. unfold analyze_quick in Ha. rewrite Hb in Ha.
  unfold bind at 1 in Ha.
  destruct (check_cache_ok (Str.strip code) w) as (cached & w1 & Hcheck).
  rewrite Hcheck in Ha. destruct cached as [r|].
  - injection Ha as <- <-. apply analysis_hit. exact Hcheck.
  - unfold bind at 1 in Ha.
    destruct (_get_provider E w1) as [[p|e] w2] eqn:Hp.
    2:{ injection Ha as <- <-. eapply analysis_no_provider; eassumption. }
    unfold bind at 1 in Ha.
    destruct (on_provider p _ w2) as [[response|e] w3] eqn:Hreq.
    2:{ injection Ha as <- <-.
        eapply (analysis_request_failed _ _ _ _ (fun e => e)); eassumption. }
    unfold bind at 1 in Ha. unfold lift in Ha.
    destruct (_parse_result response) as [r|e] eqn:Hparse.
    2:{ injection Ha as <- <-.
        eapply (analysis_parse_failed _ _ _ _ (fun e => e)); eassumption. }
    unfold bind, ret in Ha.
    destruct (store_cache_ok (Str.strip code) r w3) as (w4 & Hstore).
    rewrite Hstore in Ha. injection Ha as <- <-.
    eapply analysis_stored; eassumption.
Qed.

End AnalysisRuns.

(** ** What a run of the facade keeps *)

Section FacadeRuns.
Context `{RT : Runtime} (E : Env).

Lemma facade_run_refl (w : world CodeComplexityAnalyzer) : facade_run w w [].
Proof. unfold facade_run. rewrite app_nil_r. auto. Qed.

Lemma facade_run_trans (w w1 w2 : world CodeComplexityAnalyzer) evs1 evs2 :
  facade_run w w1 evs1 -> facade_run w1 w2 evs2 ->
  facade_run w w2 (evs1 ++ evs2).
Proof.
  intros (Ht1 & Hh1 & Hc1 & Hl1) (Ht2 & Hh2 & Hc2 & Hl2).
  unfold facade_run. rewrite Ht2, Ht1, Hh2, Hh1, Hc2, Hc1, Hl2, Hl1, app_assoc.
  auto.
Qed.

Lemma cache_within_refl a : cache_within a a.
Proof. intros c Hc. eauto. Qed.

Lemma cache_within_trans a a1 a2 :
  cache_within a2 a1 -> cache_within a1 a -> cache_within a2 a.
Proof.
  intros H21 H10 c2 Hc2. destruct (H21 c2 Hc2) as (c1 & Hc1 & Hs1).
  destruct (H10 c1 Hc1) as (c & Hc & Hs). eauto.
Qed.

Lemma cache_within_eq a' a :
  _analysis_cache a' = _analysis_cache a -> cache_within a' a.
Proof. intros He c' Hc'. rewrite He in Hc'. eauto. Qed.

(** The look-up in the cache: no request, and the cache only loses the
    entry it found expired. *)
Lemma check_cache_run code (w : world CodeComplexityAnalyzer) cached w' :
  check_cache E code w = (Ok cached, w') ->
  (exists evs, facade_run w w' evs /\ count_posts evs = 0%nat
               /\ count_pacing evs = 0%nat)
  /\ _provider (self w') = _provider (self w)
  /\ cache_within (self w') (self w)
  /\ (forall r, cached = Some r ->
        self w' = self w
        /\ exists c timestamp,
             _analysis_cache (self w) = Some c
             /\ _cache c !! _hash_code code = Some (r, timestamp))
  /\ (cached = None ->
        forall c', _analysis_cache (self w') = Some c' ->
                   _cache c' !! _hash_code code = None).
Proof.
  destruct (_analysis_cache (self w)) as [c|] eqn:Hc.
  - rewrite (check_cache_enabled E _ _ _ Hc).
    destruct (_cache c !! _hash_code code) as [[r t]|] eqn:Hl.
    + destruct (_ <? _).
      * intros [= <- <-]. split; [|split; [|split; [|split]]].
        -- exists [ReadClock]. split; [|split; reflexivity].
           unfold facade_run. cbn. auto.
        -- reflexivity.
        -- apply cache_within_refl.
        -- intros r0 [= <-]. split; [reflexivity|]. eauto.
        -- discriminate.
      * intros [= <- <-]. split; [|split; [|split; [|split]]].
        -- exists [ReadClock]. split; [|split; reflexivity].
           unfold facade_run. cbn. rewrite Hc. auto.
        -- reflexivity.
        -- intros c' Hc'. cbn in Hc'. injection Hc' as <-.
           exists c. split; [exact Hc|]. intros k v Hk. cbn in Hk.
           apply lookup_delete_Some in Hk. apply Hk.
        -- discriminate.
        -- intros _ c' Hc'. cbn in Hc'. injection Hc' as <-. cbn.
           apply lookup_delete_eq.
    + intros [= <- <-]. split; [|split; [|split; [|split]]].
      * exists []. split; [apply facade_run_refl | split; reflexivity].
      * reflexivity.
      * apply cache_within_refl.
      * discriminate.
      * intros _ c' Hc'. rewrite Hc in Hc'. injection Hc' as <-. exact Hl.
  - unfold check_cache. unfold_monad. rewrite Hc. intros [= <- <-].
    split; [|split; [|split; [|split]]].
    + exists []. split; [apply facade_run_refl | split; reflexivity].
    + reflexivity.
    + apply cache_within_refl.
    + discriminate.
    + intros _ c' Hc'. congruence.
Qed.

Lemma get_provider_run (w : world CodeComplexityAnalyzer) o w' :
  _get_provider E w = (o, w') ->
  facade_run w w' []
  /\ _analysis_cache (self w') = _analysis_cache (self w)
  /\ match o with
     | Ok p => _provider (self w') = Some p
     | Raise e => w' = w /\ _provider (self w) = None
                  /\ GroqProvider_init E (_groq_config (self w)) = Raise e
     end.
Proof.
  unfold _get_provider. unfold_monad.
  destruct (_provider (self w)) as [p|] eqn:Hp.
  - intros [= <- <-]. split; [apply facade_run_refl|]. auto.
  - destruct (GroqProvider_init E (_groq_config (self w))) as [p|e] eqn:Hi;
      intros [= <- <-].
    + split; [|auto]. unfold facade_run. cbn. rewrite app_nil_r. auto.
    + split; [apply facade_run_refl|]. auto.
Qed.

Lemma complete_json_complete prompt system_prompt (w : world GroqProvider) o w' :
  complete_json E prompt system_prompt w = (o, w') ->
  exists o1, complete E prompt system_prompt true true w = (o1, w').
Proof.
  unfold complete_json, bind.
  destruct (complete E prompt system_prompt true true w) as [[text|e] w1].
  - destruct (json_loads text); [intros [= _ <-]; eauto|].
    cbv zeta. destruct (_ && _).
    + destruct (json_loads _); intros [= _ <-]; eauto.
    + intros [= _ <-]. eauto.
  - intros [= _ <-]. eauto.
Qed.

Lemma on_provider_run prompt system_prompt p (w : world CodeComplexityAnalyzer)
    o w' :
  on_provider p (complete_json E prompt system_prompt) w = (o, w') ->
  (exists evs, facade_run w w' evs /\ (1 <= count_posts evs <= 12)%nat
               /\ count_pacing evs = 0%nat)
  /\ _analysis_cache (self w') = _analysis_cache (self w)
  /\ exists p', _provider (self w') = Some p' /\ config p' = config p.
Proof.
  unfold on_provider, call.
  destruct (complete_json E prompt system_prompt (with_self p w)) as [r w1] eqn:Hc.
  intros [= <- <-].
  destruct (complete_json_complete _ _ _ _ _ Hc) as (o1 & Hc1).
  destruct (complete_run E _ _ _ _ _ _ _ Hc1)
    as (evs & Ht & Hn & Hev & Hh & Hcfg & _).
  split; [|split].
  - exists evs. split; [|split; [exact Hn|]].
    + unfold facade_run. cbn. rewrite Ht, Hh. auto.
    + eapply candidate_events_no_pacing. exact Hev.
  - reflexivity.
  - exists (self w1). split; [reflexivity | exact Hcfg].
Qed.

Lemma store_cache_run code r (w : world CodeComplexityAnalyzer) w' :
  store_cache E code r w = (Ok tt, w') ->
  (exists evs, facade_run w w' evs /\ count_posts evs = 0%nat
               /\ count_pacing evs = 0%nat)
  /\ _provider (self w') = _provider (self w)
  /\ (forall c, _analysis_cache (self w) = Some c ->
        exists c', _analysis_cache (self w') = Some c'
                   /\ _cache c' = <[_hash_code code :=
                                      (r, clock E (trace w ++ [ReadClock]))]>
                                    (_cache c))
  /\ (_analysis_cache (self w) = None -> w' = w).
Proof.
  unfold store_cache, on_cache, cache_set. unfold_monad.
  destruct (_analysis_cache (self w)) as [c|] eqn:Hc.
  - cbn. intros [= <-]. split; [|split; [|split]].
    + exists [ReadClock]. split; [|split; reflexivity]. unfold facade_run. cbn.
      rewrite Hc. auto.
    + reflexivity.
    + intros c0 [= <-]. eexists. split; reflexivity.
    + discriminate.
  - intros [= <-]. split; [|split; [|split]].
    + exists []. split; [apply facade_run_refl | split; reflexivity].
    + reflexivity.
    + discriminate.
    + reflexivity.
Qed.

(** What every analysis keeps, whatever its outcome. *)
Lemma analysis_frame code prompt sp wrap (w : world CodeComplexityAnalyzer) o w' :
  analysis E code prompt sp wrap w o w' ->
  exists evs, facade_run w w' evs /\ (count_posts evs <= 12)%nat
              /\ count_pacing evs = 0%nat.
Proof.
  intros Ha. destruct Ha as
    [r w' Hcheck
    | w1 e w' Hcheck Hp
    | w1 p w2 e w' Hcheck Hp Hreq
    | w1 p w2 response e w' Hcheck Hp Hreq Hparse
    | w1 p w2 response r w3 w' Hcheck Hp Hreq Hparse Hstore];
    destruct (check_cache_run _ _ _ _ Hcheck) as ((evs1 & Hf1 & Hn1 & Hs1) & _).
  - exists evs1. split; [exact Hf1 | split; [lia | exact Hs1]].
  - destruct (get_provider_run _ _ _ Hp) as (Hf2 & _).
    exists (evs1 ++ [])%list. split; [eapply facade_run_trans; eassumption|].
    rewrite count_posts_app, count_pacing_app. cbn. lia.
  - destruct (get_provider_run _ _ _ Hp) as (Hf2 & _).
    destruct (on_provider_run _ _ _ _ _ _ Hreq) as ((evs3 & Hf3 & Hn3 & Hs3) & _).
    exists ((evs1 ++ []) ++ evs3)%list.
    split; [repeat (eapply facade_run_trans; try eassumption)|].
    rewrite !count_posts_app, !count_pacing_app. cbn. lia.
  - destruct (get_provider_run _ _ _ Hp) as (Hf2 & _).
    destruct (on_provider_run _ _ _ _ _ _ Hreq) as ((evs3 & Hf3 & Hn3 & Hs3) & _).
    exists ((evs1 ++ []) ++ evs3)%list.
    split; [repeat (eapply facade_run_trans; try eassumption)|].
    rewrite !count_posts_app, !count_pacing_app. cbn. lia.
  - destruct (get_provider_run _ _ _ Hp) as (Hf2 & _).
    destruct (on_provider_run _ _ _ _ _ _ Hreq) as ((evs3 & Hf3 & Hn3 & Hs3) & _).
    destruct (store_cache_run _ _ _ _ Hstore) as ((evs4 & Hf4 & Hn4 & Hs4) & _).
    exists (((evs1 ++ []) ++ evs3) ++ evs4)%list.
    split; [repeat (eapply facade_run_trans; try eassumption)|].
    rewrite !count_posts_app, !count_pacing_app. cbn. lia.
Qed.

End FacadeRuns.

(** ** The facade *)

Section FacadeSpec.
Context `{RT : Runtime} (E : Env).

Lemma blank_analyze code options (w : world CodeComplexityAnalyzer) o w' :
  analyze E code options w = (o, w') -> is_blank code = true ->
  o = Raise (ValueError "Code cannot be empty") /\ w' = w.
Proof.
  unfold analyze. intros Ha Hb. rewrite Hb in Ha. injection Ha as <- <-. auto.
Qed.

Lemma blank_analyze_quick code (w : world CodeComplexityAnalyzer) o w' :
  analyze_quick E code w = (o, w') -> is_blank code = true ->
  o = Raise (ValueError "Code cannot be empty") /\ w' = w.
Proof.
  unfold analyze_quick. intros Ha Hb. rewrite Hb in Ha.
  injection Ha as <- <-. auto.
Qed.

Lemma analyze_run code options (w : world CodeComplexityAnalyzer) o w' :
  analyze E code options w = (o, w') ->
  exists evs, facade_run w w' evs /\ (count_posts evs <= 12)%nat
              /\ count_pacing evs = 0%nat.
Proof.
  intros Ha. destruct (is_blank code) eqn:Hb.
  - destruct (blank_analyze _ _ _ _ _ Ha Hb) as [_ ->].
    exists []. split; [apply facade_run_refl | cbn; split; [lia|reflexivity]].
  - eapply analysis_frame. eapply analyze_analysis; eassumption.
Qed.

Lemma analyze_quick_run code (w : world CodeComplexityAnalyzer) o w' :
  analyze_quick E code w = (o, w') ->
  exists evs, facade_run w w' evs /\ (count_posts evs <= 12)%nat
              /\ count_pacing evs = 0%nat.
Proof.
  intros Ha. destruct (is_blank code) eqn:Hb.
  - destruct (blank_analyze_quick _ _ _ _ Ha Hb) as [_ ->].
    exists []. split; [apply facade_run_refl | cbn; split; [lia|reflexivity]].
  - eapply analysis_frame. eapply analyze_quick_analysis; eassumption.
Qed.

(** X9.  A call of [analyze] or [analyze_quick], whatever its outcome,
    only appends events to the trace, at most twelve of them requests, and
    keeps the caller's options objects, the configuration of the facade and
    the TTL of its cache. *)
Theorem analyze_frame code options (w : world CodeComplexityAnalyzer) :
  (forall o w', analyze E code options w = (o, w') ->
     exists evs, facade_run w w' evs /\ (count_posts evs <= 12)%nat)
  /\ (forall o w', analyze_quick E code w = (o, w') ->
        exists evs, facade_run w w' evs /\ (count_posts evs <= 12)%nat).
Proof.
  split; intros o w' Ha.
  - destruct (analyze_run _ _ _ _ _ Ha) as (evs & Hf & Hn & _). eauto.
  - destruct (analyze_quick_run _ _ _ _ Ha) as (evs & Hf & Hn & _). eauto.
Qed.

Lemma analysis_failure_cache code prompt sp wrap
    (w : world CodeComplexityAnalyzer) e w' :
  analysis E code prompt sp wrap w (Raise e) w' ->
  cache_within (self w') (self w).
Proof.
  intros Ha. inversion Ha as
    [r w0 Hcheck
    | w1 e0 w0 Hcheck Hp
    | w1 p w2 e0 w0 Hcheck Hp Hreq
    | w1 p w2 response e0 w0 Hcheck Hp Hreq Hparse
    | w1 p w2 response r w3 w0 Hcheck Hp Hreq Hparse Hstore]; subst;
    destruct (check_cache_run E _ _ _ _ Hcheck) as (_ & _ & Hw1 & _).
  - destruct (get_provider_run E _ _ _ Hp) as (_ & _ & -> & _). exact Hw1.
  - destruct (get_provider_run E _ _ _ Hp) as (_ & Hc2 & _).
    destruct (on_provider_run E _ _ _ _ _ _ Hreq) as (_ & Hc3 & _).
    eapply cache_within_trans; [|exact Hw1].
    apply cache_within_eq. congruence.
  - destruct (get_provider_run E _ _ _ Hp) as (_ & Hc2 & _).
    destruct (on_provider_run E _ _ _ _ _ _ Hreq) as (_ & Hc3 & _).
    eapply cache_within_trans; [|exact Hw1].
    apply cache_within_eq. congruence.
Qed.

(** X10.  A call of [analyze] or [analyze_quick] that raises adds no entry
    to the cache: every entry present afterwards was present before. *)
Theorem failed_analysis_stores_nothing code options
    (w : world CodeComplexityAnalyzer) :
  (forall e w', analyze E code options w = (Raise e, w') ->
     cache_within (self w') (self w))
  /\ (forall e w', analyze_quick E code w = (Raise e, w') ->
        cache_within (self w') (self w)).
Proof.
  split; intros e w' Ha; destruct (is_blank code) eqn:Hb.
  - destruct (blank_analyze _ _ _ _ _ Ha Hb) as [_ ->]. apply cache_within_refl.
  - eapply analysis_failure_cache. eapply analyze_analysis; eassumption.
  - destruct (blank_analyze_quick _ _ _ _ Ha Hb) as [_ ->].
    apply cache_within_refl.
  - eapply analysis_failure_cache. eapply analyze_quick_analysis; eassumption.
Qed.

Lemma analysis_ok_cached code prompt sp wrap (w : world CodeComplexityAnalyzer)
    r w' :
  analysis E code prompt sp wrap w (Ok r) w' ->
  is_Some (_analysis_cache (self w)) ->
  exists c timestamp,
    _analysis_cache (self w') = Some c
    /\ _cache c !! _hash_code code = Some (r, timestamp).
Proof.
  intros Ha [c0 Hc0]. inversion Ha as
    [r0 w0 Hcheck
    | | |
    | w1 p w2 response r0 w3 w0 Hcheck Hp Hreq Hparse Hstore]; subst.
  - destruct (check_cache_run E _ _ _ _ Hcheck) as (_ & _ & _ & Hhit & _).
    destruct (Hhit r eq_refl) as (-> & c & ts & Hc & Hl). eauto.
  - destruct (check_cache_run E _ _ _ _ Hcheck) as ((evs & Hf1 & _) & _).
    destruct (get_provider_run E _ _ _ Hp) as (_ & Hc2 & _).
    destruct (on_provider_run E _ _ _ _ _ _ Hreq) as (_ & Hc3 & _).
    destruct Hf1 as (_ & _ & _ & Httl).
    rewrite Hc0 in Httl.
    destruct (_analysis_cache (self w1)) as [c1|] eqn:Hc1; [|discriminate].
    destruct (store_cache_run E _ _ _ _ Hstore) as (_ & _ & Hs & _).
    destruct (Hs c1 ltac:(congruence)) as (c' & Hc' & Hm).
    exists c', (clock E (trace w3 ++ [ReadClock])).
    split; [exact Hc'|]. rewrite Hm. apply lookup_insert_eq.
Qed.

Lemma analysis_hit_fresh code prompt sp wrap (w : world CodeComplexityAnalyzer)
    c r timestamp :
  _analysis_cache (self w) = Some c ->
  _cache c !! _hash_code code = Some (r, timestamp) ->
  (clock E (trace w ++ [ReadClock]) - timestamp <? _ttl c) = true ->
  forall o w', analysis E code prompt sp wrap w o w' ->
               o = Ok r /\ w' = emit ReadClock w.
Proof.
  intros Hc Hl Hfresh o w' Ha.
  assert (Hcheck : check_cache E code w = (Ok (Some r), emit ReadClock w)).
  { rewrite (check_cache_enabled E _ _ _ Hc), Hl, Hfresh. reflexivity. }
  inversion Ha; subst; try congruence.
  assert (Heq : (Ok (Some r0), w') = (Ok (Some r), emit ReadClock w))
    by congruence.
  injection Heq as -> ->. auto.
Qed.

Lemma ok_not_blank_analyze code options (w : world CodeComplexityAnalyzer) r w' :
  analyze E code options w = (Ok r, w') -> is_blank code = false.
Proof.
  intros Ha. destruct (is_blank code) eqn:Hb; [|reflexivity].
  destruct (blank_analyze _ _ _ _ _ Ha Hb) as [H _]. discriminate.
Qed.

Lemma ok_not_blank_quick code (w : world CodeComplexityAnalyzer) r w' :
  analyze_quick E code w = (Ok r, w') -> is_blank code = false.
Proof.
  intros Ha. destruct (is_blank code) eqn:Hb; [|reflexivity].
  destruct (blank_analyze_quick _ _ _ _ Ha Hb) as [H _]. discriminate.
Qed.

Lemma same_strip_blank code1 code2 :
  Str.strip code2 = Str.strip code1 -> is_blank code2 = is_blank code1.
Proof.
  intros Hs. rewrite !is_blank_only_whitespace.
  destruct (only_whitespace code1) eqn:H1.
  - apply strip_empty. rewrite Hs. apply strip_empty. exact H1.
  - destruct (only_whitespace code2) eqn:H2; [|reflexivity].
    apply strip_empty in H2. rewrite Hs in H2. apply strip_empty in H2.
    congruence.
Qed.

Lemma fresh_entry code (w2 : world CodeComplexityAnalyzer) c r timestamp :
  _analysis_cache (self w2) = Some c ->
  _cache c !! _hash_code (Str.strip code) = Some (r, timestamp) ->
  ttl_elapsed E code w2 = false ->
  (clock E (trace w2 ++ [ReadClock]) - timestamp <? _ttl c) = true.
Proof.
  intros Hc Hl. unfold ttl_elapsed. rewrite Hc, Hl. apply negb_false_iff.
Qed.

(** X11.  [analyze] and [analyze_quick] share one cache, keyed by the
    trimmed code alone: a result returned by one of them is returned by the
    other, for code that is equal once trimmed and whatever the options, from
    the cache, with a reading of the clock as the only event, while the TTL
    has not elapsed. *)
Theorem quick_and_full_share_cache code1 code2 options1 options2
    (w1 w1' w2 : world CodeComplexityAnalyzer) r :
  is_Some (_analysis_cache (self w1)) ->
  Str.strip code2 = Str.strip code1 ->
  _analysis_cache (self w2) = _analysis_cache (self w1') ->
  ttl_elapsed E code2 w2 = false ->
  (analyze_quick E code1 w1 = (Ok r, w1') ->
     analyze E code2 options2 w2 = (Ok r, emit ReadClock w2))
  /\ (analyze E code1 options1 w1 = (Ok r, w1') ->
        analyze_quick E code2 w2 = (Ok r, emit ReadClock w2)).
Proof.
  intros Hen Hs Hsame Hfresh. split; intros Ha.
  - pose proof (ok_not_blank_quick _ _ _ _ Ha) as Hb1.
    destruct (analysis_ok_cached _ _ _ _ _ _ _
                (analyze_quick_analysis E _ _ _ _ Ha Hb1) Hen)
      as (c & ts & Hc & Hl).
    rewrite <- Hsame in Hc. rewrite <- Hs in Hl.
    pose proof (fresh_entry _ _ _ _ _ Hc Hl Hfresh) as Hf.
    destruct (analyze E code2 options2 w2) as [o w'] eqn:Ha2.
    assert (Hb2 : is_blank code2 = false)
      by (rewrite (same_strip_blank _ _ Hs); exact Hb1).
    destruct (analysis_hit_fresh _ _ _ _ _ _ _ _ Hc Hl Hf _ _
                (analyze_analysis E _ _ _ _ _ Ha2 Hb2)) as [-> ->].
    reflexivity.
  - pose proof (ok_not_blank_analyze _ _ _ _ _ Ha) as Hb1.
    destruct (analysis_ok_cached _ _ _ _ _ _ _
                (analyze_analysis E _ _ _ _ _ Ha Hb1) Hen)
      as (c & ts & Hc & Hl).
    rewrite <- Hsame in Hc. rewrite <- Hs in Hl.
    pose proof (fresh_entry _ _ _ _ _ Hc Hl Hfresh) as Hf.
    destruct (analyze_quick E code2 w2) as [o w'] eqn:Ha2.
    assert (Hb2 : is_blank code2 = false)
      by (rewrite (same_strip_blank _ _ Hs); exact Hb1).
    destruct (analysis_hit_fresh _ _ _ _ _ _ _ _ Hc Hl Hf _ _
                (analyze_quick_analysis E _ _ _ _ Ha2 Hb2)) as [-> ->].
    reflexivity.
Qed.

Lemma analysis_ok_cases code prompt sp wrap (w : world CodeComplexityAnalyzer)
    r w' :
  analysis E code prompt sp wrap w (Ok r) w' ->
  (exists c timestamp,
      _analysis_cache (self w) = Some c
      /\ _cache c !! _hash_code code = Some (r, timestamp)
      /\ w' = emit ReadClock w)
  \/ (_analysis_cache (self w') = None <-> _analysis_cache (self w) = None)
      /\ exists evs,
           trace w' = (trace w ++ evs)%list
           /\ (1 <= count_posts evs <= 12)%nat.
Proof.
  intros Hrun.
  inversion Hrun as
    [r0 w0 Hcheck | | |
    | w1 p w2 response r0 w3 w0 Hcheck Hp Hreq Hparse Hstore]; subst.
  - left. destruct (check_cache_run E _ _ _ _ Hcheck) as (_ & _ & _ & Hhit & _).
    destruct (Hhit r eq_refl) as (_ & c & ts & Hc & Hl).
    exists c, ts. split; [exact Hc|]. split; [exact Hl|].
    rewrite (check_cache_enabled E _ _ _ Hc), Hl in Hcheck.
    destruct (_ <? _); [|discriminate]. congruence.
  - right.
    destruct (check_cache_run E _ _ _ _ Hcheck) as ((evs1 & Hf1 & Hn1 & _) & _).
    destruct (get_provider_run E _ _ _ Hp) as (Hf2 & _).
    destruct (on_provider_run E _ _ _ _ _ _ Hreq) as ((evs3 & Hf3 & Hn3 & _) & _).
    destruct (store_cache_run E _ _ _ _ Hstore) as ((evs4 & Hf4 & Hn4 & _) & _).
    pose proof (facade_run_trans _ _ _ _ _
                  (facade_run_trans _ _ _ _ _
                     (facade_run_trans _ _ _ _ _ Hf1 Hf2) Hf3) Hf4)
      as (Ht & _ & _ & Httl).
    split.
    + destruct (_analysis_cache (self w')), (_analysis_cache (self w));
        cbn in Httl; split; congruence.
    + eexists. split; [exact Ht|]. rewrite !count_posts_app. cbn. lia.
Qed.

Lemma analyze_ok_cases code options (w : world CodeComplexityAnalyzer) r w' :
  analyze E code options w = (Ok r, w') ->
  (exists c timestamp,
      _analysis_cache (self w) = Some c
      /\ _cache c !! _hash_code (Str.strip code) = Some (r, timestamp)
      /\ w' = emit ReadClock w)
  \/ (_analysis_cache (self w') = None <-> _analysis_cache (self w) = None)
      /\ exists evs,
           trace w' = (trace w ++ evs)%list
           /\ (1 <= count_posts evs <= 12)%nat.
Proof.
  intros Ha. eapply analysis_ok_cases.
  exact (analyze_analysis E _ _ _ _ _ Ha (ok_not_blank_analyze _ _ _ _ _ Ha)).
Qed.

Lemma analyze_quick_ok_cases code (w : world CodeComplexityAnalyzer) r w' :
  analyze_quick E code w = (Ok r, w') ->
  (exists c timestamp,
      _analysis_cache (self w) = Some c
      /\ _cache c !! _hash_code (Str.strip code) = Some (r, timestamp)
      /\ w' = emit ReadClock w)
  \/ (_analysis_cache (self w') = None <-> _analysis_cache (self w) = None)
      /\ exists evs,
           trace w' = (trace w ++ evs)%list
           /\ (1 <= count_posts evs <= 12)%nat.
Proof.
  intros Ha. eapply analysis_ok_cases.
  exact (analyze_quick_analysis E _ _ _ _ Ha (ok_not_blank_quick _ _ _ _ Ha)).
Qed.

(** X12.  A result [analyze] returns is either an entry of the cache for
    the trimmed code, returned after one reading of the clock and nothing
    else, or the outcome of at least one and at most twelve requests.  With
    the cache disabled it is always the latter, and the cache stays
    disabled. *)
Theorem analyze_success_origin code options (w : world CodeComplexityAnalyzer)
    r w' :
  analyze E code options w = (Ok r, w') ->
  ((exists c timestamp,
       _analysis_cache (self w) = Some c
       /\ _cache c !! _hash_code (Str.strip code) = Some (r, timestamp)
       /\ w' = emit ReadClock w)
   \/ (exists evs,
         trace w' = (trace w ++ evs)%list /\ (1 <= count_posts evs <= 12)%nat))
  /\ (_analysis_cache (self w) = None ->
        _analysis_cache (self w') = None
        /\ exists evs,
             trace w' = (trace w ++ evs)%list
             /\ (1 <= count_posts evs <= 12)%nat).
Proof.
  intros Ha. pose proof (analyze_ok_cases _ _ _ _ _ Ha) as Hcases.
  split.
  - destruct Hcases as [Hhit|[_ Hpost]]; [left; exact Hhit | right; exact Hpost].
  - intros Hnone. destruct Hcases as [(c & ts & Hc & _)|[Hiff Hpost]];
      [congruence|]. split; [apply Hiff; exact Hnone | exact Hpost].
Qed.

(** X13.  Without a provider, a configuration or a key in the environment
    (unset or empty), [analyze] and [analyze_quick] of code that is not blank
    and not cached raise the [ValueError] about [GROQ_API_KEY], send nothing
    and leave the facade without a provider. *)
Theorem analyze_without_api_key code options (w : world CodeComplexityAnalyzer) :
  _provider (self w) = None ->
  _groq_config (self w) = None ->
  getenv_api_key E = None \/ getenv_api_key E = Some EmptyString ->
  is_blank code = false ->
  (check_cache E (Str.strip code) w).1 = Ok None ->
  let w1 := (check_cache E (Str.strip code) w).2 in
  let missing :=
    ValueError
      "GROQ_API_KEY environment variable not set. Get your key from https://console.groq.com" in
  analyze E code options w = (Raise missing, w1)
  /\ analyze_quick E code w = (Raise missing, w1)
  /\ count_posts (trace w1) = count_posts (trace w)
  /\ _provider (self w1) = None.
Proof.
  intros Hp Hcfg Hkey Hb Hmiss w1 missing.
  destruct (check_cache E (Str.strip code) w) as [o w0] eqn:Hcheck.
  cbn in Hmiss, w1. subst o w1.
  destruct (check_cache_run E _ _ _ _ Hcheck) as ((evs & Hf & Hn & _) & Hp1 & _).
  assert (Hinit : _get_provider E w0 = (Raise missing, w0)).
  { unfold _get_provider. unfold_monad. rewrite Hp1, Hp.
    destruct Hf as (_ & _ & -> & _). rewrite Hcfg.
    unfold GroqProvider_init. destruct Hkey as [-> | ->]; reflexivity. }
  split; [|split; [|split]].
  - unfold analyze. rewrite Hb. unfold bind at 1. rewrite Hcheck.
    unfold bind at 1. rewrite Hinit. reflexivity.
  - unfold analyze_quick. rewrite Hb. unfold bind at 1. rewrite Hcheck.
    unfold bind at 1. rewrite Hinit. reflexivity.
  - destruct Hf as (-> & _). rewrite count_posts_app. lia.
  - congruence.
Qed.



End FacadeSpec.

(** ** Answers [_parse_result] does not survive *)

Section ParseEdges.
Context `{RT : Runtime} (E : Env).

(** X15.  Where [_parse_result] is not defensive: a response that is not a
    dictionary raises [AttributeError]; a [functions] value that is [None],
    a boolean or a number raises [TypeError], as it cannot be iterated; a
    [confidence_score] that is not a number raises [TypeError]. *)
Theorem parse_result_aborts :
  (forall response,
      match response with JDict _ => False | _ => True end ->
      _parse_result response = Raise (AttributeError response "get"))
  /\ (forall d v,
        assoc "functions" d = Some v ->
        match v with JNone | JBool _ | JInt _ | JFloat _ => True | _ => False end ->
        _parse_result (JDict d) = Raise (TypeError "object is not iterable" v))
  /\ (forall d v items,
        py_iter (field d "functions" (JList [])) = Ok items ->
        assoc "confidence_score" d = Some v ->
        is_number v = false ->
        exists what, _parse_result (JDict d) = Raise (TypeError what v)).
Proof.
  split; [|split].
  - intros response Hr. destruct response; try reflexivity. destruct Hr.
  - intros d v Hf Hv. rewrite parse_result_dict. unfold field. rewrite Hf.
    destruct v; try destruct Hv; reflexivity.
  - intros d v items Hitems Hc Hv. rewrite parse_result_dict, Hitems.
    cbn [obind]. unfold field at 1. rewrite Hc. unfold clamp.
    destruct v; try discriminate Hv; cbn; eauto.
Qed.

Lemma parse_function_not_dict v :
  match v with JDict _ => False | _ => True end -> kept v = None.
Proof.
  intros Hv. unfold kept, parse_function.
  destruct v; try reflexivity. destruct Hv.
Qed.

Lemma omap_kept_strings (l : list string) :
  omap kept (map JStr l) = [].
Proof.
  induction l as [|s l IH]; [reflexivity|].
  transitivity (omap kept (map JStr l)); [reflexivity | exact IH].
Qed.

(** X16.  A [functions] value that is a text or a dictionary is iterated,
    character by character or key by key, and every item is dropped: the
    outcome is the one for an empty list, and a result has no functions. *)
Theorem parse_result_functions_not_a_list d :
  (forall s,
      _parse_result (JDict (("functions", JStr s) :: d))
      = _parse_result (JDict (("functions", JList []) :: d)))
  /\ (forall entries,
        _parse_result (JDict (("functions", JDict entries) :: d))
        = _parse_result (JDict (("functions", JList []) :: d)))
  /\ (forall v r,
        match v with JStr _ | JDict _ => True | _ => False end ->
        _parse_result (JDict (("functions", v) :: d)) = Ok r ->
        functions r = []).
Proof.
  assert (Hs : forall s,
            _parse_result (JDict (("functions", JStr s) :: d))
            = _parse_result (JDict (("functions", JList []) :: d))).
  { intros s. rewrite !parse_result_dict. unfold field.
    cbn [assoc String.eqb Ascii.eqb Bool.eqb]. cbn [py_iter obind].
    rewrite !fold_parse_step.
    rewrite <- (map_map (fun c => String c EmptyString) JStr).
    rewrite omap_kept_strings. reflexivity. }
  assert (Hd : forall entries,
            _parse_result (JDict (("functions", JDict entries) :: d))
            = _parse_result (JDict (("functions", JList []) :: d))).
  { intros entries. rewrite !parse_result_dict. unfold field.
    cbn [assoc String.eqb Ascii.eqb Bool.eqb]. cbn [py_iter obind].
    rewrite !fold_parse_step.
    rewrite <- (map_map fst JStr).
    rewrite omap_kept_strings. reflexivity. }
  split; [exact Hs|]. split; [exact Hd|].
  intros v r Hv Hr.
  assert (Hnil : _parse_result (JDict (("functions", JList []) :: d)) = Ok r).
  { destruct v as [| | | |s| |entries]; try destruct Hv;
      [rewrite <- (Hs s) | rewrite <- (Hd entries)]; exact Hr. }
  rewrite parse_result_dict in Hnil. unfold field at 1 in Hnil.
  cbn [assoc String.eqb Ascii.eqb Bool.eqb py_iter obind] in Hnil.
  destruct (clamp _) as [c|]; [|discriminate]. cbn [obind] in Hnil.
  apply init_ok in Hnil as (_ & _ & _ & _ & Hf & _). exact Hf.
Qed.

End ParseEdges.

(** ** Paths *)

Lemma find_lacks c s : Str.find c s = -1 -> lacks c s.
Proof.
  intros Hf. unfold Str.find in Hf.
  destruct (find_from_spec c s 0 ltac:(lia)) as [[_ H]|(i & Hi & _)];
    [exact H | lia].
Qed.

Lemma lacks_rfind c s : lacks c s -> Str.rfind c s = -1.
Proof.
  intros Hl. unfold Str.rfind.
  destruct (rfind_from_spec c s 0 ltac:(lia)) as [[H _]|(i & _ & Hi & _)];
    [exact H | destruct (Hl i Hi)].
Qed.

Lemma string_get_app_l k a b :
  (k < String.length a)%nat -> String.get k (a ++ b) = String.get k a.
Proof.
  revert k. induction a as [|c a IH]; intros k Hk; simpl in *; [lia|].
  destruct k; [reflexivity|]. apply IH. lia.
Qed.

Lemma string_get_app_r k a b :
  String.get (String.length a + k) (a ++ b) = String.get k b.
Proof. induction a as [|c a IH]; simpl; [reflexivity | exact IH]. Qed.

Lemma lacks_app c a b : lacks c a -> lacks c b -> lacks c (a ++ b).
Proof.
  intros Ha Hb k.
  destruct (Nat.lt_ge_cases k (String.length a)) as [Hk|Hk].
  - rewrite string_get_app_l by exact Hk. apply Ha.
  - replace k with (String.length a + (k - String.length a))%nat by lia.
    rewrite string_get_app_r. apply Hb.
Qed.

Lemma lacks_cons c d s : c <> d -> lacks c s -> lacks c (String d s).
Proof.
  intros Hcd Hs [|k]; simpl; [congruence | apply Hs].
Qed.

Lemma rfind_app c a b :
  lacks c b -> Str.rfind c (a ++ String c b) = Z.of_nat (String.length a).
Proof.
  intros Hb. apply rfind_last. split.
  - replace (String.length a) with (String.length a + 0)%nat by lia.
    rewrite string_get_app_r. reflexivity.
  - intros k Hk.
    replace k with (String.length a + S (k - String.length a - 1))%nat by lia.
    rewrite string_get_app_r. simpl. apply Hb.
Qed.

Lemma string_length_app a b :
  String.length (a ++ b) = (String.length a + String.length b)%nat.
Proof. induction a as [|c a IH]; simpl; [reflexivity | rewrite IH; reflexivity]. Qed.

Lemma substring_all s : substring 0 (String.length s) s = s.
Proof. induction s as [|c s IH]; simpl; [reflexivity | rewrite IH; reflexivity]. Qed.

Lemma substring_app a b :
  substring (String.length a) (String.length b) (a ++ b) = b.
Proof. induction a as [|c a IH]; simpl; [apply substring_all | exact IH]. Qed.

Lemma slice_tail a b :
  Str.slice (Z.of_nat (String.length a))
    (Z.of_nat (String.length (a ++ b))) (a ++ b) = b.
Proof.
  unfold Str.slice. rewrite string_length_app, Nat2Z.id.
  replace (Z.to_nat _) with (String.length b) by lia.
  apply substring_app.
Qed.

Lemma string_append_assoc (a b c : string) : ((a ++ b) ++ c = a ++ (b ++ c))%string.
Proof.
  induction a as [|x a IH]; [reflexivity|].
  change (String x ((a ++ b) ++ c) = String x (a ++ (b ++ c))).
  f_equal. exact IH.
Qed.

(** A file name [stem.ext] under a directory prefix. *)
Lemma path_name_of dir name :
  dir = EmptyString \/ (exists d, dir = d ++ "/") ->
  lacks "/" name ->
  path_name (dir ++ name) = name.
Proof.
  intros Hdir Hname. unfold path_name.
  destruct Hdir as [->|(d & ->)].
  - simpl. rewrite lacks_rfind by exact Hname.
    change (-1 + 1) with (Z.of_nat (String.length "")).
    apply (slice_tail "" name).
  - rewrite string_append_assoc. change ("/" ++ name) with (String "/" name).
    rewrite rfind_app by exact Hname.
    replace (Z.of_nat (String.length d) + 1)
      with (Z.of_nat (String.length (d ++ "/"))) by (rewrite string_length_app; simpl; lia).
    change (d ++ String "/" name) with (d ++ ("/" ++ name)).
    rewrite <- string_append_assoc. apply slice_tail.
Qed.

Lemma path_suffix_of dir stem ext :
  dir = EmptyString \/ (exists d, dir = d ++ "/") ->
  stem <> EmptyString -> lacks "/" stem ->
  ext <> EmptyString -> lacks "/" ext -> lacks "." ext ->
  path_suffix (dir ++ stem ++ "." ++ ext) = "." ++ ext.
Proof.
  intros Hdir Hstem Hs Hext He1 He2. unfold path_suffix. cbv zeta.
  rewrite path_name_of; [|exact Hdir|].
  2:{ apply lacks_app; [exact Hs|]. apply lacks_cons; [discriminate|exact He1]. }
  change ("." ++ ext) with (String "." ext).
  rewrite rfind_app by exact He2.
  assert (0 < Z.of_nat (String.length stem)).
  { destruct stem; [congruence | simpl; lia]. }
  assert (0 < Z.of_nat (String.length ext)).
  { destruct ext; [congruence | simpl; lia]. }
  destruct (Z.ltb_spec 0 (Z.of_nat (String.length stem))); [|lia].
  rewrite string_length_app. cbn [String.length].
  destruct (Z.ltb_spec (Z.of_nat (String.length stem))
              (Z.of_nat (String.length stem + S (String.length ext)) - 1));
    [|lia].
  cbn [andb].
  change (String "." ext) with ("." ++ ext).
  replace (Z.of_nat (String.length stem + S (String.length ext)))
    with (Z.of_nat (String.length (stem ++ "." ++ ext)))
    by (rewrite string_length_app; reflexivity).
  apply slice_tail.
Qed.

(** ** Options, files, comparison and closing *)

Section FacadeMore.
Context `{RT : Runtime} (E : Env).

Lemma same_prompt code o o' :
  same_prompt_options o o' ->
  PromptBuilder.build_analysis_prompt code (Some o)
  = PromptBuilder.build_analysis_prompt code (Some o').
Proof.
  intros (Hf & Hs & Hc & Hh). unfold PromptBuilder.build_analysis_prompt.
  cbv zeta. rewrite Hf, Hs, Hc.
  assert (Hl : match language_hint o with
               | Some hint =>
                   if Str.truthy hint then
                     ("
The code is written in " ++ hint ++ ".")%string
                   else ""%string
               | None => ""%string
               end
               = match language_hint o' with
                 | Some hint =>
                     if Str.truthy hint then
                       ("
The code is written in " ++ hint ++ ".")%string
                     else ""%string
                 | None => ""%string
                 end).
  { destruct Hh as [->|[H1 H2]]; [reflexivity|].
    unfold hint_unset in H1, H2.
    destruct (language_hint o) as [h|], (language_hint o') as [h'|];
      try destruct (Str.truthy h); try destruct (Str.truthy h');
      try discriminate; reflexivity. }
  rewrite Hl. reflexivity.
Qed.

Lemma embed_code (A B Rl T B' Rl' : string) :
  B = B' ++ "```
" ->
  Rl = "
```" ++ Rl' ->
  forall code,
    A ++ B ++ code ++ Rl ++ T
    = (A ++ B') ++ "```
" ++ code ++ "
```" ++ Rl' ++ T.
Proof.
  intros -> -> code. rewrite !string_append_assoc. reflexivity.
Qed.

Lemma embed_code_twice (B M Rl T B' M' Rl' : string) :
  B = B' ++ "```
" ->
  M = "
```" ++ M' ++ "```
" ->
  Rl = "
```" ++ Rl' ->
  forall code1 code2,
    B ++ code1 ++ M ++ code2 ++ Rl ++ T
    = B' ++ "```
" ++ code1 ++ "
```" ++ M' ++ "```
" ++ code2 ++ "
```" ++ Rl' ++ T.
Proof.
  intros -> -> -> code1 code2. rewrite !string_append_assoc. reflexivity.
Qed.

(** The text before and after the fences of a prompt, computed from the
    literals around the code. *)
Ltac embed_once :=
  lazymatch goal with
  | |- exists pre post, forall code, ?B ++ code ++ ?Rl ++ ?T = _ =>
      let B' := eval vm_compute in (substring 0 (String.length B - 4) B) in
      let Rl' := eval vm_compute in (substring 4 (String.length Rl - 4) Rl) in
      exists (EmptyString ++ B'), (Rl' ++ T); intros code;
      exact (embed_code EmptyString B Rl T B' Rl'
               ltac:(vm_compute; reflexivity)
               ltac:(vm_compute; reflexivity) code)
  | |- exists pre post, forall code, ?A1 ++ ?A2 ++ ?B ++ code ++ ?Rl ++ ?T = _ =>
      let B' := eval vm_compute in (substring 0 (String.length B - 4) B) in
      let Rl' := eval vm_compute in (substring 4 (String.length Rl - 4) Rl) in
      exists ((A1 ++ A2) ++ B'), (Rl' ++ T); intros code;
      rewrite <- (string_append_assoc A1 A2);
      exact (embed_code (A1 ++ A2) B Rl T B' Rl'
               ltac:(vm_compute; reflexivity)
               ltac:(vm_compute; reflexivity) code)
  end.

Ltac embed_twice :=
  lazymatch goal with
  | |- exists pre mid post, forall code1 code2,
         ?B ++ code1 ++ ?M ++ code2 ++ ?Rl ++ ?T = _ =>
      let B' := eval vm_compute in (substring 0 (String.length B - 4) B) in
      let M' := eval vm_compute in (substring 4 (String.length M - 8) M) in
      let Rl' := eval vm_compute in (substring 4 (String.length Rl - 4) Rl) in
      exists B', M', (Rl' ++ T); intros code1 code2;
      exact (embed_code_twice B M Rl T B' M' Rl'
               ltac:(vm_compute; reflexivity)
               ltac:(vm_compute; reflexivity)
               ltac:(vm_compute; reflexivity) code1 code2)
  end.

(** X23.  Each of the four prompts carries the code it is given unchanged,
    neither escaped nor truncated, between a line of three backquotes and a
    line of three backquotes; the text before and after does not depend on
    the code (for the analysis prompt it depends on the options only). *)
Theorem prompts_embed_code :
  (forall options, exists pre post, forall code,
      PromptBuilder.build_analysis_prompt code options
      = pre ++ "```
" ++ code ++ "
```" ++ post)
  /\ (exists pre post, forall code,
        PromptBuilder.build_quick_analysis_prompt code
        = pre ++ "```
" ++ code ++ "
```" ++ post)
  /\ (exists pre post, forall code,
        build_function_extraction_prompt code
        = pre ++ "```
" ++ code ++ "
```" ++ post)
  /\ (exists pre mid post, forall code1 code2,
        build_comparison_prompt code1 code2
        = pre ++ "```
" ++ code1 ++ "
```" ++ mid ++ "```
" ++ code2 ++ "
```" ++ post).
Proof.
  split; [|split; [|split]].
  - intros options. unfold PromptBuilder.build_analysis_prompt. cbv zeta.
    embed_once.
  - unfold PromptBuilder.build_quick_analysis_prompt. embed_once.
  - unfold build_function_extraction_prompt. embed_once.
  - unfold build_comparison_prompt. embed_twice.
Qed.

(** X17.  [analyze] reads four options only: two options objects that
    agree on [analyze_functions], [include_suggestions],
    [include_best_worst_case] and on the language hint (an empty hint
    counting as none) give the same run.  [detailed_mode] and
    [detect_language] have no effect. *)
Theorem analyze_reads_four_options code o o' (w : world CodeComplexityAnalyzer) :
  same_prompt_options o o' ->
  analyze E code (Some o) w = analyze E code (Some o') w.
Proof.
  intros Hsame. unfold analyze. cbv zeta.
  rewrite (same_prompt (Str.strip code) o o' Hsame). reflexivity.
Qed.

Lemma analyze_heap code options (w : world CodeComplexityAnalyzer) :
  heap (analyze E code options w).2 = heap w.
Proof.
  destruct (analyze E code options w) as [o w'] eqn:Ha.
  destruct (analyze_run E _ _ _ _ _ Ha) as (evs & (_ & Hh & _) & _).
  exact Hh.
Qed.

Lemma analyze_file_run file_path code (w : world CodeComplexityAnalyzer) :
  file_system E file_path = Some (RegularFile (Some code)) ->
  let derived := table_get (Str.lower (path_suffix file_path)) ext_to_lang in
  (forall r o, heap w !! r = Some o -> hint_unset o = false ->
      analyze_file E file_path (Some r) w = analyze E code (Some o) w)
  /\ (forall r o, heap w !! r = Some o -> hint_unset o = true ->
        let o' := set_language_hint derived o in
        let w1 := World (self w) (<[r := o']> (heap w)) (trace w) in
        analyze_file E file_path (Some r) w = analyze E code (Some o') w1
        /\ heap (analyze_file E file_path (Some r) w).2 = <[r := o']> (heap w))
  /\ (let o' := set_language_hint derived default_options in
      let w1 := World (self w) (heap w ++ [o']) (trace w) in
      analyze_file E file_path None w = analyze E code (Some o') w1
      /\ heap (analyze_file E file_path None w).2 = (heap w ++ [o'])%list).
Proof.
  intros Hfile derived. split; [|split].
  - intros r o Hr Hset. unfold analyze_file. rewrite Hfile.
    unfold deref, assign, alloc. unfold_monad. rewrite Hr, Hset, Hr.
    reflexivity.
  - intros r o Hr Hset o' w1.
    assert (Hrun : analyze_file E file_path (Some r) w
                   = analyze E code (Some o') w1).
    { unfold analyze_file. rewrite Hfile.
      unfold deref, assign, alloc. unfold_monad. rewrite Hr, Hset.
      cbn [heap]. rewrite list_lookup_insert_eq;
        [reflexivity | eapply lookup_lt_Some; exact Hr]. }
    split; [exact Hrun|]. rewrite Hrun, analyze_heap. reflexivity.
  - intros o' w1.
    assert (Hrun : analyze_file E file_path None w
                   = analyze E code (Some o') w1).
    { unfold analyze_file. rewrite Hfile.
      unfold deref, assign, alloc. unfold_monad. cbn [heap].
      rewrite lookup_app_r, Nat.sub_diag by lia. cbn [lookup list_lookup].
      change (hint_unset default_options) with true. cbv iota.
      cbn [heap self trace].
      rewrite insert_app_r_alt, Nat.sub_diag by lia. cbn [insert list_insert].
      rewrite lookup_app_r, Nat.sub_diag by (rewrite ?length_app; lia).
      reflexivity. }
    split; [exact Hrun|]. rewrite Hrun, analyze_heap. reflexivity.
Qed.

(** X18.  On a readable file [analyze_file] is [analyze] of the text of the
    file: with the caller's options as they are when they carry a hint that
    is not empty; otherwise with the hint looked up from the lower-cased
    suffix of the path, written into the caller's object, or into a new
    object at the end of the heap when no options were passed.  No other
    object changes. *)
Theorem analyze_file_delegates file_path code (w : world CodeComplexityAnalyzer) :
  file_system E file_path = Some (RegularFile (Some code)) ->
  let derived := table_get (Str.lower (path_suffix file_path)) ext_to_lang in
  (forall r o, heap w !! r = Some o -> hint_unset o = false ->
      analyze_file E file_path (Some r) w = analyze E code (Some o) w)
  /\ (forall r o, heap w !! r = Some o -> hint_unset o = true ->
        let o' := set_language_hint derived o in
        let w1 := World (self w) (<[r := o']> (heap w)) (trace w) in
        analyze_file E file_path (Some r) w = analyze E code (Some o') w1
        /\ heap (analyze_file E file_path (Some r) w).2 = <[r := o']> (heap w))
  /\ (let o' := set_language_hint derived default_options in
      let w1 := World (self w) (heap w ++ [o']) (trace w) in
      analyze_file E file_path None w = analyze E code (Some o') w1
      /\ heap (analyze_file E file_path None w).2 = (heap w ++ [o'])%list).
Proof. apply analyze_file_run. Qed.

(** X19.  For a path [dir/stem.ext] (a non-empty stem, an extension
    without dot or slash) the hint [analyze_file] supplies is the entry of
    its table for the dot followed by the lower-cased extension, so the case
    of the extension does not matter. *)
Theorem analyze_file_hint_by_extension dir stem ext code
    (w : world CodeComplexityAnalyzer) :
  dir = EmptyString \/ (exists d, dir = d ++ "/") ->
  stem <> EmptyString -> Str.find "/" stem = -1 ->
  ext <> EmptyString -> Str.find "/" ext = -1 -> Str.find "." ext = -1 ->
  let file_path := dir ++ stem ++ "." ++ ext in
  file_system E file_path = Some (RegularFile (Some code)) ->
  let hint := table_get ("." ++ Str.lower ext) ext_to_lang in
  (let o' := set_language_hint hint default_options in
   analyze_file E file_path None w
   = analyze E code (Some o') (World (self w) (heap w ++ [o']) (trace w)))
  /\ (forall r o, heap w !! r = Some o -> hint_unset o = true ->
        let o' := set_language_hint hint o in
        analyze_file E file_path (Some r) w
        = analyze E code (Some o')
            (World (self w) (<[r := o']> (heap w)) (trace w))).
Proof.
  intros Hdir Hstem Hs Hext He1 He2 file_path Hfile hint.
  assert (Hsuffix : table_get (Str.lower (path_suffix file_path)) ext_to_lang
                    = hint).
  { unfold file_path. rewrite path_suffix_of; auto using find_lacks. }
  destruct (analyze_file_run file_path code w Hfile) as (_ & Hsome & Hnone).
  cbv zeta in Hsome, Hnone. rewrite Hsuffix in Hsome, Hnone. split.
  - exact (proj1 Hnone).
  - intros r o Hr Hset. exact (proj1 (Hsome r o Hr Hset)).
Qed.

Lemma provider_close_run (w : world GroqProvider) :
  exists w', provider_close w = (Ok tt, w')
             /\ trace w' = trace w /\ heap w' = heap w.
Proof.
  unfold provider_close. unfold_monad.
  destruct (_client (self w)) as [c|]; [destruct (is_closed c)|]; cbn;
    eexists; split; try reflexivity; auto.
Qed.

Lemma close_run (w : world CodeComplexityAnalyzer) :
  close w
  = (Ok tt,
     match _provider (self w) with
     | Some _ => with_self (set_provider None (self w)) w
     | None => w
     end).
Proof.
  unfold close, on_provider, call. unfold_monad.
  destruct (_provider (self w)) as [p|] eqn:Hp; [|reflexivity].
  destruct (provider_close_run (with_self p w)) as (w1 & -> & Ht & Hh).
  cbn. rewrite Ht, Hh. reflexivity.
Qed.

(** X20.  [close] never fails and can be repeated; it produces no event,
    keeps the cache and the configuration, and leaves the facade without a
    provider: the statistics are reduced to [cache_enabled], and a provider
    created afterwards starts with its counters at zero and no client. *)
Theorem close_forgets_provider (w : world CodeComplexityAnalyzer) :
  exists w',
    close w = (Ok tt, w')
    /\ close w' = (Ok tt, w')
    /\ _provider (self w') = None
    /\ _analysis_cache (self w') = _analysis_cache (self w)
    /\ _groq_config (self w') = _groq_config (self w)
    /\ trace w' = trace w /\ heap w' = heap w
    /\ get_stats (self w')
       = [("cache_enabled",
           JBool (bool_decide (is_Some (_analysis_cache (self w)))))]
    /\ (forall p w2, _get_provider E w' = (Ok p, w2) ->
          _request_count p = 0 /\ _total_tokens_used p = PInt 0
          /\ _client p = None).
Proof.
  eexists. split; [apply close_run|].
  destruct (_provider (self w)) as [p|] eqn:Hp.
  - split; [rewrite close_run; reflexivity|].
    repeat split; try reflexivity.
    all: revert H; unfold _get_provider; unfold_monad; cbn;
      unfold GroqProvider_init;
      destruct (_groq_config (self w));
        [|destruct (getenv_api_key E) as [k|]; [destruct (Str.truthy k)|]];
      intros [= <- _]; reflexivity.
  - split; [rewrite close_run, Hp; reflexivity|].
    split; [exact Hp|]. split; [reflexivity|]. split; [reflexivity|].
    split; [reflexivity|]. split; [reflexivity|]. split.
    + unfold get_stats. rewrite Hp. reflexivity.
    + intros p w2. unfold _get_provider. unfold_monad. rewrite Hp.
      unfold GroqProvider_init.
      destruct (_groq_config (self w));
        [|destruct (getenv_api_key E) as [k|]; [destruct (Str.truthy k)|]];
      intros [= <- _]; auto.
Qed.

(** X21.  [compare] neither reads nor writes the cache and does not check
    its inputs: when the provider cannot be created it raises that error and
    changes nothing; otherwise it sends at least one and at most twelve
    requests, whatever the two codes are. *)
Theorem compare_bypasses_cache code1 code2 (w : world CodeComplexityAnalyzer) :
  (forall e w1, _get_provider E w = (Raise e, w1) ->
     compare E code1 code2 w = (Raise e, w))
  /\ (forall o w',
        compare E code1 code2 w = (o, w') ->
        _analysis_cache (self w') = _analysis_cache (self w)
        /\ exists evs,
             facade_run w w' evs /\ (count_posts evs <= 12)%nat
             /\ ((exists p w1, _get_provider E w = (Ok p, w1)) ->
                 (1 <= count_posts evs)%nat)).
Proof.
  split.
  - intros e w1 Hp. unfold compare. cbv zeta. unfold bind. rewrite Hp.
    destruct (get_provider_run E _ _ _ Hp) as (_ & _ & -> & _). reflexivity.
  - intros o w'. unfold compare. cbv zeta. unfold bind at 1.
    destruct (_get_provider E w) as [[p|e] w1] eqn:Hp.
    + intros Hreq.
      destruct (get_provider_run E _ _ _ Hp) as (Hf1 & Hc1 & _).
      destruct (on_provider_run E _ _ _ _ _ _ Hreq)
        as ((evs & Hf2 & Hn & _) & Hc2 & _).
      split; [congruence|]. exists ([] ++ evs)%list.
      split; [eapply facade_run_trans; eassumption|].
      change ([] ++ evs)%list with evs. split; [lia | intros _; lia].
    + intros [= <- <-].
      destruct (get_provider_run E _ _ _ Hp) as (_ & _ & -> & _).
      split; [reflexivity|]. exists []. split; [apply facade_run_refl|].
      split; [cbn; lia|]. intros (p & w2 & [=]).
Qed.

End FacadeMore.

(** ** Wrapped text *)

Lemma py_split_words s : Forall (fun w => is_word w = true) (py_split s).
Proof.
  induction s as [|c s IH]; cbn [py_split]; [constructor|].
  destruct (Str.isspace c) eqn:Hc; [exact IH|].
  destruct (starts_word s) eqn:Hs.
  - destruct (py_split s) as [|word words] eqn:Hsplit.
    + constructor; [|constructor]. unfold is_word. cbn. rewrite Hc. reflexivity.
    + inversion IH as [|? ? Hw Hws]; subst. constructor; [|exact Hws].
      unfold is_word in *. cbn. rewrite Hc. cbn.
      apply andb_true_iff in Hw. tauto.
  - constructor; [|exact IH]. unfold is_word. cbn. rewrite Hc. reflexivity.
Qed.

Lemma py_split_starts s :
  starts_word s = true ->
  exists word words, py_split s = word :: words.
Proof.
  destruct s as [|c s]; cbn; [discriminate|].
  intros Hc. apply negb_true_iff in Hc. rewrite Hc.
  destruct (starts_word s); [destruct (py_split s)|]; eauto.
Qed.

Lemma py_split_word w : is_word w = true -> py_split w = [w].
Proof.
  unfold is_word. destruct w as [|c w]; [discriminate|]. cbn [Str.truthy andb].
  revert c. induction w as [|d w IH]; intros c Hw.
  - cbn in *. apply andb_true_iff in Hw as [Hc _].
    apply negb_true_iff in Hc. rewrite Hc. reflexivity.
  - cbn [no_space] in Hw. apply andb_true_iff in Hw as [Hc Hw].
    specialize (IH d Hw). cbn [py_split] in *.
    apply negb_true_iff in Hc. rewrite Hc.
    cbn [no_space] in Hw. apply andb_true_iff in Hw as [Hd _].
    cbn [starts_word]. rewrite Hd. rewrite IH. reflexivity.
Qed.

Lemma py_split_word_space w rest :
  is_word w = true ->
  py_split (w ++ String " " rest) = w :: py_split rest.
Proof.
  unfold is_word. destruct w as [|c w]; [discriminate|]. cbn [Str.truthy andb].
  revert c. induction w as [|d w IH]; intros c Hw.
  - cbn in Hw. apply andb_true_iff in Hw as [Hc _].
    apply negb_true_iff in Hc.
    change (String c "" ++ String " " rest) with (String c (String " " rest)).
    cbn [py_split]. rewrite Hc. reflexivity.
  - cbn [no_space] in Hw. apply andb_true_iff in Hw as [Hc Hw].
    specialize (IH d Hw).
    change (String c (String d w) ++ String " " rest)
      with (String c (String d w ++ String " " rest)).
    cbn [py_split]. apply negb_true_iff in Hc. rewrite Hc.
    cbn [no_space] in Hw. apply andb_true_iff in Hw as [Hd _].
    change (String d w ++ String " " rest)
      with (String d (w ++ String " " rest)) in *.
    cbn [starts_word]. rewrite Hd. rewrite IH. reflexivity.
Qed.

(** Splitting undoes joining with one space. *)
Lemma py_split_join words :
  Forall (fun w => is_word w = true) words ->
  py_split (py_join " " words) = words.
Proof.
  induction 1 as [|w words Hw Hws IH]; [reflexivity|].
  destruct words as [|w' words'].
  - cbn. apply py_split_word. exact Hw.
  - change (py_join " " (w :: w' :: words'))
      with (w ++ String " " (py_join " " (w' :: words'))).
    rewrite py_split_word_space by exact Hw. rewrite IH. reflexivity.
Qed.

Lemma flat_split_flush lines current_line :
  Forall (fun w => is_word w = true) current_line ->
  flat_map py_split (flush lines current_line)
  = (flat_map py_split lines ++ current_line)%list.
Proof.
  intros Hw. destruct current_line as [|w ws].
  - cbn. rewrite app_nil_r. reflexivity.
  - unfold flush. rewrite flat_map_app. cbn [flat_map].
    rewrite py_split_join by exact Hw. rewrite app_nil_r. reflexivity.
Qed.

Lemma wrap_loop_words width words :
  forall lines current_line n lines' current_line',
    wrap_loop width words lines current_line n = (lines', current_line') ->
    Forall (fun w => is_word w = true) words ->
    Forall (fun w => is_word w = true) current_line ->
    Forall (fun w => is_word w = true) current_line'
    /\ flat_map py_split (flush lines' current_line')
       = (flat_map py_split (flush lines current_line) ++ words)%list.
Proof.
  induction words as [|word words IH];
    intros lines current_line n lines' current_line' Hrun Hwords Hcur.
  - cbn in Hrun. injection Hrun as <- <-. rewrite app_nil_r. auto.
  - inversion Hwords as [|? ? Hword Hrest]; subst. cbn [wrap_loop] in Hrun.
    destruct (n + py_len word + 1 <=? width).
    + assert (Hcur' : Forall (fun w => is_word w = true) (current_line ++ [word]))
        by (apply Forall_app; auto).
      destruct (IH _ _ _ _ _ Hrun Hrest Hcur') as [Hc' ->].
      split; [exact Hc'|].
      rewrite !flat_split_flush by assumption.
      rewrite <- !app_assoc. reflexivity.
    + assert (Hcur' : Forall (fun w => is_word w = true) [word]) by auto.
      destruct (IH _ _ _ _ _ Hrun Hrest Hcur') as [Hc' ->].
      split; [exact Hc'|].
      rewrite (flat_split_flush (flush lines current_line) [word]) by assumption.
      rewrite <- app_assoc. reflexivity.
Qed.

Lemma py_len_app a b : py_len (a ++ b) = py_len a + py_len b.
Proof.
  unfold py_len. induction a as [|c a IH];
    [change (EmptyString ++ b) with b; cbn; lia|].
  change (String c a ++ b) with (String c (a ++ b)).
  cbn [String.length]. lia.
Qed.

Lemma py_join_snoc_len current_line word :
  py_len (py_join " " (current_line ++ [word]))
  = match current_line with
    | [] => py_len word
    | _ => py_len (py_join " " current_line) + 1 + py_len word
    end.
Proof.
  induction current_line as [|w ws IH]; [reflexivity|].
  destruct ws as [|w' ws'].
  - change (py_join " " ([w] ++ [word])) with (w ++ " " ++ word).
    rewrite !py_len_app. change (py_join " " [w]) with w.
    change (py_len " ") with 1. lia.
  - change (py_join " " ((w :: w' :: ws') ++ [word]))
      with (w ++ " " ++ py_join " " ((w' :: ws') ++ [word])).
    change (py_join " " (w :: w' :: ws'))
      with (w ++ " " ++ py_join " " (w' :: ws')).
    rewrite !py_len_app, IH. change (py_len " ") with 1. lia.
Qed.

(** A line fits the width, or is one of the words, too long to fit. *)
Lemma wrap_loop_fits width all words :
  forall lines current_line n lines' current_line',
    wrap_loop width words lines current_line n = (lines', current_line') ->
    (forall w, In w words -> In w all) ->
    Forall (fun line => py_len line <= width \/ In line all) lines ->
    py_len (py_join " " current_line) <= n ->
    current_line = [] \/ n <= width
    \/ (exists w, current_line = [w] /\ In w all) ->
    Forall (fun line => py_len line <= width \/ In line all)
      (flush lines' current_line').
Proof.
  induction words as [|word words IH];
    intros lines current_line n lines' current_line' Hrun Hall Hlines Hlen Hcur.
  - cbn in Hrun. injection Hrun as <- <-.
    destruct current_line as [|w ws]; [exact Hlines|].
    unfold flush. apply Forall_app. split; [exact Hlines|].
    constructor; [|constructor].
    destruct Hcur as [Hnil|[Hn|(w0 & Hw0 & Hin)]]; [discriminate|left; lia|].
    injection Hw0 as -> ->. right. exact Hin.
  - cbn [wrap_loop] in Hrun.
    assert (Hall' : forall w, In w words -> In w all)
      by (intros w Hw; apply Hall; right; exact Hw).
    destruct (Z.leb_spec (n + py_len word + 1) width) as [Hfit|Hfit].
    + apply (IH _ _ _ _ _ Hrun Hall' Hlines).
      * rewrite py_join_snoc_len. destruct current_line; [|lia].
        assert (0 <= n) by (cbn in Hlen; unfold py_len in Hlen; cbn in Hlen; lia).
        lia.
      * right. left. exact Hfit.
    + apply (IH _ _ _ _ _ Hrun Hall').
      * destruct current_line as [|w ws]; [exact Hlines|].
        unfold flush. apply Forall_app. split; [exact Hlines|].
        constructor; [|constructor].
        destruct Hcur as [Hnil|[Hn|(w0 & Hw0 & Hin)]];
          [discriminate|left; lia|].
        injection Hw0 as -> ->. right. exact Hin.
      * cbn. lia.
      * right. right. exists word. split; [reflexivity|].
        apply Hall. left. reflexivity.
Qed.

Lemma py_join_nonempty w ws :
  is_word w = true -> py_join " " (w :: ws) <> EmptyString.
Proof.
  destruct w as [|c w]; [discriminate|]. intros _.
  destruct ws as [|w' ws']; [discriminate|].
  change (py_join " " (String c w :: w' :: ws'))
    with (String c (w ++ " " ++ py_join " " (w' :: ws'))).
  discriminate.
Qed.

Lemma flush_nonempty lines current_line :
  Forall (fun line => line <> EmptyString) lines ->
  Forall (fun w => is_word w = true) current_line ->
  Forall (fun line => line <> EmptyString) (flush lines current_line).
Proof.
  intros Hlines Hcur. destruct current_line as [|w ws]; [exact Hlines|].
  unfold flush. apply Forall_app. split; [exact Hlines|].
  constructor; [|constructor]. apply py_join_nonempty.
  inversion Hcur; assumption.
Qed.

Lemma wrap_loop_nonempty width words :
  forall lines current_line n lines' current_line',
    wrap_loop width words lines current_line n = (lines', current_line') ->
    Forall (fun w => is_word w = true) words ->
    Forall (fun w => is_word w = true) current_line ->
    Forall (fun line => line <> EmptyString) lines ->
    Forall (fun line => line <> EmptyString) (flush lines' current_line').
Proof.
  induction words as [|word words IH];
    intros lines current_line n lines' current_line' Hrun Hwords Hcur Hlines.
  - cbn in Hrun. injection Hrun as <- <-. apply flush_nonempty; assumption.
  - inversion Hwords as [|? ? Hword Hrest]; subst. cbn [wrap_loop] in Hrun.
    destruct (n + py_len word + 1 <=? width).
    + apply (IH _ _ _ _ _ Hrun Hrest); [|exact Hlines].
      apply Forall_app; auto.
    + apply (IH _ _ _ _ _ Hrun Hrest); [auto|].
      apply flush_nonempty; assumption.
Qed.

(** X24.  [_wrap_text] never returns an empty list, and its lines, split
    again, give back the words of the text, all of them, once and in order;
    a text without words gives one empty line. *)
Theorem wrap_text_keeps_words text width :
  _wrap_text text width <> []
  /\ flat_map py_split (_wrap_text text width) = py_split text
  /\ (py_split text = [] -> _wrap_text text width = [EmptyString]).
Proof.
  unfold _wrap_text.
  destruct (wrap_loop width (py_split text) [] [] 0) as [lines cl] eqn:Hrun.
  destruct (wrap_loop_words _ _ _ _ _ _ _ Hrun (py_split_words text)
              ltac:(constructor)) as [_ Hflat].
  cbn [flush flat_map app] in Hflat.
  split; [|split].
  - destruct (flush lines cl); discriminate.
  - destruct (flush lines cl) eqn:Hf; [|exact Hflat].
    cbn in *. exact Hflat.
  - intros Hnil. rewrite Hnil in Hrun. cbn in Hrun. injection Hrun as <- <-.
    reflexivity.
Qed.

(** X25.  For a text with a word at least, no line [_wrap_text] returns is
    empty, and every line is at most [width] long or is a single word of the
    text that is longer. *)
Theorem wrap_text_fits text width :
  py_split text <> [] ->
  Forall (fun line =>
            line <> EmptyString
            /\ (py_len line <= width \/ In line (py_split text)))
    (_wrap_text text width).
Proof.
  intros Hne. unfold _wrap_text.
  destruct (wrap_loop width (py_split text) [] [] 0) as [lines cl] eqn:Hrun.
  pose proof (wrap_loop_fits width (py_split text) _ _ _ _ _ _ Hrun
                (fun w H => H) ltac:(constructor)
                ltac:(unfold py_len; cbn; lia) (or_introl eq_refl)) as Hfits.
  destruct (wrap_loop_words _ _ _ _ _ _ _ Hrun (py_split_words text)
              ltac:(constructor)) as [_ Hflat].
  cbn [flush flat_map app] in Hflat.
  destruct (flush lines cl) as [|l ls] eqn:Hf.
  - cbn in Hflat. congruence.
  - pose proof (wrap_loop_nonempty _ _ _ _ _ _ _ Hrun (py_split_words text)
                  ltac:(constructor) ltac:(constructor)) as Hnonempty.
    rewrite Hf in Hnonempty.
    rewrite Forall_forall in Hfits, Hnonempty. apply Forall_forall.
    intros line Hin. split; [apply Hnonempty | apply Hfits]; exact Hin.
Qed.

(** ** Languages by file name *)

Lemma table_get_in x t v : table_get x t = Some v -> In (x, v) t.
Proof.
  induction t as [|[k v'] t IH]; cbn; [discriminate|].
  destruct (String.eqb_spec x k) as [->|_].
  - intros [= ->]. left. reflexivity.
  - intros H. right. exact (IH H).
Qed.

Lemma table_get_value x t v :
  table_get x t = Some v -> existsb (String.eqb v) (map snd t) = true.
Proof.
  induction t as [|[k v'] t IH]; cbn; [discriminate|].
  destruct (String.eqb x k).
  - intros [= ->]. rewrite String.eqb_refl. reflexivity.
  - intros H. rewrite (IH H). apply orb_true_r.
Qed.

Lemma to_lower_dot c : Ascii.eqb "." (Str.to_lower c) = Ascii.eqb "." c.
Proof.
  destruct c as [[] [] [] [] [] [] [] []]; reflexivity.
Qed.

Lemma rfind_from_lower s : forall off,
  Str.rfind_from off "." (Str.lower s) = Str.rfind_from off "." s.
Proof.
  induction s as [|c s IH]; intros off; [reflexivity|].
  cbn [Str.lower Str.rfind_from]. rewrite IH, to_lower_dot. reflexivity.
Qed.

Lemma length_lower s : String.length (Str.lower s) = String.length s.
Proof. induction s as [|c s IH]; cbn; [reflexivity | rewrite IH; reflexivity]. Qed.

Lemma substring_lower s : forall n m,
  substring n m (Str.lower s) = Str.lower (substring n m s).
Proof.
  induction s as [|c s IH]; intros [|n] [|m]; cbn; try reflexivity.
  - rewrite IH. reflexivity.
  - apply IH.
  - apply IH.
Qed.

Lemma name_suffix_lower nm :
  Str.lower (name_suffix nm) = name_suffix (Str.lower nm).
Proof.
  unfold name_suffix, Str.rfind, Str.slice. cbv zeta.
  rewrite rfind_from_lower, length_lower.
  destruct (_ && _); [|reflexivity].
  rewrite substring_lower. reflexivity.
Qed.

Lemma suffix_of_name p nm :
  Str.lower (path_name p) = nm ->
  Str.lower (path_suffix p) = name_suffix nm.
Proof.
  intros <-. rewrite <- name_suffix_lower. reflexivity.
Qed.

(** X26.  Four entries of [special_files] are never reached, as the
    extension of their name is in [EXTENSION_MAP]: [pom.xml] is reported as
    [XML], [package.json] as [JSON], [cargo.toml] and [pyproject.toml] as
    [TOML], and no path is ever reported as [Maven/XML], [JSON (npm)],
    [TOML (Rust)] or [TOML (Python)]. *)
Theorem detect_language_dead_entries file_path :
  (Str.lower (path_name file_path) = "pom.xml" ->
     FileUtils.detect_language file_path = Some "XML")
  /\ (Str.lower (path_name file_path) = "package.json" ->
        FileUtils.detect_language file_path = Some "JSON")
  /\ (Str.lower (path_name file_path) = "cargo.toml" ->
        FileUtils.detect_language file_path = Some "TOML")
  /\ (Str.lower (path_name file_path) = "pyproject.toml" ->
        FileUtils.detect_language file_path = Some "TOML")
  /\ ~ In (FileUtils.detect_language file_path)
         [Some "Maven/XML"; Some "JSON (npm)"; Some "TOML (Rust)";
          Some "TOML (Python)"].
Proof.
  assert (Hname : forall nm lang,
            Str.lower (path_name file_path) = nm ->
            table_get (name_suffix nm) FileUtils.EXTENSION_MAP = Some lang ->
            FileUtils.detect_language file_path = Some lang).
  { intros nm lang Hnm Hget. unfold FileUtils.detect_language. cbv zeta.
    rewrite (suffix_of_name _ _ Hnm), Hget. reflexivity. }
  split; [|split; [|split; [|split]]].
  - intros H. apply (Hname _ _ H). reflexivity.
  - intros H. apply (Hname _ _ H). reflexivity.
  - intros H. apply (Hname _ _ H). reflexivity.
  - intros H. apply (Hname _ _ H). reflexivity.
  - intros Hin.
    assert (Hcases : exists lang,
              FileUtils.detect_language file_path = Some lang
              /\ existsb (String.eqb lang) (map snd FileUtils.EXTENSION_MAP) = false
              /\ In lang ["Maven/XML"; "JSON (npm)"; "TOML (Rust)";
                          "TOML (Python)"]).
    { cbn [In] in Hin.
      destruct Hin as [H|[H|[H|[H|[]]]]]; symmetry in H; eexists;
        (split; [exact H|]); (split; [reflexivity|]); cbn; auto. }
    destruct Hcases as (lang & Hdet & Hnot & Hlang).
    pose proof Hdet as Hdet'. unfold FileUtils.detect_language in Hdet'. cbv zeta in Hdet'.
    destruct (table_get (Str.lower (path_suffix file_path)) FileUtils.EXTENSION_MAP)
      as [l|] eqn:Hext.
    + injection Hdet' as ->. apply table_get_value in Hext. congruence.
    + apply table_get_in in Hdet'.
      assert (Hkey : In (Str.lower (path_name file_path))
                       ["pom.xml"; "package.json"; "cargo.toml";
                        "pyproject.toml"]).
      { cbn [In] in Hlang.
        destruct Hlang as [<-|[<-|[<-|[<-|[]]]]];
          unfold FileUtils.special_files in Hdet'; cbn [In] in Hdet';
          repeat (destruct Hdet' as [Hdet'|Hdet'];
                  [try discriminate Hdet'; injection Hdet' as <-; cbn; auto|]);
          destruct Hdet'. }
      cbn [In] in Hkey.
      destruct Hkey as [H|[H|[H|[H|[]]]]]; symmetry in H;
        rewrite (Hname _ _ H eq_refl) in Hdet; injection Hdet as <-;
        discriminate Hnot.
Qed.

(** X27.  Where the table of [analyze_file] knows the extension of a path,
    [detect_language] knows it too and names the same language, except for
    [.m] ([MATLAB] against [MATLAB/Objective-C]) and [.sh] ([Shell] against
    [Shell/Bash]). *)
Theorem detect_language_agrees file_path lang :
  table_get (Str.lower (path_suffix file_path)) ext_to_lang = Some lang ->
  exists lang',
    FileUtils.detect_language file_path = Some lang'
    /\ (lang' = lang
        \/ (Str.lower (path_suffix file_path) = ".m"
            /\ lang = "MATLAB" /\ lang' = "MATLAB/Objective-C")
        \/ (Str.lower (path_suffix file_path) = ".sh"
            /\ lang = "Shell" /\ lang' = "Shell/Bash")).
Proof.
  unfold FileUtils.detect_language. cbv zeta.
  generalize (Str.lower (path_suffix file_path)). intros x Hget.
  apply table_get_in in Hget. unfold ext_to_lang in Hget. cbn [In] in Hget.
  repeat (destruct Hget as [Hget|Hget];
          [injection Hget as <- <-; eexists; split; [reflexivity|]; auto|]).
  destruct Hget.
Qed.

(** X29.  As Latin-1 decodes every file, [read_code_file] returns a text
    for every regular file: the first of the UTF-8, UTF-8 with signature and
    Latin-1 readings that succeeds.  The readings as CP-1252 and ASCII play
    no part, and the final [ValueError] is never raised. *)
Theorem read_code_file_decodes (E : Env) decode file_path utf8 :
  (forall p, decode FileUtils.Latin1 p <> None) ->
  file_system E file_path = Some (RegularFile utf8) ->
  exists text,
    FileUtils.read_code_file E decode file_path = Ok text
    /\ ((decode FileUtils.Utf8 file_path = Some text)
        \/ (decode FileUtils.Utf8 file_path = None
            /\ decode FileUtils.Utf8Sig file_path = Some text)
        \/ (decode FileUtils.Utf8 file_path = None
            /\ decode FileUtils.Utf8Sig file_path = None
            /\ decode FileUtils.Latin1 file_path = Some text))
    /\ (forall decode', 
          (forall p, decode' FileUtils.Utf8 p = decode FileUtils.Utf8 p) ->
          (forall p, decode' FileUtils.Utf8Sig p = decode FileUtils.Utf8Sig p) ->
          (forall p, decode' FileUtils.Latin1 p = decode FileUtils.Latin1 p) ->
          FileUtils.read_code_file E decode' file_path = Ok text).
Proof.
  intros Hlatin Hfile. unfold FileUtils.read_code_file. rewrite Hfile.
  unfold FileUtils.encodings. cbn [FileUtils.try_encodings].
  destruct (decode FileUtils.Utf8 file_path) as [t1|] eqn:H1.
  - exists t1. split; [reflexivity|]. split; [auto|].
    intros decode' E1 _ _. rewrite E1, H1. reflexivity.
  - destruct (decode FileUtils.Utf8Sig file_path) as [t2|] eqn:H2.
    + exists t2. split; [reflexivity|]. split; [auto|].
      intros decode' E1 E2 _. rewrite E1, H1, E2, H2. reflexivity.
    + destruct (decode FileUtils.Latin1 file_path) as [t3|] eqn:H3.
      * exists t3. split; [reflexivity|]. split; [auto|].
        intros decode' E1 E2 E3. rewrite E1, H1, E2, H2, E3, H3. reflexivity.
      * destruct (Hlatin _ H3).
Qed.

(** ** Complexity classes *)
















(** ** The command line *)

Section CommandLine.
Context `{RT : Runtime} (E : Env).

Lemma with_analyzer_run {O A} (m : M CodeComplexityAnalyzer A) (w : world O) :
  let fresh := with_self (CodeComplexityAnalyzer_init None true 60) w in
  Cli.with_analyzer m w
  = ((m fresh).1, World (self w) (heap (m fresh).2) (trace (m fresh).2)).
Proof.
  intros fresh. unfold Cli.with_analyzer, call, try_finally. fold fresh.
  destruct (m fresh) as [o w1]. rewrite close_run.
  destruct (_provider (self w1)); reflexivity.
Qed.

(** X22.  [analyze_code] of the command line has the outcome of [analyze]
    or [analyze_quick] on a new facade, whose cache is empty: it leaves the
    caller's object and the options objects alone, sends at most twelve
    requests, and every result it returns has cost at least one request, so
    no result is ever served from a cache. *)
Theorem analyze_code_uncached {O} code options (quick : bool) (w : world O) :
  let fresh := with_self (CodeComplexityAnalyzer_init None true 60) w in
  let inner :=
    if quick then analyze_quick E code fresh
    else analyze E code (Some options) fresh in
  (Cli.analyze_code E code options quick w).1 = inner.1
  /\ self (Cli.analyze_code E code options quick w).2 = self w
  /\ heap (Cli.analyze_code E code options quick w).2 = heap w
  /\ exists evs,
       trace (Cli.analyze_code E code options quick w).2 = (trace w ++ evs)%list
       /\ (count_posts evs <= 12)%nat
       /\ (forall r, (Cli.analyze_code E code options quick w).1 = Ok r ->
           (1 <= count_posts evs)%nat).
Proof.
  intros fresh inner. unfold Cli.analyze_code. rewrite with_analyzer_run.
  fold fresh.
  assert (Hin : (if quick then analyze_quick E code else
                   analyze E code (Some options)) fresh = inner)
    by (unfold inner; destruct quick; reflexivity).
  rewrite Hin. destruct inner as [o w1] eqn:Ha.
  cbn [fst snd self heap trace].
  assert (Hrun : exists evs, facade_run fresh w1 evs /\ (count_posts evs <= 12)%nat).
  { destruct quick.
    - destruct (analyze_quick_run E _ _ _ _ Ha) as (evs & Hf & Hn & _). eauto.
    - destruct (analyze_run E _ _ _ _ _ Ha) as (evs & Hf & Hn & _). eauto. }
  destruct Hrun as (evs & (Htr & Hheap & _) & Hn).
  split; [reflexivity|]. split; [reflexivity|]. split; [exact Hheap|].
  exists evs. split; [exact Htr|]. split; [exact Hn|].
  intros r ->.
  assert (Hcases :
    (exists c timestamp,
        _analysis_cache (self fresh) = Some c
        /\ _cache c !! _hash_code (Str.strip code) = Some (r, timestamp)
        /\ w1 = emit ReadClock fresh)
    \/ (_analysis_cache (self w1) = None <-> _analysis_cache (self fresh) = None)
        /\ exists evs,
             trace w1 = (trace fresh ++ evs)%list
             /\ (1 <= count_posts evs <= 12)%nat).
  { destruct quick.
    - exact (analyze_quick_ok_cases E _ _ _ _ Ha).
    - exact (analyze_ok_cases E _ _ _ _ _ Ha). }
  destruct Hcases as [(c & ts & Hc & Hl & _)|(_ & evs' & Htr' & Hn')].
  - injection Hc as <-. cbn in Hl. rewrite lookup_empty in Hl. discriminate.
  - rewrite Htr in Htr'. apply app_inv_head in Htr'. subst evs'. lia.
Qed.

(** X30.  From the command line a file that is not UTF-8 is analysed in
    quick mode only: there its Latin-1 reading goes to [analyze_quick], while
    without [quick] the call ends in [UnicodeDecodeError] and nothing
    else happens. *)
Theorem cli_analyze_file_encodings decode {O} file_path options text
    (w : world O) :
  file_system E file_path = Some (RegularFile None) ->
  decode FileUtils.Utf8 file_path = None ->
  decode FileUtils.Utf8Sig file_path = None ->
  decode FileUtils.Latin1 file_path = Some text ->
  let fresh := with_self (CodeComplexityAnalyzer_init None true 60) w in
  Cli.analyze_file E decode file_path options false w
  = (Raise UnicodeDecodeError, w)
  /\ (Cli.analyze_file E decode file_path options true w).1
     = (analyze_quick E text fresh).1.
Proof.
  intros Hfile H1 H2 H3 fresh. unfold Cli.analyze_file.
  rewrite !with_analyzer_run. fold fresh. split.
  - unfold analyze_file. rewrite Hfile. unfold raise. cbn. destruct w; reflexivity.
  - cbn [fst]. unfold bind, lift.
    unfold FileUtils.read_code_file. rewrite Hfile.
    unfold FileUtils.encodings. cbn [FileUtils.try_encodings].
    rewrite H1, H2, H3. reflexivity.
Qed.

End CommandLine.

(** ** Instances of the further properties *)

Section MoreInstances.

#[local] Existing Instance Demo.runtime.


(** The network is down for every request. *)
Lemma complete_raises_terminal_witness :
  let run :=
    complete (Demo.env []) "prompt" None true true (Demo.start Demo.provider) in
  exists e,
    run.1 = Raise (GroqAPIError ("All models failed. Last error: " ++ exn_str e)
                     None).
Proof.
  intros run. destruct run as [[text|x] w'] eqn:Hrun.
  - exfalso. revert Hrun. vm_compute. discriminate.
  - destruct (complete_raises_terminal (Demo.env []) "prompt" None true true
                (Demo.start Demo.provider) x w' Hrun) as [e ->].
    exists e. reflexivity.
Defined.

(** The primary model answers at once. *)
Lemma complete_returns_trimmed_witness :
  let run :=
    complete (Demo.env [Demo.ok_response]) "prompt" None true true
      (Demo.start Demo.provider) in
  exists text,
    run.1 = Ok text /\ Str.strip text = text /\ starts_clean text = true.
Proof.
  intros run. destruct run as [[text|x] w'] eqn:Hrun.
  - exists text. split; [reflexivity|].
    exact (complete_returns_trimmed (Demo.env [Demo.ok_response]) "prompt" None
             true true (Demo.start Demo.provider) text w' Hrun).
  - exfalso. revert Hrun. vm_compute. discriminate.
Defined.

(** A status of 500 with a body that is not JSON. *)
Lemma api_error_not_retried_witness :
  let E := Demo.env [Response 500 "boom"; Demo.ok_response] in
  let w := Demo.start Demo.provider in
  let msgs := build_messages "prompt" None in
  _make_request E msgs "llama-3.3-70b-versatile" true w
  = (Raise (GroqAPIError "API error (500): boom" (Some 500)),
     emit (Post (payload_of w msgs "llama-3.3-70b-versatile" true))
       (client_opened w)).
Proof.
  intros E w msgs.
  destruct (api_error_not_retried E msgs "llama-3.3-70b-versatile" true w 500
              "boom" eq_refl ltac:(discriminate) ltac:(discriminate))
    as (Hrun & Hraw & _).
  rewrite Hrun, (Hraw eq_refl). reflexivity.
Defined.


(** Without the fallback, a status of 500 ends the call after one request. *)
Lemma complete_single_candidate_witness :
  let E := Demo.env [Response 500 "boom"; Demo.ok_response] in
  let w := Demo.start Demo.provider in
  let run := complete E "prompt" None true false w in
  exists evs,
    trace run.2 = (trace w ++ evs)%list
    /\ (1 <= count_posts evs <= 6)%nat
    /\ Forall (fun e => forall r, e = Post r ->
                 rq_model r = model (config (self w))) evs.
Proof.
  intros E w run.
  apply (proj1 (complete_single_candidate E "prompt" None true false w
                  (or_introl eq_refl)) run.1 run.2).
  apply surjective_pairing.
Defined.

(** An entry read back one second after it was stored, under a TTL of an
    hour. *)
Lemma cache_set_get_witness :
  let E := Demo.env [] in
  let r :=
    {| language := "Python"; overall_time_complexity := "O(1)";
       overall_space_complexity := "O(1)"; summary := "constant";
       detailed_explanation := ""; functions := [];
       optimization_suggestions := []; confidence_score := 1 |} in
  let w := Demo.start (AnalysisCache_init 60) in
  let stored := (cache_set E "x = 1" r w).2 in
  cache_get E "x = 1" stored = (Ok (Some r), emit ReadClock stored).
Proof.
  intros E r w stored.
  apply (proj1 (proj2 (cache_set_get E "x = 1" r w "x = 1" stored
                         eq_refl eq_refl))).
  vm_compute. reflexivity.
Defined.

(** A quick analysis, then a full analysis of the same code with blanks
    around it: served from the cache. *)
Lemma quick_and_full_share_cache_witness :
  let E := Demo.env [Demo.ok_response] in
  let first := analyze_quick E "def f(n): return n" (Demo.start Demo.analyzer) in
  exists r,
    first.1 = Ok r
    /\ analyze E "  def f(n): return n  " (Some Demo.python_options) first.2
       = (Ok r, emit ReadClock first.2).
Proof.
  intros E first.
  destruct first as [[r|e] w1'] eqn:Hfirst;
    [|exfalso; revert Hfirst; vm_compute; discriminate].
  exists r. split; [reflexivity|].
  assert (Hfresh : ttl_elapsed E "  def f(n): return n  " w1' = false).
  { change (ttl_elapsed E "  def f(n): return n  " (Ok r, w1').2 = false).
    rewrite <- Hfirst. vm_compute. reflexivity. }
  apply (proj1 (quick_and_full_share_cache E "def f(n): return n"
                  "  def f(n): return n  " None (Some Demo.python_options)
                  (Demo.start Demo.analyzer) w1' w1' r
                  ltac:(vm_compute; eauto) eq_refl eq_refl Hfresh)).
  exact Hfirst.
Defined.

(** A first analysis on an empty cache: one request at least. *)
Lemma analyze_success_origin_witness :
  let E := Demo.env [Demo.ok_response] in
  let w := Demo.start Demo.analyzer in
  let run := analyze E "def f(n): return n" None w in
  exists r evs,
    run.1 = Ok r
    /\ trace run.2 = (trace w ++ evs)%list
    /\ (1 <= count_posts evs <= 12)%nat.
Proof.
  intros E w run.
  destruct run as [[r|e] w'] eqn:Hrun;
    [|exfalso; revert Hrun; vm_compute; discriminate].
  destruct (proj1 (analyze_success_origin E "def f(n): return n" None w r w'
                     Hrun))
    as [(c & ts & Hc & Hl & _)|(evs & Ht & Hn)].
  - exfalso. vm_compute in Hc. injection Hc as <-. revert Hl.
    vm_compute. discriminate.
  - exists r, evs. auto.
Defined.

(** No key in the environment. *)
Lemma analyze_without_api_key_witness :
  let E :=
    {| http_post := http_post (Demo.env []); clock := clock (Demo.env []);
       getenv_api_key := None; file_system := file_system (Demo.env []) |} in
  let w := Demo.start Demo.analyzer in
  let w1 := (check_cache E (Str.strip "x = 1") w).2 in
  let missing :=
    ValueError
      "GROQ_API_KEY environment variable not set. Get your key from https://console.groq.com" in
  analyze E "x = 1" None w = (Raise missing, w1)
  /\ analyze_quick E "x = 1" w = (Raise missing, w1)
  /\ count_posts (trace w1) = count_posts (trace w)
  /\ _provider (self w1) = None.
Proof.
  intros E w.
  apply (analyze_without_api_key E "x = 1" None w eq_refl eq_refl
           (or_introl eq_refl) eq_refl).
  vm_compute. reflexivity.
Defined.


(** The defaults, and the defaults with the two unread options off. *)
Lemma analyze_reads_four_options_witness :
  let E := Demo.env [Demo.ok_response] in
  let o' :=
    {| analyze_functions := true; include_suggestions := true;
       detailed_mode := false; detect_language := false;
       language_hint := Some ""; include_best_worst_case := false |} in
  analyze E "x = 1" (Some default_options) (Demo.start Demo.analyzer)
  = analyze E "x = 1" (Some o') (Demo.start Demo.analyzer).
Proof.
  intros E o'.
  apply (analyze_reads_four_options E "x = 1" default_options o').
  repeat split. right. split; reflexivity.
Defined.

(** A Python file analysed without options. *)
Lemma analyze_file_delegates_witness :
  let E := Demo.env [Demo.ok_response] in
  let w := Demo.start Demo.analyzer in
  let o' := set_language_hint (Some "Python") default_options in
  analyze_file E "src/main.py" None w
  = analyze E "x = 1" (Some o') (World (self w) [o'] (trace w))
  /\ heap (analyze_file E "src/main.py" None w).2 = [o'].
Proof.
  intros E w o'.
  exact (proj2 (proj2 (analyze_file_delegates E "src/main.py" "x = 1" w
                         eq_refl))).
Defined.

(** A Rust file analysed without options. *)
Lemma analyze_file_hint_by_extension_witness :
  let E := Demo.env [Demo.ok_response] in
  let w := Demo.start Demo.analyzer in
  let o' := set_language_hint (Some "Rust") default_options in
  analyze_file E "src/lib.rs" None w
  = analyze E "fn f() {}" (Some o') (World (self w) [o'] (trace w)).
Proof.
  intros E w o'.
  exact (proj1 (analyze_file_hint_by_extension E "src/" "lib" "rs" "fn f() {}"
                  w (or_intror (ex_intro _ "src" eq_refl))
                  ltac:(discriminate) eq_refl ltac:(discriminate) eq_refl
                  eq_refl eq_refl)).
Defined.

(** A text wrapped to ten columns: the last word stands alone, too long. *)
Lemma wrap_text_fits_witness :
  Forall (fun line =>
            line <> EmptyString
            /\ (py_len line <= 10
                \/ In line (py_split "a quick look at complexities")))
    (_wrap_text "a quick look at complexities" 10).
Proof. apply wrap_text_fits. vm_compute. discriminate. Defined.

(** A Python file: both tables say Python. *)
Lemma detect_language_agrees_witness :
  exists lang',
    FileUtils.detect_language "src/main.py" = Some lang'
    /\ (lang' = "Python"
        \/ (Str.lower (path_suffix "src/main.py") = ".m"
            /\ "Python" = "MATLAB" /\ lang' = "MATLAB/Objective-C")
        \/ (Str.lower (path_suffix "src/main.py") = ".sh"
            /\ "Python" = "Shell" /\ lang' = "Shell/Bash")).
Proof. apply (detect_language_agrees "src/main.py" "Python"). reflexivity. Defined.

(** A file that only Latin-1 decodes. *)
Lemma read_code_file_decodes_witness :
  let E :=
    {| http_post := http_post (Demo.env []); clock := clock (Demo.env []);
       getenv_api_key := Some "key";
       file_system := fun _ => Some (RegularFile None) |} in
  let decode := fun enc (_ : string) =>
    match enc with FileUtils.Latin1 => Some "x = 1" | _ => None end in
  FileUtils.read_code_file E decode "legacy.py" = Ok "x = 1".
Proof.
  intros E decode.
  destruct (read_code_file_decodes E decode "legacy.py" None
              ltac:(intros; discriminate) eq_refl)
    as (text & -> & Hcases & _).
  destruct Hcases as [H|[[_ H]|(_ & _ & H)]]; try discriminate H.
  injection H as <-. reflexivity.
Defined.

(** The same file from the command line, not in quick mode. *)
Lemma cli_analyze_file_encodings_witness :
  let E :=
    {| http_post := http_post (Demo.env []); clock := clock (Demo.env []);
       getenv_api_key := Some "key";
       file_system := fun _ => Some (RegularFile None) |} in
  let decode := fun enc (_ : string) =>
    match enc with FileUtils.Latin1 => Some "x = 1" | _ => None end in
  let w := Demo.start tt in
  Cli.analyze_file E decode "legacy.py" 0 false w = (Raise UnicodeDecodeError, w).
Proof.
  intros E decode w.
  exact (proj1 (cli_analyze_file_encodings E decode "legacy.py" 0%nat "x = 1" w
                  eq_refl eq_refl eq_refl eq_refl)).
Defined.

End MoreInstances.
